(** * AO3 sampled scraper: crawl controller and sampling engine

    A shallow embedding of [main.py]: the page loop of [scrape_works], the
    per-work emission of [scrape_single_work], the sampling strategies of
    [apply_sampling], the rate-limit detection of [handle_rate_limit], the
    start-up and clean-up code of [main] and the query rewriting of
    [update_url_page_number]; and of [scrape_tags.py]: the URL of a tag
    ([canonicalize_tag], [get_tag_url]), the retry loop of
    [scrape_tag_page] and the loop over the tags of its [main].

    Conventions of the embedding.
    - Python integers are [Z]; the three dictionaries keyed by bin bounds are
      [gmap Z Z] ([strata_counts], [current_page_strata_counts]) and an
      insertion-ordered association list ([works_by_kudos], whose iteration
      order fixes the order of the sample).
    - The global set [seen_work_ids] is a [gset (option string)]: the
      identifier computed from a listing entry is [None] when the entry has
      no [id] attribute.
    - The files [last_visited_page.txt], [seen_work_ids.txt],
      [strata_counts.json] and the CSV output are fields of [Files];
      [None] means that the file does not exist.  [seen_work_ids.txt] is
      held as the list of the identifiers written to it, one
      [work_id + '\n'] each; what a starting process reads back from that
      text is [read_seen_lines].  Strings are the bytes of their UTF-8
      encoding, files are read and written on a POSIX system.
    - Floats are the binary64 numbers of [SpecFloat], with Python's
      exceptions where an operation has no float to give.
    - The site and the pseudo-random generator are inputs: [net] answers the
      k-th request of the run, [entropy] is the k-th raw draw.
    - [exit(0)] and uncaught exceptions end the run with [Stop].  The two
      loops without a bound are run with fuel, and [Diverge] is the outcome
      of a run that needs more steps than the fuel given: the [while True]
      loop over the pages has the fuel handed to [main], and the loop of
      [random.sample] that draws again while the index drawn is already
      selected has [patience] redraws.  An interrupt by the operator can
      arrive between any two statements and is not part of the model. *)

From Stdlib Require Import ZArith List SpecFloat Ascii String.
From stdpp Require Import base decidable option list gmap strings fin_maps sorting pretty.

Open Scope Z_scope.

(** ** Data *)

(** One [li.work] element of a listing page, reduced to what the controller
    reads from it: [work.get('id').split('_')[-1] if work.get('id') else
    None], the text and [href] of [h4 a] when there is one, and the integer
    parsed from [dd.kudos a] (["0"] when absent). *)
Record Work := mkWork {
  w_id : option string;
  w_title : option (string * string);
  w_kudos : Z
}.

#[global] Instance Work_eq_dec : EqDecision Work.
Proof. solve_decision. Defined.

Inductive Url :=
| PageUrl (page : Z)
| WorkUrl (href : string).

#[global] Instance Url_eq_dec : EqDecision Url.
Proof. solve_decision. Defined.

(** What [BeautifulSoup(response.text)] is asked for. *)
Record Body := mkBody {
  retry_later : bool;        (* "Retry later" in soup.text *)
  li_works : list Work;      (* soup.select("li.work") *)
  dd_published : string      (* text of dd.published *)
}.

(** The result of one [requests.get]: one of the network exceptions that
    [scrape_works] retries, or a response with a status code. *)
Inductive Response :=
| NetError
| Http (status : Z) (body : Body).

Inductive Strategy := Strata | Random | Systematic | NoSampling.

#[global] Instance Strategy_eq_dec : EqDecision Strategy.
Proof. solve_decision. Defined.

Inductive CsvRow :=
| Header
| WorkRow (id : option string) (url : string) (title : string)
          (date_published : string) (kudos : Z).

Definition row_id (r : CsvRow) : option (option string) :=
  match r with
  | Header => None
  | WorkRow id _ _ _ _ => Some id
  end.

Definition row_kudos (r : CsvRow) : option Z :=
  match r with
  | Header => None
  | WorkRow _ _ _ _ k => Some k
  end.

Record Files := mkFiles {
  last_visited_page_txt : option Z;
  seen_work_ids_txt : option (list string);
  strata_counts_json : option (gmap Z Z);
  csv_file : option (list CsvRow)
}.

Inductive Event :=
| EvFetch (u : Url)
| EvRow (id : option string) (kudos : Z)
| EvSeenAdd (id : option string)
| EvSeenAppend (id : string)
| EvPageSaved (page : Z)
| EvStrataSaved.

(** The process state: files, the two globals, how many requests and raw
    random draws were made, and the events so far (newest first). *)
Record World := mkWorld {
  files : Files;
  strata_counts : gmap Z Z;
  seen_work_ids : gset (option string);
  requests : nat;
  draws : nat;
  trace : list Event
}.

Record Env := mkEnv {
  net : nat → Url → Response;
  entropy : nat → nat;
  patience : nat
}.

Inductive Exn :=
| ValueError
| TypeError
| KeyError
| NameError
| OverflowError
| ZeroDivisionError.

Inductive Halt :=
| RateLimited (page : Z)       (* exit(0) in handle_rate_limit *)
| RetriesExhausted (page : Z)  (* exit(0) after max_retries *)
| Crashed (e : Exn).           (* an exception nobody catches *)

Inductive Outcome (A : Type) :=
| Ret (a : A) (w : World)
| Stop (h : Halt) (w : World)
| Diverge (w : World).

Arguments Ret {A} a w.
Arguments Stop {A} h w.
Arguments Diverge {A} w.

Definition final_world {A} (o : Outcome A) : World :=
  match o with
  | Ret _ w => w
  | Stop _ w => w
  | Diverge w => w
  end.

(** ** The monad of the controller *)

Definition M (A : Type) : Type := World → Outcome A.

Definition ret {A} (a : A) : M A := λ w, Ret a w.

Definition bind {A B} (m : M A) (f : A → M B) : M B :=
  λ w, match m w with
       | Ret a w' => f a w'
       | Stop h w' => Stop h w'
       | Diverge w' => Diverge w'
       end.

Definition halt {A} (h : Halt) : M A := λ w, Stop h w.

Definition get_world : M World := λ w, Ret w w.

Definition modify (f : World → World) : M unit := λ w, Ret tt (f w).

#[global] Instance M_ret : MRet M := @ret.
#[global] Instance M_bind : MBind M := λ A B f m, bind m f.

(** *** World updates *)

Definition log (e : Event) (w : World) : World :=
  mkWorld (files w) (strata_counts w) (seen_work_ids w) (requests w) (draws w)
          (e :: trace w).

Definition set_files (f : Files) (w : World) : World :=
  mkWorld f (strata_counts w) (seen_work_ids w) (requests w) (draws w) (trace w).

Definition set_strata_counts (c : gmap Z Z) (w : World) : World :=
  mkWorld (files w) c (seen_work_ids w) (requests w) (draws w) (trace w).

Definition set_seen_work_ids (s : gset (option string)) (w : World) : World :=
  mkWorld (files w) (strata_counts w) s (requests w) (draws w) (trace w).

Definition use_draws (k : nat) (w : World) : World :=
  mkWorld (files w) (strata_counts w) (seen_work_ids w) (requests w)
          (draws w + k)%nat (trace w).

Definition fetched (u : Url) (w : World) : World :=
  mkWorld (files w) (strata_counts w) (seen_work_ids w) (S (requests w)) (draws w)
          (EvFetch u :: trace w).

Definition set_csv (rows : option (list CsvRow)) (f : Files) : Files :=
  mkFiles (last_visited_page_txt f) (seen_work_ids_txt f) (strata_counts_json f) rows.

(** [csvwriter.writerow([...])]. *)
Definition emit_row (r : CsvRow) (w : World) : World :=
  log (EvRow (default None (row_id r)) (default 0 (row_kudos r)))
      (set_files (set_csv (Some (default [] (csv_file (files w)) ++ [r])) (files w)) w).

(** [seen_work_ids.add(work_id)]. *)
Definition add_seen (id : option string) (w : World) : World :=
  log (EvSeenAdd id) (set_seen_work_ids ({[id]} ∪ seen_work_ids w) w).

(** [open('seen_work_ids.txt', 'a')]: the file exists from then on. *)
Definition open_seen (w : World) : World :=
  set_files (mkFiles (last_visited_page_txt (files w))
                     (Some (default [] (seen_work_ids_txt (files w))))
                     (strata_counts_json (files w)) (csv_file (files w))) w.

(** [f.write(work_id + '\n')] into the file just opened. *)
Definition append_seen (id : string) (w : World) : World :=
  log (EvSeenAppend id)
      (set_files (mkFiles (last_visited_page_txt (files w))
                          (Some (default [] (seen_work_ids_txt (files w)) ++ [id]))
                          (strata_counts_json (files w)) (csv_file (files w))) w).

(** [json.dump(strata_counts, f)] into [strata_counts.json]. *)
Definition persist_strata (w : World) : World :=
  log EvStrataSaved
      (set_files (mkFiles (last_visited_page_txt (files w)) (seen_work_ids_txt (files w))
                          (Some (strata_counts w)) (csv_file (files w))) w).

(** [f.write(str(page))] into [last_visited_page.txt]. *)
Definition save_page (p : Z) (w : World) : World :=
  log (EvPageSaved p)
      (set_files (mkFiles (Some p) (seen_work_ids_txt (files w))
                          (strata_counts_json (files w)) (csv_file (files w))) w).

Definition remove_state_files (f : Files) : Files :=
  mkFiles None None None (csv_file f).

(** ** The random source

    [random.randint] and [random.sample] are library code (CPython 3.11);
    they are modelled over the raw draws of [entropy].  [randbelow n] is
    the raw draw reduced to [0, n). *)

Definition randbelow (E : Env) (n : nat) : M nat :=
  λ w, Ret (entropy E (draws w) `mod` n)%nat (use_draws 1 w).

(** [random.randint(a, b)]: [ValueError] on an empty range. *)
Definition randint (E : Env) (a b : Z) : M Z :=
  if b <? a then halt (Crashed ValueError)
  else r ← randbelow E (Z.to_nat (b - a + 1)); mret (a + Z.of_nat r).

(** The selection loop of [random.sample] over a pool:
    [j = randbelow(n - i); result[i] = pool[j]; pool[j] = pool[n - i - 1]],
    with the live prefix of the pool as the list. *)
Fixpoint pool_select {A} (raw : nat → nat) (pool : list A) (k : nat) : list A :=
  match k with
  | O => []
  | S k' =>
      let j := (raw O `mod` length pool)%nat in
      match pool !! j, last pool with
      | Some x, Some y =>
          x :: pool_select (λ i, raw (S i)) (removelast (<[j:=y]> pool)) k'
      | _, _ => []
      end
  end.

(** [j = randbelow(n)] and [while j in selected: j = randbelow(n)], with
    [left] redraws to go. *)
Fixpoint draw_fresh (E : Env) (n : nat) (selected : gset nat) (left : nat) : M nat :=
  j ← randbelow E n;
  if decide (j ∈ selected) then
    match left return M nat with
    | O => λ w, Diverge w
    | S left' => draw_fresh E n selected left'
    end
  else mret j.

(** The selection loop of [random.sample] over a set of selected indices:
    [selected_add(j); result[i] = population[j]] for the index just drawn,
    which is below [n]. *)
Fixpoint set_select {A} (E : Env) (population : list A) (selected : gset nat) (k : nat)
    : M (list A) :=
  match k with
  | O => mret []
  | S k' =>
      j ← draw_fresh E (length population) selected (patience E);
      match population !! j with
      | Some x =>
          rest ← set_select E population ({[j]} ∪ selected) k';
          mret (x :: rest)
      | None => mret []
      end
  end.

(** [setsize = 21] and, when [k > 5], [setsize += 4 ** _ceil(_log(k * 3, 4))]:
    the least power of 4 that is not below [3 * k].  (The logarithm is
    taken on floats; it yields this power for every [k] below 2^46.) *)
Definition setsize (k : Z) : Z :=
  if 5 <? k then 21 + 4 ^ ((Z.log2_up (k * 3) + 1) / 2) else 21.

(** [random.sample(population, k)]: [ValueError] unless [0 <= k <= n]; the
    pool is used when [n <= setsize], the set of selected indices
    otherwise. *)
Definition random_sample {A} (E : Env) (population : list A) (k : Z) : M (list A) :=
  let n := Z.of_nat (length population) in
  if (k <? 0) || (n <? k) then halt (Crashed ValueError)
  else if n <=? setsize k
  then λ w, Ret (pool_select (λ i, entropy E (draws w + i)%nat) population (Z.to_nat k))
                (use_draws (Z.to_nat k) w)
  else set_select E population ∅ (Z.to_nat k).

(** ** Python helpers *)

(** A [dict] in insertion order: [d[k] = v] and the in-place update of the
    value stored under [k]. *)
Fixpoint dict_set {K V} `{EqDecision K} (k : K) (v : V) (d : list (K * V)) : list (K * V) :=
  match d with
  | [] => [(k, v)]
  | (k', v') :: d' =>
      if decide (k = k') then (k', v) :: d' else (k', v') :: dict_set k v d'
  end.

Fixpoint dict_update {K V} `{EqDecision K} (f : V → V) (k : K) (d : list (K * V)) : list (K * V) :=
  match d with
  | [] => []
  | (k', v') :: d' =>
      if decide (k = k') then (k', f v') :: d' else (k', v') :: dict_update f k d'
  end.

(** [l[start::n]] for [start >= 0] and [n >= 1]; [skip] counts the items
    still to pass over before the next one is taken. *)
Fixpoint slice_step {A} (n skip : nat) (l : list A) : list A :=
  match l with
  | [] => []
  | x :: l' =>
      match skip with
      | O => x :: slice_step n (n - 1) l'
      | S s => slice_step n s l'
      end
  end.

(** [min(counts)] on a non-empty list. *)
Definition py_min (l : list Z) : Z :=
  match l with
  | [] => 0
  | x :: l' => foldl Z.min x l'
  end.

(** Binary64. *)
Definition prec : Z := 53.
Definition emax : Z := 1024.

(** An integer as the float operand it is, before any rounding. *)
Definition exact_int (z : Z) : spec_float :=
  match z with
  | Z0 => S754_zero false
  | Zpos p => S754_finite false p 0
  | Zneg p => S754_finite true p 0
  end.

(** [a / b] on integers: the quotient rounded once, to the nearest float
    (ties to even); [ZeroDivisionError] for [b = 0] and [OverflowError]
    when the quotient is beyond the floats. *)
Definition int_true_divide (a b : Z) : M spec_float :=
  if b =? 0 then halt (Crashed ZeroDivisionError)
  else match SFdiv prec emax (exact_int a) (exact_int b) with
       | S754_infinity _ => halt (Crashed OverflowError)
       | q => mret q
       end.

(** The float an integer operand of [*] is converted to: the nearest one,
    [OverflowError] when there is none. *)
Definition float_of_int (z : Z) : M spec_float :=
  match binary_normalize prec emax z 0 false with
  | S754_infinity _ => halt (Crashed OverflowError)
  | x => mret x
  end.

(** [int(x)]: truncation towards zero; [OverflowError] for an infinity and
    [ValueError] for a NaN. *)
Definition int_of_float (x : spec_float) : M Z :=
  match x with
  | S754_zero _ => mret 0
  | S754_finite s m e =>
      let a := if 0 <=? e then Z.shiftl (Zpos m) e else Z.shiftr (Zpos m) (- e) in
      mret (if s then - a else a)
  | S754_infinity _ => halt (Crashed OverflowError)
  | S754_nan => halt (Crashed ValueError)
  end.

(** Python truthiness of an optional integer: [None] and [0] are false. *)
Definition truthy (o : option Z) : bool :=
  match o with
  | Some z => negb (z =? 0)
  | None => false
  end.

(** ** apply_sampling *)

(** [zip(kudos_bins[:-1], kudos_bins[1:])]. *)
Definition bin_pairs (kudos_bins : list Z) : list (Z * Z) :=
  zip (removelast kudos_bins) (tail kudos_bins).

Definition in_bin (kudos : Z) (b : Z * Z) : bool :=
  (b.1 <=? kudos) && (kudos <? b.2).

(** The inner [for bin_start, bin_end in zip(...)] with its [break]: the
    first bin that holds the score. *)
Definition find_bin (kudos_bins : list Z) (kudos : Z) : option (Z * Z) :=
  find (in_bin kudos) (bin_pairs kudos_bins).

Definition empty_bins (kudos_bins : list Z) : list ((Z * Z) * list Work) :=
  foldl (λ d b, dict_set b [] d) [] (bin_pairs kudos_bins).

Definition zero_counts (kudos_bins : list Z) : gmap Z Z :=
  list_to_map ((λ b, (b, 0)) <$> removelast kudos_bins).

(** One turn of [for work in works_on_page]; the key updated by [+= 1] is
    among those [zero_counts] created. *)
Definition categorize_work (kudos_bins : list Z)
    (st : list ((Z * Z) * list Work) * gmap Z Z) (work : Work)
    : list ((Z * Z) * list Work) * gmap Z Z :=
  match find_bin kudos_bins (w_kudos work) with
  | Some b => (dict_update (λ l, l ++ [work]) b st.1, alter (λ c, c + 1) b.1 st.2)
  | None => st
  end.

Definition categorize (kudos_bins : list Z) (works_on_page : list Work)
    : list ((Z * Z) * list Work) * gmap Z Z :=
  foldl (categorize_work kudos_bins) (empty_bins kudos_bins, zero_counts kudos_bins)
        works_on_page.

Definition min_count_of (current_page_strata_counts : gmap Z Z) : Z :=
  let counts := filter (λ c, 0 < c) ((map_to_list current_page_strata_counts).*2) in
  match counts with
  | [] => 0
  | _ => py_min counts
  end.

(** [for (bin_start, bin_end), work_bin in works_by_kudos.items()]. *)
Fixpoint strata_draw (E : Env) (items : list ((Z * Z) * list Work)) (min_count : Z)
    (sampled_works : list Work) : M (list Work) :=
  match items with
  | [] => mret sampled_works
  | (b, work_bin) :: rest =>
      if (0 <? Z.of_nat (length work_bin)) && (0 <? min_count) then
        s ← random_sample E work_bin min_count;
        _ ← modify (λ w, set_strata_counts
                            (<[b.1 := default 0 (strata_counts w !! b.1) + min_count]>
                               (strata_counts w)) w);
        strata_draw E rest min_count (sampled_works ++ s)
      else strata_draw E rest min_count sampled_works
  end.

(** [int(len(works_on_page) * (sampling_percentage / 100))]. *)
Definition sample_size_of (len sampling_percentage : Z) : M Z :=
  ratio ← int_true_divide sampling_percentage 100;
  len_float ← float_of_int len;
  int_of_float (SFmul prec emax len_float ratio).

Definition apply_sampling (E : Env) (sampling_strategy : Strategy)
    (sampling_percentage : Z) (works_on_page : list Work) (sampling_n : Z)
    (kudos_bins : list Z) : M (list Work) :=
  match sampling_strategy with
  | Strata =>
      let '(works_by_kudos, current_page_strata_counts) :=
        categorize kudos_bins works_on_page in
      strata_draw E works_by_kudos (min_count_of current_page_strata_counts) []
  | Random =>
      let len := Z.of_nat (length works_on_page) in
      sample_size ← sample_size_of len sampling_percentage;
      random_sample E works_on_page (Z.min len sample_size)
  | Systematic =>
      start ← randint E 0 (sampling_n - 1);
      mret (slice_step (Z.to_nat sampling_n) (Z.to_nat start) works_on_page)
  | NoSampling => mret works_on_page
  end.

(** ** handle_rate_limit *)

(** [response.raise_for_status()] raises for the 4xx and 5xx codes. *)
Definition raise_for_status (status : Z) : bool :=
  (400 <=? status) && (status <? 600).

(** [False] for an error status, [exit(0)] when the body of any other
    response carries the marker, [True] otherwise.  The [input(...)] before
    [exit(0)] waits for the operator, who is taken to press Enter. *)
Definition handle_rate_limit (status : Z) (body : Body) (page : Z) : M bool :=
  if raise_for_status status then mret false
  else if retry_later body then halt (RateLimited page)
  else mret true.

(** ** scrape_single_work *)

Definition requests_get (E : Env) (u : Url) : M Response :=
  λ w, Ret (net E (requests w) u) (fetched u w).

(** [date_published.replace("-", ".")]. *)
Fixpoint dash_to_dot (s : string) : string :=
  match s with
  | EmptyString => EmptyString
  | String c s' => String (if Ascii.eqb c "-" then "."%char else c) (dash_to_dot s')
  end.

Definition site : string := "https://archiveofourown.org".

(** The request for the work's own page, inside [try ... except Exception]:
    a failed request and an error status both give ["Unknown"]. *)
Definition fetch_date_published (E : Env) (work_url : string) (page : Z) : M string :=
  response ← requests_get E (WorkUrl work_url);
  match response with
  | NetError => mret "Unknown"%string
  | Http status body =>
      ok ← handle_rate_limit status body page;
      mret (if ok : bool then dd_published body else "Unknown"%string)
  end.

(** [strata_counts[bin_start] += 1] for the first bin holding the score. *)
Definition count_in_bin (kudos_bins : list Z) (kudos : Z) : M unit :=
  match find_bin kudos_bins kudos with
  | Some b =>
      w ← get_world;
      match strata_counts w !! b.1 with
      | Some c => modify (set_strata_counts (<[b.1 := c + 1]> (strata_counts w)))
      | None => halt (Crashed KeyError)
      end
  | None => mret tt
  end.

Definition scrape_single_work (E : Env) (work : Work) (page : Z) (kudos_bins : list Z)
    : M unit :=
  match w_title work with
  | None => mret tt
  | Some (title, href) =>
      let work_id := w_id work in
      w ← get_world;
      if decide (work_id ∈ seen_work_ids w) then mret tt
      else
        let work_url := (site +:+ href)%string in
        date_published ← fetch_date_published E work_url page;
        let kudos := w_kudos work in
        let row := WorkRow work_id work_url title (dash_to_dot date_published) kudos in
        _ ← match work_id with
            | None =>
                _ ← modify (λ w, open_seen (add_seen None (emit_row row w)));
                halt (Crashed TypeError)      (* work_id + '\n' *)
            | Some id =>
                modify (λ w, append_seen id (add_seen (Some id) (emit_row row w)))
            end;
        _ ← count_in_bin kudos_bins kudos;
        modify persist_strata
  end.

(** ** scrape_works *)

Inductive FileMode := ModeW | ModeA.

Definition max_retries : nat := 3.

(** The retry loop around the listing request; [left] is
    [max_retries - retry_count].  With no attempt left at entry the loop
    body never runs and [soup] is unbound. *)
Fixpoint fetch_listing (E : Env) (page : Z) (left : nat) : M Body :=
  match left with
  | O => halt (Crashed NameError)
  | S left' =>
      let retry : M Body :=
        match left' with
        | O => halt (RetriesExhausted page)
        | S _ => fetch_listing E page left'
        end in
      response ← requests_get E (PageUrl page);
      match response with
      | NetError => retry
      | Http status body =>
          ok ← handle_rate_limit status body page;
          if ok : bool then mret body else retry
      end
  end.

(** [for work in sampled_works]; returns [work_count] and [should_break]. *)
Fixpoint item_loop (E : Env) (sampled_works : list Work) (page : Z) (kudos_bins : list Z)
    (max_work_count : option Z) (work_count : Z) : M (Z * bool) :=
  match sampled_works with
  | [] => mret (work_count, false)
  | work :: rest =>
      w ← get_world;
      if decide (w_id work ∈ seen_work_ids w)
      then item_loop E rest page kudos_bins max_work_count work_count
      else
        _ ← scrape_single_work E work page kudos_bins;
        let work_count := work_count + 1 in
        if truthy max_work_count && (work_count >=? default 0 max_work_count)
        then mret (work_count, true)
        else item_loop E rest page kudos_bins max_work_count work_count
  end.

Record Sampling := mkSampling {
  sampling_strategy : Strategy;
  sampling_percentage : Z;
  sampling_n : Z;
  kudos_bins : list Z
}.

(** One turn of [while True] from the request for the listing to the end of
    the [for] loop; returns [work_count] and [should_break]. *)
Definition page_body (E : Env) (max_work_count : option Z) (smp : Sampling)
    (page work_count : Z) : M (Z * bool) :=
  soup ← fetch_listing E page max_retries;
  sampled_works ← apply_sampling E (sampling_strategy smp) (sampling_percentage smp)
                    (li_works soup) (sampling_n smp) (kudos_bins smp);
  _ ← modify (save_page page);
  item_loop E sampled_works page (kudos_bins smp) max_work_count work_count.

(** [while True], one unit of fuel per page. *)
Fixpoint page_loop (E : Env) (fuel : nat) (end_page max_work_count : option Z)
    (smp : Sampling) (page work_count : Z) : M unit :=
  match fuel with
  | O => λ w, Diverge w
  | S fuel' =>
      if truthy end_page && (page >? default 0 end_page) then mret tt
      else
        '(work_count, should_break) ← page_body E max_work_count smp page work_count;
        if should_break : bool then mret tt
        else page_loop E fuel' end_page max_work_count smp (page + 1) work_count
  end.

(** *** The text of [seen_work_ids.txt]

    A file opened in text mode is read with universal newlines: ["\r\n"]
    and a lone ["\r"] arrive as ["\n"].  [str.strip()] removes the
    characters for which [str.isspace()] holds from both ends, and
    [str.split('\n')] cuts at every line feed.  Texts are lists of the
    bytes of their UTF-8 encoding. *)

Definition byte (n : nat) : ascii := ascii_of_nat n.

Definition LF : ascii := byte 10.
Definition CR : ascii := byte 13.

Fixpoint universal_newlines (s : list ascii) : list ascii :=
  match s with
  | [] => []
  | a :: r =>
      if Ascii.eqb a CR then
        LF :: match r with
              | b :: r' => if Ascii.eqb b LF then universal_newlines r'
                           else universal_newlines r
              | [] => []
              end
      else a :: universal_newlines r
  end.

(** The white space of [str.isspace()]: U+0009 to U+000D, U+001C to U+0020,
    U+0085, U+00A0, U+1680, U+2000 to U+200A, U+2028, U+2029, U+202F,
    U+205F and U+3000. *)
Definition whitespace : list (list ascii) :=
  ((λ n, [byte n]) <$> [9; 10; 11; 12; 13; 28; 29; 30; 31; 32]%nat)
  ++ [[byte 194; byte 133]; [byte 194; byte 160]; [byte 225; byte 154; byte 128]]
  ++ ((λ n, [byte 226; byte 128; byte n])
        <$> [128; 129; 130; 131; 132; 133; 134; 135; 136; 137; 138; 168; 169; 175]%nat)
  ++ [[byte 226; byte 129; byte 159]; [byte 227; byte 128; byte 128]].

(** One white-space character less at the front, at the back. *)
Definition lstrip_1 (s : list ascii) : option (list ascii) :=
  p ← find (λ p, bool_decide (p `prefix_of` s)) whitespace;
  Some (drop (length p) s).

Definition rstrip_1 (s : list ascii) : option (list ascii) :=
  p ← find (λ p, bool_decide (p `suffix_of` s)) whitespace;
  Some (take (length s - length p) s).

Fixpoint strip_with (step : list ascii → option (list ascii)) (turns : nat)
    (s : list ascii) : list ascii :=
  match turns with
  | O => s
  | S turns' =>
      match step s with
      | Some s' => strip_with step turns' s'
      | None => s
      end
  end.

(** [s.strip()]; every turn removes a character, so [length s] turns are
    enough on each side. *)
Definition strip (s : list ascii) : list ascii :=
  let s := strip_with lstrip_1 (length s) s in
  strip_with rstrip_1 (length s) s.

(** [s.split(c)]. *)
Fixpoint split_on (c : ascii) (s : list ascii) : list (list ascii) :=
  match s with
  | [] => [[]]
  | a :: r =>
      if Ascii.eqb a c then [] :: split_on c r
      else match split_on c r with
           | x :: xs => (a :: x) :: xs
           | [] => [[a]]
           end
  end.

(** What the writes [f.write(work_id + '\n')] have put into the file. *)
Definition file_text (lines : list string) : list ascii :=
  concat ((λ l, list_ascii_of_string l ++ [LF]) <$> lines).

(** [f.read().strip().split('\n')]. *)
Definition read_seen_lines (lines : list string) : list string :=
  string_of_list_ascii <$> split_on LF (strip (universal_newlines (file_text lines))).
Definition load_seen_work_ids (w : World) : World :=
  match seen_work_ids_txt (files w) with
  | Some lines =>
      set_seen_work_ids (seen_work_ids w ∪ list_to_set (Some <$> read_seen_lines lines)) w
  | None => w
  end.

(** [open(full_csv_path, file_mode)] and the header row. *)
Definition open_csv (file_mode : FileMode) (f : Files) : Files :=
  match file_mode, csv_file f with
  | ModeA, Some rows => f
  | _, _ => set_csv (Some [Header]) f
  end.

Definition scrape_works (E : Env) (fuel : nat) (start_page : Z)
    (end_page last_visited_page max_work_count : option Z) (smp : Sampling)
    (file_mode : FileMode) : M unit :=
  _ ← modify (set_strata_counts (zero_counts (kudos_bins smp)));
  _ ← modify load_seen_work_ids;
  _ ← modify (λ w, set_files (open_csv file_mode (files w)) w);
  let start_page := if truthy last_visited_page then default 0 last_visited_page
                    else start_page in
  page_loop E fuel end_page max_work_count smp start_page 0.

(** ** main *)

(** The settings after [main] has read and converted them; an absent or
    empty option is [None]. *)
Record Config := mkConfig {
  cfg_start_page : option Z;
  cfg_end_page : option Z;
  cfg_max_work_count : option Z;
  cfg_file_mode : FileMode;
  cfg_sampling : Sampling
}.

Definition main (E : Env) (fuel : nat) (cfg : Config) : M unit :=
  w ← get_world;
  let last_visited_page := last_visited_page_txt (files w) in
  let start_page := default 1 (cfg_start_page cfg) in
  let end_page := cfg_end_page cfg in
  let max_work_count := cfg_max_work_count cfg in
  let start_page := if truthy max_work_count then 1 else start_page in
  let end_page := if truthy max_work_count then None else end_page in
  _ ← modify (λ w, set_strata_counts
                (default (zero_counts (kudos_bins (cfg_sampling cfg)))
                         (strata_counts_json (files w))) w);
  _ ← scrape_works E fuel start_page end_page last_visited_page max_work_count
        (cfg_sampling cfg) (cfg_file_mode cfg);
  modify (λ w, set_files (remove_state_files (files w)) w).

(** The state of a starting process over the files it finds. *)
Definition boot (f : Files) : World := mkWorld f ∅ ∅ 0 0 [].

Definition no_files : Files := mkFiles None None None None.

(** ** update_url_page_number *)

(** A URL as [urlparse] splits it.  The query is held as the list of its
    decoded [name=value] fields, in the order of the string; the
    percent-encoding done by [urlencode] and undone by [parse_qs] is left
    out. *)
Record ParsedUrl := mkParsedUrl {
  scheme : string;
  netloc : string;
  path : string;
  params : string;
  query : list (string * string);
  fragment : string
}.

(** [parse_qs(query, keep_blank_values=True)]: every field is kept, blank
    values included; [parsed_result[name].append(value)] when the name is
    already there, [parsed_result[name] = [value]] otherwise. *)
Definition parse_qs_add (parsed_result : list (string * list string))
    (field : string * string) : list (string * list string) :=
  if decide (field.1 ∈ parsed_result.*1)
  then dict_update (λ l, l ++ [field.2]) field.1 parsed_result
  else dict_set field.1 [field.2] parsed_result.

Definition parse_qs (fields : list (string * string)) : list (string * list string) :=
  foldl parse_qs_add [] fields.

(** [urlencode(query_params, doseq=True)]: one field per value. *)
Definition urlencode (query_params : list (string * list string)) : list (string * string) :=
  concat ((λ kv : string * list string, (λ v, (kv.1, v)) <$> kv.2) <$> query_params).

Definition update_url_page_number (url : ParsedUrl) (page_number : Z) : ParsedUrl :=
  let query_params := parse_qs (query url) in
  let query_params := dict_set "page"%string [pretty page_number] query_params in
  mkParsedUrl (scheme url) (netloc url) (path url) (params url)
              (urlencode query_params) (fragment url).

(** ** scrape_tags.py

    The companion script that fetches the page of each tag.  Strings are
    [string], the UTF-8 bytes of the Python text; the characters that
    [canonicalize_tag] looks for are ASCII, and replacing an ASCII byte in
    UTF-8 text is replacing the character. *)

(** [s.replace(old, new)] for a one-character [old]. *)
Fixpoint replace_char (old : ascii) (new : string) (s : string) : string :=
  match s with
  | EmptyString => EmptyString
  | String c s' =>
      if Ascii.eqb c old then (new +:+ replace_char old new s')%string
      else String c (replace_char old new s')
  end.

Definition canonicalize_tag (tag : string) : string :=
  let tag := replace_char "#" "" tag in
  let tag := replace_char "/" "*s*" tag in
  let tag := replace_char "&" "*a*" tag in
  let tag := replace_char "." "*d*" tag in
  let tag := replace_char "?" "*q*" tag in
  tag.

(** [urllib.parse.quote(s, safe='')]: every byte of the UTF-8 text that is
    not a letter, a digit or one of [_.-~] becomes [%XX], with upper-case
    hexadecimal digits. *)
Definition always_safe (c : ascii) : bool :=
  let n := nat_of_ascii c in
  ((65 <=? n) && (n <=? 90) || (97 <=? n) && (n <=? 122) || (48 <=? n) && (n <=? 57))%nat
  || Ascii.eqb c "_" || Ascii.eqb c "." || Ascii.eqb c "-" || Ascii.eqb c "~".

Definition hex_digit (n : nat) : ascii :=
  default "0"%char (String.get n "0123456789ABCDEF").

Fixpoint quote (s : string) : string :=
  match s with
  | EmptyString => EmptyString
  | String c s' =>
      if always_safe c then String c (quote s')
      else String "%" (String (hex_digit (nat_of_ascii c / 16))
                         (String (hex_digit (nat_of_ascii c mod 16)) (quote s')))
  end.

Definition get_tag_url (tag : string) : string :=
  ("https://archiveofourown.org/tags/" +:+ quote (canonicalize_tag tag))%string.

(** What the three extraction loops of [scrape_tag_page] find in the
    parsed page: the texts of the tags listed under the headings for
    parent tags, tags with the same meaning and sub tags. *)
Record TagPage := mkTagPage {
  parent_tags : list string;
  synonym_tags : list string;
  sub_tags : list string
}.

(** The result of [session.get]: one of the two exceptions that count as a
    retry, any other exception, or a response, of which the status code
    and what the parser finds in it are kept.  Parsing is taken to
    succeed. *)
Inductive Reply :=
| Timeout
| ConnectionError
| OtherException
| Replied (status_code : Z) (content : TagPage).

(** The dictionary returned for a tag, in the order of the CSV columns. *)
Record TagRow := mkTagRow {
  tag_name : string;
  tag_url : string;
  parent_column : string;
  synonym_column : string;
  sub_column : string
}.

Definition tag_row (tag : string) (page : TagPage) : TagRow :=
  mkTagRow tag (get_tag_url tag)
           (String.concat "; " (parent_tags page))
           (String.concat "; " (synonym_tags page))
           (String.concat "; " (sub_tags page)).

(** A computation of the tag scraper over the replies of the site, the
    k-th request being answered by [server k]: it is done with a value
    after some requests, or still running when the fuel is used up. *)
Inductive Progress (A : Type) :=
| Done (a : A) (k : nat)
| Running (k : nat).

Arguments Done {A} a k.
Arguments Running {A} k.

(** [while retry_count < max_retries] with [max_retries = 3] as in
    [scrape_works], one unit of fuel per turn; the value is the row, or
    [None] where the source returns [None]. *)
Fixpoint tag_page_loop (server : nat → string → Reply) (tag : string) (fuel : nat)
    (retry_count : nat) (k : nat) : Progress (option TagRow) :=
  match fuel with
  | O => Running k
  | S fuel' =>
      if (max_retries <=? retry_count)%nat then Done None k
      else
        match server k (get_tag_url tag) with
        | Replied status_code content =>
            if status_code =? 429 then tag_page_loop server tag fuel' retry_count (S k)
            else if status_code =? 522
            then tag_page_loop server tag fuel' (S retry_count) (S k)
            else if negb (status_code =? 200) then Done None (S k)
            else Done (Some (tag_row tag content)) (S k)
        | Timeout | ConnectionError =>
            tag_page_loop server tag fuel' (S retry_count) (S k)
        | OtherException => Done None (S k)
        end
  end.

Definition scrape_tag_page (server : nat → string → Reply) (tag : string) (fuel : nat)
    (k : nat) : Progress (option TagRow) :=
  tag_page_loop server tag fuel 0 k.

(** The output of the tag scraper: the rows of the CSV file after its
    header ([None]: no file) and the lines of [scrape_tags_failed.txt]. *)
Record TagFiles := mkTagFiles {
  scraped_tags_csv : option (list TagRow);
  scrape_tags_failed_txt : list string
}.

(** [for tag in tags_to_process]. *)
Fixpoint process_tags (server : nat → string → Reply) (fuel : nat)
    (tags_to_process : list string) (rows : list TagRow) (failed : list string) (k : nat)
    : Progress (list TagRow * list string) :=
  match tags_to_process with
  | [] => Done (rows, failed) k
  | tag :: rest =>
      match scrape_tag_page server tag fuel k with
      | Done (Some data) k' => process_tags server fuel rest (rows ++ [data]) failed k'
      | Done None k' => process_tags server fuel rest rows (failed ++ [tag]) k'
      | Running k' => Running k'
      end
  end.

(** [main] of [scrape_tags.py] from the list [tags_to_scrape] read from
    the input file (its lines, stripped, the empty ones left out); [fuel]
    bounds the turns of the retry loop for one tag. *)
Definition scrape_tags_main (server : nat → string → Reply) (fuel : nat)
    (tags_to_scrape : list string) (f : TagFiles) : Progress TagFiles :=
  let file_exists := bool_decide (is_Some (scraped_tags_csv f)) in
  let old_rows := default [] (scraped_tags_csv f) in
  let seen_tags : gset string :=
    if file_exists then list_to_set (tag_name <$> old_rows) else ∅ in
  let tags_to_process := filter (λ t, t ∉ seen_tags) tags_to_scrape in
  match process_tags server fuel tags_to_process old_rows (scrape_tags_failed_txt f) 0 with
  | Done (rows, failed) k => Done (mkTagFiles (Some rows) failed) k
  | Running k => Running k
  end.

(** * Vocabulary of the statements *)

(** What [works_by_kudos] and [current_page_strata_counts] hold after the
    categorisation loop: the works whose first matching bin is [b], and the
    number of works whose first matching bin starts at [s]. *)
Definition members (bins : list Z) (b : Z * Z) (works : list Work) : list Work :=
  filter (λ w, find_bin bins (w_kudos w) = Some b) works.

Definition count_from (bins : list Z) (s : Z) (works : list Work) : Z :=
  Z.of_nat (length (filter (λ w, fst <$> find_bin bins (w_kudos w) = Some s) works)).

(** The items of a page that fall into the bin [b]. *)
Definition bin_items (b : Z * Z) (works : list Work) : list Work :=
  filter (λ w, in_bin (w_kudos w) b) works.

(** The raw draws [raw 0 .. raw (k - 1)] are draws of [randbelow (n - i)]. *)
Definition in_range (raw : nat → nat) (n k : nat) : Prop :=
  ∀ i, (i < k)%nat → (raw i < n - i)%nat.

(** The items of a list with their positions. *)
Definition indexed {A} (l : list A) : list (nat * A) := zip (seq 0 (length l)) l.

(** The values of a list in the order of their first occurrence, those
    in [seen] left out. *)
Fixpoint first_occurrences_from (seen : gset nat) (ds : list nat) : list nat :=
  match ds with
  | [] => []
  | d :: ds' =>
      if decide (d ∈ seen) then first_occurrences_from seen ds'
      else d :: first_occurrences_from ({[d]} ∪ seen) ds'
  end.

Definition first_occurrences (ds : list nat) : list nat := first_occurrences_from ∅ ds.

(** What [t] calls of [randbelow n] return once [offset] raw draws have
    been used. *)
Definition draws_below (E : Env) (n offset t : nat) : list nat :=
  (λ i, entropy E (offset + i) `mod` n)%nat <$> seq 0 t.

(** [chunk] is the sample of [k] items that [random.sample] takes from
    [population] with the [t] raw draws that follow the first [offset]
    ones.  A population within [setsize] goes through the pool, one draw
    for each item.  From a larger one the items at the first [k] distinct
    indices drawn are taken, in the order in which these were drawn, and
    the drawing ends with the [k]-th of them. *)
Definition sample_of {A} (E : Env) (offset : nat) (population : list A) (k t : nat)
    (chunk : list A) : Prop :=
  if decide (Z.of_nat (length population) ≤ setsize (Z.of_nat k))
  then t = k ∧ chunk = pool_select (λ i, entropy E (offset + i)%nat) population k
  else let ds := draws_below E (length population) offset t in
       chunk = omap (λ j, population !! j) (first_occurrences ds)
       ∧ length (first_occurrences ds) = k
       ∧ (k ≤ t)%nat
       ∧ ∀ t', (t' < t)%nat →
               (length (first_occurrences (draws_below E (length population) offset t')) < k)%nat.

(** The pool selection is uniform: what it takes depends on the raw draws
    through the results of [randbelow (n - i)] only, and the vectors of
    such results correspond one to one to the arrangements of [k] of the
    items, told apart by their positions. *)
Definition pool_uniform {A} (population : list A) (k : nat) : Prop :=
  let n := length population in
  (∀ raw, in_range (λ i, raw i `mod` (n - i))%nat n k
          ∧ pool_select raw population k
            = (pool_select (λ i, raw i `mod` (n - i))%nat (indexed population) k).*2)
  ∧ (∀ s, NoDup s → s ⊆ indexed population → length s = k →
          ∃ raw, in_range raw n k ∧ pool_select raw (indexed population) k = s)
  ∧ (∀ raw raw', in_range raw n k → in_range raw' n k →
                 pool_select raw (indexed population) k
                 = pool_select raw' (indexed population) k →
                 ∀ i, (i < k)%nat → raw i = raw' i).

(** The selection by first occurrences is uniform: it prefers no index,
    since renaming the indices drawn renames the indices taken, and every
    arrangement of indices is taken when it is what is drawn. *)
Definition first_occurrences_uniform : Prop :=
  (∀ (σ : nat → nat) ds, Inj (=) (=) σ →
     first_occurrences (σ <$> ds) = σ <$> first_occurrences ds)
  ∧ (∀ ps, NoDup ps → first_occurrences ps = ps).

(** The generator has returned an index that is already selected
    [patience E + 1] times in a row while fewer than [k] of [n] indices
    were selected. *)
Definition redraws_exhausted (E : Env) (n k : nat) : Prop :=
  ∃ (offset : nat) (selected : gset nat),
    (size selected < k)%nat
    ∧ ∀ i, (i ≤ patience E)%nat → (entropy E (offset + i) `mod` n)%nat ∈ selected.


(** What the drawing loop adds to the sample for one entry of
    [works_by_kudos]. *)
Definition chunk_ok (E : Env) (min_count : Z) (item : (Z * Z) * list Work)
    (chunk : list Work) : Prop :=
  if decide (item.2 = [] ∨ min_count = 0) then chunk = []
  else length chunk = Z.to_nat min_count
       ∧ (∃ rest, chunk ++ rest ≡ₚ item.2)
       ∧ ∃ offset t : nat, sample_of E offset item.2 (Z.to_nat min_count) t chunk.

(** A computation that does not look at the world nor change it: it yields
    a value or raises an exception for which [P] holds. *)
Definition computes {A} (P : Exn → Prop) (m : M A) : Prop :=
  ∃ r : Exn + A,
    (∀ w, m w = match r with
                | inl e => Stop (Crashed e) w
                | inr a => Ret a w
                end)
    ∧ match r with
      | inl e => P e
      | inr _ => True
      end.

Definition arithmetic_error (e : Exn) : Prop := e = OverflowError ∨ e = ValueError.

(** [pct / 100] is a float: the division does not overflow. *)
Definition percentage_fits (pct : Z) : Prop :=
  match SFdiv prec emax (exact_int pct) (exact_int 100) with
  | S754_zero _ | S754_finite _ _ _ => True
  | _ => False
  end.

(** [m] is the least positive per-bin population of the page, or [0] when
    no item of the page falls into a bin. *)
Definition min_positive_count (bins : list Z) (works : list Work) (m : nat) : Prop :=
  ((∀ b, b ∈ bin_pairs bins → bin_items b works = []) ∧ m = 0%nat)
  ∨ ((0 < m)%nat
     ∧ (∃ b, b ∈ bin_pairs bins ∧ length (bin_items b works) = m)
     ∧ ∀ b, b ∈ bin_pairs bins → bin_items b works ≠ [] →
            (m ≤ length (bin_items b works))%nat).

(** Every run of [m] ends, whatever its outcome, in a world related to the
    one it started from. *)
Definition run_rel (R : relation World) {A} (m : M A) : Prop :=
  ∀ w, R w (final_world (m w)).

(** The world in which the page loop starts. *)
Definition startup (cfg : Config) (w : World) : World :=
  let bins := kudos_bins (cfg_sampling cfg) in
  let w1 := set_strata_counts (default (zero_counts bins) (strata_counts_json (files w))) w in
  let w2 := load_seen_work_ids (set_strata_counts (zero_counts bins) w1) in
  set_files (open_csv (cfg_file_mode cfg) (files w2)) w2.

Definition first_page (cfg : Config) (w : World) : Z :=
  if truthy (last_visited_page_txt (files w))
  then default 0 (last_visited_page_txt (files w))
  else if truthy (cfg_max_work_count cfg) then 1 else default 1 (cfg_start_page cfg).

Definition last_page (cfg : Config) : option Z :=
  if truthy (cfg_max_work_count cfg) then None else cfg_end_page cfg.

Definition cleanup (w : World) : World := set_files (remove_state_files (files w)) w.

(** [last_visited_page.txt] is not touched. *)
Definition same_page_file : relation World :=
  λ w w', last_visited_page_txt (files w') = last_visited_page_txt (files w).

(** No state file is removed. *)
Definition keeps_state_files : relation World := λ w w',
  (is_Some (last_visited_page_txt (files w)) → is_Some (last_visited_page_txt (files w')))
  ∧ (is_Some (seen_work_ids_txt (files w)) → is_Some (seen_work_ids_txt (files w')))
  ∧ (is_Some (strata_counts_json (files w)) → is_Some (strata_counts_json (files w'))).

(** The identifier column of the records in the Sink, oldest first. *)
Definition sink_ids (f : Files) : list (option string) :=
  omap row_id (default [] (csv_file f)).


Definition seen_lines (f : Files) : list string := default [] (seen_work_ids_txt f).

(** In the event log, newest first: every [seen_work_ids.add] comes
    directly after the write of the record with the same identifier, and
    every line appended to [seen_work_ids.txt] directly after the
    [seen_work_ids.add] of the same identifier. *)
Fixpoint write_precedes_add (t : list Event) : bool :=
  match t with
  | [] => true
  | EvSeenAdd i :: t' =>
      match t' with
      | EvRow i' _ :: _ => bool_decide (i = i') && write_precedes_add t'
      | _ => false
      end
  | EvSeenAppend s :: t' =>
      match t' with
      | EvSeenAdd i' :: _ => bool_decide (Some s = i') && write_precedes_add t'
      | _ => false
      end
  | _ :: t' => write_precedes_add t'
  end.

(** Between [w] and [w'] the records of [new] were written, and nothing
    else happened to the Sink, the seen-set and its file. *)
Definition emitted (new : list (option string)) (w w' : World) : Prop :=
  sink_ids (files w') = sink_ids (files w) ++ new
  ∧ (∀ i, i ∈ seen_work_ids w' ↔ i ∈ seen_work_ids w ∨ i ∈ new)
  ∧ seen_lines (files w') = seen_lines (files w) ++ omap id new
  ∧ NoDup new
  ∧ (∀ i, i ∈ new → i ∉ seen_work_ids w)
  ∧ (write_precedes_add (trace w) = true → write_precedes_add (trace w') = true).

Definition emits : relation World := λ w w', ∃ new, emitted new w w'.

(** The seen-set a starting process loads from [seen_work_ids.txt]. *)
Definition loaded_ids (f : Files) : gset (option string) :=
  seen_work_ids (load_seen_work_ids (boot f)).

(** A printable ASCII character other than the blank, and an identifier
    made of such characters, at least one, as the digits of
    [work_<digits>] are. *)
Definition graphic (a : ascii) : bool :=
  (33 <=? nat_of_ascii a)%nat && (nat_of_ascii a <=? 126)%nat.

Definition token (s : string) : bool :=
  negb (String.eqb s "") && forallb graphic (list_ascii_of_string s).




(** The two signs of rate limiting the specification names: the status
    code reserved for it, or the marker phrase in the body of a 200
    response. *)
Definition signals_rate_limit (r : Response) : bool :=
  match r with
  | NetError => false
  | Http status body => (status =? 429) || ((status =? 200) && retry_later body)
  end.

(** An attempt that the retry loop of [scrape_works] counts as failed. *)
Definition failed_attempt (r : Response) : bool :=
  match r with
  | NetError => true
  | Http status _ => raise_for_status status
  end.

(** What was logged before is still logged, in the same order, below what
    was logged since. *)
Definition log_grows : relation World := λ w w', ∃ evs, trace w' = evs ++ trace w.

(** [m] needs no fuel: it returns or stops. *)
Definition settles {A} (m : M A) : Prop := ∀ w w', m w ≠ Diverge w'.

(** A listing page without items, served without error or marker. *)
Definition empty_listing (r : Response) : Prop :=
  match r with
  | NetError => False
  | Http status body =>
      raise_for_status status = false ∧ retry_later body = false ∧ li_works body = []
  end.

Definition demo_bins : list Z := [0; 100; 500; 1000].

Definition listed (id : string) (kudos : Z) : Work :=
  mkWork (Some id) (Some (id, ("/works/" +:+ id)%string)) kudos.

Definition untitled (id : string) (kudos : Z) : Work := mkWork (Some id) None kudos.

Definition work_page : Response := Http 200 (mkBody false [] "2020-01-02").

Definition listing (works : list Work) : Response := Http 200 (mkBody false works "").

(** A 200 response whose text contains "Retry later". *)
Definition retry_later_page : Response := Http 200 (mkBody true [] "").

(** The answer of a rate-limiting server: status 429, with the phrase. *)
Definition too_many_requests : Response := Http 429 (mkBody true [] "").

(** A site whose listing pages are [pages] and whose work pages all load;
    the raw draws are 0, 1, 2, ... *)
Definition serve (pages : Z → Response) : Env :=
  mkEnv (λ _ u, match u with
                | PageUrl p => pages p
                | WorkUrl _ => work_page
                end)
        (λ i, i) 100.

Definition settings (max_work_count : option Z) (strategy : Strategy) : Config :=
  mkConfig None None max_work_count ModeW (mkSampling strategy 50 3 demo_bins).

Definition persisted_count (w : World) (bin_start : Z) : option Z :=
  strata_counts_json (files w) ≫= (λ c, c !! bin_start).

Definition fetches (w : World) : list Url :=
  omap (λ e, match e with EvFetch u => Some u | _ => None end) (rev (trace w)).

(** Two works on page 1, nothing afterwards. *)
Definition two_works : Env :=
  serve (λ p, if p =? 1 then listing [listed "1" 5; listed "2" 7] else listing []).

(** One work on page 1, the rate-limit marker on page 2. *)
Definition limited_on_page_2 : Env :=
  serve (λ p, if p =? 1 then listing [listed "1" 5] else retry_later_page).

(** Every listing request is answered with status 429. *)
Definition always_429 : Env := serve (λ _, too_many_requests).

(** Every listing page is empty. *)
Definition no_works : Env := serve (λ _, listing []).

(** An entry without title before a complete one. *)
Definition untitled_first : Env :=
  serve (λ p, if p =? 1 then listing [untitled "1" 5; listed "2" 7] else listing []).

Definition page_5_2_0 : list Work :=
  [listed "a" 5; listed "b" 120; listed "c" 7; listed "d" 99; listed "e" 400;
   listed "f" 0; listed "g" 50].

(** A source whose raw draws are all [k]; it serves nothing. *)
Definition drawing (k : nat) : Env := mkEnv (λ _ _, NetError) (λ _, k) 100.

(** Page 1 and 2 have works, work "1" is listed on both; page 3 carries the marker. *)
Definition second_visit : Env :=
  serve (λ p, if p =? 1 then listing [listed "1" 5]
              else if p =? 2 then listing [listed "1" 5; listed "3" 9]
              else retry_later_page).

Definition first_halt : Files :=
  files (final_world (main limited_on_page_2 5 (settings None NoSampling) (boot no_files))).

Definition appending : Config :=
  mkConfig None None None ModeA (mkSampling NoSampling 50 3 demo_bins).

(** A page of 22 works, told apart by their scores. *)
Definition long_page : list Work := (λ i, listed "w" (Z.of_nat i)) <$> seq 0 22.

(** A source whose raw draws are 0, 0, 1, 1, 2, 2, ...; it serves
    nothing. *)
Definition stuttering : Env := mkEnv (λ _ _, NetError) (λ i, i `div` 2)%nat 100.



(** The rows of the CSV output, the header included. *)
Definition records (f : Files) : list CsvRow := default [] (csv_file f).

(** The values a query gives to [name], in their order. *)
Definition values_of (name : string) (fields : list (string * string)) : list string :=
  (filter (λ f : string * string, f.1 = name) fields).*2.

(** The values stored under [name] in a parsed query. *)
Definition collected (name : string) (d : list (string * list string)) : list string :=
  concat (filter (λ kv : string * list string, kv.1 = name) d).*2.

(** A listing URL with a query of three fields. *)
Definition tag_listing : ParsedUrl :=
  mkParsedUrl "https" "archiveofourown.org" "/tags/Fluff/works" ""
              [("commit", "Sort and Filter"); ("page", "7"); ("work_search[sort_column]", "kudos_count")]
              "".

(** The page numbers of the listing requests made so far, oldest first. *)
Definition listing_requests (w : World) : list Z :=
  omap (λ u, match u with PageUrl p => Some p | WorkUrl _ => None end) (fetches w).

(** Between [w] and [w'] rows were appended to the CSV output, none of
    them a header, and the file was not removed. *)
Definition appends_records : relation World := λ w w',
  ∃ rows, Forall (λ r, r ≠ Header) rows
          ∧ records (files w') = records (files w) ++ rows
          ∧ (is_Some (csv_file (files w)) → is_Some (csv_file (files w'))).

(** [R] relates every run of [m] that does not end with an uncaught
    exception to its start. *)
Definition holds_unless_crashed (R : relation World) {A} (m : M A) : Prop :=
  ∀ w, match m w with
       | Stop (Crashed _) _ => True
       | o => R w (final_world o)
       end.

(** The number of rows among [rows] whose score falls into the bin that
    starts at [s]. *)
Definition written_in (bins : list Z) (s : Z) (rows : list CsvRow) : Z :=
  Z.of_nat (length (filter (λ r, row_kudos r ≫= (λ k, fst <$> find_bin bins k) = Some s) rows)).

(** Between [w] and [w'] the rows [rows] were appended and each one was
    counted once in the counter of the first bin that holds its score;
    [strata_counts.json] holds the counters once a row was written. *)
Definition counted (bins : list Z) : relation World := λ w w',
  ∃ rows,
    records (files w') = records (files w) ++ rows
    ∧ (∀ s, strata_counts w' !! s
            = (λ c, c + written_in bins s rows) <$> strata_counts w !! s)
    ∧ strata_counts_json (files w')
      = if decide (rows = []) then strata_counts_json (files w)
        else Some (strata_counts w').

(** The listing requests of a loop that starts at [page] and asks for the
    i-th page after it [reps !! i] times. *)
Definition visits (page : Z) (reps : list nat) : list Z :=
  concat (imap (λ i r, replicate r (page + Z.of_nat i)) reps).

(** The page a logged event asks the listing for, if it is a listing
    request. *)
Definition page_of_event (e : Event) : option Z :=
  match e with
  | EvFetch (PageUrl p) => Some p
  | _ => None
  end.

(** Between [w] and [w'] no listing was requested. *)
Definition no_listing_request : relation World := λ w w',
  ∃ evs, trace w' = evs ++ trace w ∧ omap page_of_event evs = [].


(** The characters [canonicalize_tag] replaces. *)
Definition special (c : ascii) : bool :=
  Ascii.eqb c "#" || Ascii.eqb c "/" || Ascii.eqb c "&" || Ascii.eqb c "."
  || Ascii.eqb c "?".

(** What becomes of one character of a tag. *)
Definition tag_code (c : ascii) : string :=
  if Ascii.eqb c "#" then ""
  else if Ascii.eqb c "/" then "*s*"
  else if Ascii.eqb c "&" then "*a*"
  else if Ascii.eqb c "." then "*d*"
  else if Ascii.eqb c "?" then "*q*"
  else String c "".

Fixpoint substitute (code : ascii → string) (s : string) : string :=
  match s with
  | EmptyString => EmptyString
  | String c s' => (code c +:+ substitute code s')%string
  end.

Fixpoint string_forall (P : ascii → bool) (s : string) : bool :=
  match s with
  | EmptyString => true
  | String c s' => P c && string_forall P s'
  end.

(** The value of a hexadecimal digit, and the decoding of [%XX]. *)
Definition hex_value (c : ascii) : nat :=
  let n := nat_of_ascii c in
  if (n <? 58)%nat then (n - 48)%nat else (n - 55)%nat.

Fixpoint unquote (s : string) : string :=
  match s with
  | EmptyString => EmptyString
  | String c s' =>
      if Ascii.eqb c "%" then
        match s' with
        | String h (String l s'') =>
            String (ascii_of_nat (16 * hex_value h + hex_value l)) (unquote s'')
        | _ => String c (unquote s')
        end
      else String c (unquote s')
  end.

(** A reply that makes the retry loop ask again. *)
Definition asks_again (r : Reply) : bool :=
  match r with
  | Timeout | ConnectionError => true
  | OtherException => false
  | Replied status_code _ => (status_code =? 429) || (status_code =? 522)
  end.

(** A reply that counts towards [max_retries]. *)
Definition counts_as_retry (r : Reply) : bool :=
  match r with
  | Timeout | ConnectionError => true
  | OtherException => false
  | Replied status_code _ => status_code =? 522
  end.

(** The replies to the requests [k], ..., [k + n - 1] for the page of
    [tag]. *)
Definition replies (server : nat → string → Reply) (tag : string) (k n : nat) : list Reply :=
  (λ j, server j (get_tag_url tag)) <$> seq k n.

(** How many of the replies count towards [max_retries]. *)
Definition counted_retries (rs : list Reply) : nat :=
  length (filter (λ r, counts_as_retry r = true) rs).

(** What a reply that ends the retry loop gives. *)
Definition result_of (tag : string) (r : Reply) : option TagRow :=
  match r with
  | Replied status_code content =>
      if status_code =? 200 then Some (tag_row tag content) else None
  | _ => None
  end.

(** A site whose every answer has status 429. *)
Definition busy_server : nat → string → Reply :=
  λ _ _, Replied 429 (mkTagPage [] [] []).

(** A site that times out once and then serves an empty tag page. *)
Definition slow_server : nat → string → Reply :=
  λ k _, if (k =? 0)%nat then Timeout else Replied 200 (mkTagPage [] [] []).

(** * Lemmas and theorems *)

Section Slices.
Context {A : Type}.
Implicit Types l : list A.

Lemma slice_step_lookup (n : nat) l : ∀ skip k : nat,
  (1 ≤ n)%nat → slice_step n skip l !! k = l !! (skip + k * n)%nat.
Proof.
  induction l as [|x l IH]; intros skip k Hn; [done|].
  destruct skip as [|s]; simpl.
  - destruct k as [|k]; [done|]. simpl.
    rewrite IH by done.
    replace (n + k * n)%nat with (S (n - 1 + k * n)) by lia. done.
  - by rewrite IH.
Qed.

Lemma slice_step_length (n : nat) l : ∀ skip : nat,
  (1 ≤ n)%nat →
  length (slice_step n skip l) = ((length l - skip + (n - 1)) `div` n)%nat.
Proof.
  induction l as [|x l IH]; intros skip Hn; simpl.
  - symmetry. apply Nat.div_small. lia.
  - destruct skip as [|s]; simpl.
    + rewrite IH by done.
      destruct (decide (n - 1 ≤ length l)%nat) as [Hle|Hgt].
      * replace (S (length l + (n - 1)))%nat
          with (length l - (n - 1) + (n - 1) + 1 * n)%nat by lia.
        rewrite Nat.div_add by lia. lia.
      * replace (length l - (n - 1))%nat with 0%nat by lia.
        rewrite (Nat.div_small (0 + (n - 1))) by lia.
        replace (S (length l + (n - 1)))%nat with (length l + 1 * n)%nat by lia.
        rewrite Nat.div_add by lia.
        rewrite Nat.div_small by lia. done.
    + by rewrite IH.
Qed.
End Slices.

Section Pool.
Context {A : Type}.
Implicit Types pool : list A.

Lemma pool_swap_out pool (j : nat) x y :
  pool !! j = Some x → last pool = Some y →
  x :: removelast (<[j:=y]> pool) ≡ₚ pool.
Proof.
  intros Hj Hlast. apply last_Some in Hlast as [init ->].
  pose proof (lookup_lt_Some _ _ _ Hj) as Hlt. rewrite length_app in Hlt. simpl in Hlt.
  destruct (decide (j = length init)) as [->|Hne].
  - rewrite list_lookup_middle in Hj by done. simplify_eq.
    rewrite list_insert_id by (by rewrite list_lookup_middle).
    rewrite removelast_last. apply Permutation_cons_append.
  - rewrite insert_app_l by lia. rewrite removelast_last.
    rewrite lookup_app_l in Hj by lia.
    rewrite insert_take_drop by lia.
    rewrite <-(take_drop_middle init j x) at 3 by done.
    rewrite <-app_assoc. simpl.
    rewrite <-!Permutation_middle. f_equiv.
    by rewrite app_nil_r.
Qed.

Lemma pool_select_perm (k : nat) : ∀ (raw : nat → nat) pool,
  (k ≤ length pool)%nat →
  length (pool_select raw pool k) = k
  ∧ ∃ rest, pool_select raw pool k ++ rest ≡ₚ pool.
Proof.
  induction k as [|k IH]; intros raw pool Hk; simpl.
  - split; [done|]. by exists pool.
  - assert (raw 0%nat `mod` length pool < length pool)%nat as Hj
      by (apply Nat.mod_upper_bound; lia).
    destruct (lookup_lt_is_Some_2 _ _ Hj) as [x Hx]. rewrite Hx.
    destruct (last pool) as [y|] eqn:Hy.
    2:{ apply last_None in Hy. subst. simpl in Hk. lia. }
    pose proof (pool_swap_out _ _ _ _ Hx Hy) as Hperm.
    destruct (IH (λ i, raw (S i))
                (removelast (<[(raw 0%nat `mod` length pool)%nat:=y]> pool)))
      as [Hlen [rest Hrest]].
    { apply Permutation_length in Hperm. simpl in Hperm. lia. }
    split; [simpl; by rewrite Hlen|].
    exists rest. simpl. by rewrite Hrest.
Qed.
End Pool.

Section PoolUniform.
Context {A : Type}.
Implicit Types pool s : list A.

Lemma pool_step_NoDup pool (j : nat) x y :
  NoDup pool → pool !! j = Some x → last pool = Some y →
  NoDup (removelast (<[j:=y]> pool)) ∧ (x ∉ removelast (<[j:=y]> pool))
  ∧ length (removelast (<[j:=y]> pool)) = (length pool - 1)%nat.
Proof.
  intros Hnd Hx Hy. pose proof (pool_swap_out _ _ _ _ Hx Hy) as Hperm.
  rewrite <-Hperm in Hnd. apply NoDup_cons in Hnd as [? ?].
  apply Permutation_length in Hperm. simpl in Hperm. split_and!; [done..|lia].
Qed.

Lemma pool_select_inj (k : nat) : ∀ (raw raw' : nat → nat) pool,
  NoDup pool → (k ≤ length pool)%nat →
  in_range raw (length pool) k → in_range raw' (length pool) k →
  pool_select raw pool k = pool_select raw' pool k →
  ∀ i, (i < k)%nat → raw i = raw' i.
Proof.
  induction k as [|k IH]; intros raw raw' pool Hnd Hk Hr Hr' Heq i Hi; [lia|].
  cbn [pool_select] in Heq.
  pose proof (Hr 0%nat ltac:(lia)) as H0. pose proof (Hr' 0%nat ltac:(lia)) as H0'.
  rewrite Nat.sub_0_r in H0, H0'.
  rewrite !Nat.mod_small in Heq by done.
  destruct (lookup_lt_is_Some_2 pool (raw 0%nat) H0) as [x Hx].
  destruct (lookup_lt_is_Some_2 pool (raw' 0%nat) H0') as [x' Hx'].
  rewrite Hx, Hx' in Heq.
  destruct (last pool) as [y|] eqn:Hy.
  2:{ apply last_None in Hy. subst. simpl in Hk. lia. }
  injection Heq as <- Heq.
  assert (raw 0%nat = raw' 0%nat) as E0 by (by eapply NoDup_lookup).
  destruct i as [|i]; [done|].
  rewrite <-E0 in Heq.
  destruct (pool_step_NoDup pool _ x y Hnd Hx Hy) as (Hnd' & _ & Hlen).
  apply (IH (λ i, raw (S i)) (λ i, raw' (S i)) _ Hnd'); [lia| | |done|lia].
  - intros i' Hi'. rewrite Hlen. specialize (Hr (S i') ltac:(lia)). lia.
  - intros i' Hi'. rewrite Hlen. specialize (Hr' (S i') ltac:(lia)). lia.
Qed.

Lemma pool_select_surj (k : nat) : ∀ pool s,
  NoDup s → s ⊆ pool → length s = k →
  ∃ raw, in_range raw (length pool) k ∧ pool_select raw pool k = s.
Proof.
  induction k as [|k IH]; intros pool s Hnd Hsub Hlen.
  - destruct s; [|done]. exists (λ _, 0%nat). split; [|done]. intros i Hi. lia.
  - destruct s as [|x s]; [done|]. simpl in Hlen.
    apply NoDup_cons in Hnd as [Hx Hnd].
    assert (x ∈ pool) as Hin by (apply Hsub; left).
    apply list_elem_of_lookup in Hin as [j Hj].
    pose proof (lookup_lt_Some _ _ _ Hj) as Hjlt.
    destruct (last pool) as [y|] eqn:Hy.
    2:{ apply last_None in Hy. subst. simpl in Hjlt. lia. }
    pose proof (pool_swap_out _ _ _ _ Hj Hy) as Hperm.
    destruct (IH (removelast (<[j:=y]> pool)) s Hnd) as (raw & Hr & Hsel); [|lia|].
    { intros z Hz. assert (z ∈ pool) as Hzp by (apply Hsub; by right).
      rewrite <-Hperm in Hzp. apply elem_of_cons in Hzp as [->|?]; done. }
    exists (λ i, match i with O => j | S i' => raw i' end). split.
    + intros [|i] Hi; [lia|].
      specialize (Hr i ltac:(lia)).
      apply Permutation_length in Hperm. simpl in Hperm. lia.
    + cbn [pool_select]. rewrite Nat.mod_small by done. rewrite Hj, Hy.
      f_equal. exact Hsel.
Qed.
End PoolUniform.

Lemma removelast_fmap {A B} (f : A → B) (l : list A) :
  removelast (f <$> l) = f <$> removelast l.
Proof.
  induction l as [|x [|y l] IH]; [done..|].
  change (f x :: removelast (f <$> (y :: l)) = f x :: (f <$> removelast (y :: l))).
  by rewrite IH.
Qed.

(** The selection only moves items around: it commutes with relabelling,
    so that it can be read on the positions [0 .. n - 1] of the pool. *)
Lemma pool_select_fmap {A B} (f : A → B) (k : nat) : ∀ raw (pool : list A),
  pool_select raw (f <$> pool) k = f <$> pool_select raw pool k.
Proof.
  induction k as [|k IH]; intros raw pool; [done|].
  cbn [pool_select]. rewrite length_fmap, list_lookup_fmap, fmap_last.
  destruct (pool !! _) as [x|]; [|done]. destruct (last pool) as [y|]; [|done].
  simpl. by rewrite <-list_fmap_insert, removelast_fmap, IH.
Qed.

(** ** The selections of [random.sample] *)

Lemma mbind_unfold {A B} (f : A → M B) (m : M A) (w : World) :
  (m ≫= f) w = match m w with
               | Ret a w' => f a w'
               | Stop h w' => Stop h w'
               | Diverge w' => Diverge w'
               end.
Proof. reflexivity. Qed.

Lemma use_draws_0 w : use_draws 0 w = w.
Proof. destruct w. unfold use_draws. simpl. by rewrite Nat.add_0_r. Qed.

Lemma use_draws_add j k w : use_draws k (use_draws j w) = use_draws (j + k) w.
Proof. unfold use_draws. simpl. by rewrite Nat.add_assoc. Qed.

Lemma pool_select_congr {A} (k : nat) : ∀ (raw raw' : nat → nat) (pool : list A),
  (∀ i, (i < k)%nat →
        (raw i `mod` (length pool - i) = raw' i `mod` (length pool - i))%nat) →
  pool_select raw pool k = pool_select raw' pool k.
Proof.
  induction k as [|k IH]; intros raw raw' pool Heq; [done|].
  cbn [pool_select].
  pose proof (Heq 0%nat ltac:(lia)) as H0. rewrite Nat.sub_0_r in H0. rewrite <-H0.
  destruct (pool !! (raw 0%nat `mod` length pool)%nat) as [x|] eqn:Hx; [|done].
  destruct (last pool) as [y|] eqn:Hy; [|done].
  f_equal. apply IH. intros i Hi.
  pose proof (pool_swap_out _ _ _ _ Hx Hy) as Hperm.
  apply Permutation_length in Hperm. simpl in Hperm.
  specialize (Heq (S i) ltac:(lia)).
  by replace (length (removelast (<[(raw 0 `mod` length pool)%nat:=y]> pool)) - i)%nat
    with (length pool - S i)%nat by lia.
Qed.

Lemma pool_select_reduce {A} (k : nat) (raw : nat → nat) (pool : list A) :
  pool_select raw pool k = pool_select (λ i, raw i `mod` (length pool - i))%nat pool k.
Proof. apply pool_select_congr. intros i _. by rewrite Nat.Div0.mod_mod. Qed.

Lemma in_range_reduce (raw : nat → nat) (n k : nat) :
  (k ≤ n)%nat → in_range (λ i, raw i `mod` (n - i))%nat n k.
Proof. intros Hk i Hi. apply Nat.mod_upper_bound. lia. Qed.

Lemma indexed_snd {A} (l : list A) : (indexed l).*2 = l.
Proof. unfold indexed. apply snd_zip. by rewrite length_seq. Qed.

Lemma indexed_NoDup {A} (l : list A) : NoDup (indexed l).
Proof.
  apply (NoDup_fmap_1 fst). unfold indexed.
  rewrite fst_zip by (by rewrite length_seq). apply NoDup_seq.
Qed.

Lemma indexed_length {A} (l : list A) : length (indexed l) = length l.
Proof. by rewrite <-(length_fmap snd), indexed_snd. Qed.

Lemma pool_select_uniform {A} (population : list A) (k : nat) :
  (k ≤ length population)%nat → pool_uniform population k.
Proof.
  intros Hk. unfold pool_uniform. split_and!.
  - intros raw. split; [by apply in_range_reduce|].
    rewrite <-pool_select_fmap, indexed_snd. apply pool_select_reduce.
  - intros s Hnd Hsub Hlen. rewrite <-(indexed_length population).
    by apply pool_select_surj.
  - intros raw raw' Hr Hr'. rewrite <-(indexed_length population) in Hr, Hr'.
    apply pool_select_inj; [apply indexed_NoDup|by rewrite indexed_length|done..].
Qed.

(** *** First occurrences *)

Lemma first_occurrences_from_seen (sel : gset nat) (ds1 ds2 : list nat) :
  (∀ d, d ∈ ds1 → d ∈ sel) →
  first_occurrences_from sel (ds1 ++ ds2) = first_occurrences_from sel ds2.
Proof.
  induction ds1 as [|d ds1 IH]; intros Hall; [done|].
  cbn [app first_occurrences_from].
  rewrite decide_True by (apply Hall; left).
  apply IH. intros d' Hd'. apply Hall. by right.
Qed.

Lemma first_occurrences_from_spec (ds : list nat) : ∀ sel : gset nat,
  NoDup (first_occurrences_from sel ds)
  ∧ ∀ d, d ∈ first_occurrences_from sel ds → d ∈ ds ∧ d ∉ sel.
Proof.
  induction ds as [|d ds IH]; intros sel; simpl.
  - split; [constructor|]. by intros d ?%elem_of_nil.
  - case_decide as Hd.
    + destruct (IH sel) as [Hnd Hin]. split; [done|].
      intros d' Hd'. destruct (Hin d' Hd'). split; [by right|done].
    + destruct (IH ({[d]} ∪ sel)) as [Hnd Hin]. split.
      * constructor; [|done]. intros Hd'. destruct (Hin d Hd') as [_ Hn].
        apply Hn. by apply elem_of_union_l, elem_of_singleton.
      * intros d' [->|Hd']%elem_of_cons; [split; [left|done]|].
        destruct (Hin d' Hd') as [? Hn]. split; [by right|].
        intros Hs. apply Hn. by apply elem_of_union_r.
Qed.

Lemma first_occurrences_from_app (ds1 ds2 : list nat) : ∀ sel : gset nat,
  ∃ sel' : gset nat,
    first_occurrences_from sel (ds1 ++ ds2)
    = first_occurrences_from sel ds1 ++ first_occurrences_from sel' ds2.
Proof.
  induction ds1 as [|d ds1 IH]; intros sel; [by exists sel|].
  cbn [app first_occurrences_from]. case_decide.
  - apply IH.
  - destruct (IH ({[d]} ∪ sel)) as [sel' ->]. by exists sel'.
Qed.

Lemma first_occurrences_from_fmap (σ : nat → nat) `{!Inj (=) (=) σ} (ds : list nat) :
  ∀ sel : gset nat,
    first_occurrences_from (set_map σ sel) (σ <$> ds)
    = σ <$> first_occurrences_from sel ds.
Proof.
  induction ds as [|d ds IH]; intros sel; [done|].
  rewrite fmap_cons. cbn [first_occurrences_from].
  destruct (decide (d ∈ sel)) as [Hd|Hd].
  - rewrite decide_True by (apply elem_of_map; eauto). apply IH.
  - rewrite decide_False.
    2:{ intros (d' & Heq & Hd')%elem_of_map. apply (inj σ) in Heq. by subst. }
    rewrite fmap_cons. f_equal. rewrite <-IH. f_equal.
    by rewrite set_map_union_L, set_map_singleton_L.
Qed.

Lemma first_occurrences_uniformity : first_occurrences_uniform.
Proof.
  split.
  - intros σ ds Hinj. unfold first_occurrences.
    rewrite <-(first_occurrences_from_fmap σ). by rewrite set_map_empty.
  - intros ps Hnd. unfold first_occurrences.
    assert (∀ sel : gset nat, (∀ p, p ∈ ps → p ∉ sel) →
                              first_occurrences_from sel ps = ps) as H.
    { induction Hnd as [|p ps Hp Hnd IH]; intros sel Hsel; [done|].
      cbn [first_occurrences_from]. rewrite decide_False by (apply Hsel; left).
      f_equal. apply IH. intros q Hq. specialize (Hsel q ltac:(by right)).
      intros [Hqp%elem_of_singleton|Hqs]%elem_of_union; [by subst|done]. }
    apply H. intros p _. apply not_elem_of_empty.
Qed.

Lemma draws_below_app E n offset (t1 t2 : nat) :
  draws_below E n offset (t1 + t2)
  = draws_below E n offset t1 ++ draws_below E n (offset + t1) t2.
Proof.
  unfold draws_below. rewrite seq_app, fmap_app. f_equal.
  apply list_eq. intros i. rewrite !list_lookup_fmap.
  destruct (decide (i < t2)%nat).
  - rewrite !lookup_seq_lt by done. simpl. do 3 f_equal. lia.
  - by rewrite !lookup_seq_ge by lia.
Qed.

Lemma draws_below_elem E n offset t d :
  d ∈ draws_below E n offset t ↔ ∃ i, (i < t)%nat ∧ d = (entropy E (offset + i) `mod` n)%nat.
Proof.
  unfold draws_below. rewrite list_elem_of_fmap. split.
  - intros (i & -> & Hi). apply elem_of_seq in Hi. exists i. split; [lia|done].
  - intros (i & Hi & ->). exists i. split; [done|]. apply elem_of_seq. lia.
Qed.

Lemma draws_below_S E n offset t :
  draws_below E n offset (S t)
  = draws_below E n offset t ++ [(entropy E (offset + t) `mod` n)%nat].
Proof.
  replace (S t) with (t + 1)%nat by lia. rewrite draws_below_app.
  unfold draws_below at 2. simpl. by rewrite Nat.add_0_r.
Qed.

(** *** The items at distinct positions *)

Lemma indexed_lookup {A} (l : list A) (j : nat) (x : A) :
  l !! j = Some x → (j, x) ∈ indexed l.
Proof.
  intros Hj. unfold indexed. apply list_elem_of_lookup. exists j.
  rewrite lookup_zip_with, lookup_seq_lt by (by eapply lookup_lt_Some). simpl.
  by rewrite Hj.
Qed.

Lemma items_at_positions {A} (l : list A) (ps : list nat) :
  NoDup ps → (∀ p, p ∈ ps → (p < length l)%nat) →
  length (omap (λ j, l !! j) ps) = length ps
  ∧ omap (λ j, l !! j) ps ⊆+ l.
Proof.
  intros Hnd Hlt.
  assert (∃ s : list (nat * A),
            s.*1 = ps ∧ s.*2 = omap (λ j, l !! j) ps ∧ (∀ e, e ∈ s → e ∈ indexed l))
    as (s & H1 & H2 & Hin).
  { clear Hnd. induction ps as [|p ps IH].
    { exists []. split_and!; [done..|]. by intros e ?%elem_of_nil. }
    destruct IH as (s & H1 & H2 & Hin); [intros q Hq; apply Hlt; by right|].
    destruct (lookup_lt_is_Some_2 l p) as [x Hx]; [apply Hlt; left|].
    exists ((p, x) :: s). split_and!.
    { by rewrite fmap_cons, H1. }
    { rewrite fmap_cons, H2. simpl. by rewrite Hx. }
    intros e [->|He]%elem_of_cons; [by apply indexed_lookup|by apply Hin]. }
  split.
  - by rewrite <-H2, <-H1, !length_fmap.
  - rewrite <-H2, <-(indexed_snd l). apply fmap_submseteq.
    apply NoDup_submseteq; [|done].
    apply (NoDup_fmap_1 fst). by rewrite H1.
Qed.

(** *** Drawing until the index is new *)

Lemma draw_fresh_cases E (n : nat) (sel : gset nat) : ∀ left w,
  match draw_fresh E n sel left w with
  | Ret j w' =>
      ∃ t : nat, (t ≤ left)%nat ∧ w' = use_draws (S t) w
                 ∧ j = (entropy E (draws w + t) `mod` n)%nat ∧ (j ∉ sel)
                 ∧ ∀ d, d ∈ draws_below E n (draws w) t → d ∈ sel
  | Stop _ _ => False
  | Diverge w' =>
      w' = use_draws (S left) w
      ∧ ∀ i, (i ≤ left)%nat → (entropy E (draws w + i) `mod` n)%nat ∈ sel
  end.
Proof.
  induction left as [|left IH]; intros w; cbn [draw_fresh]; rewrite mbind_unfold;
    cbn [randbelow]; case_decide as Hj.
  - split; [done|]. intros i Hi. replace i with 0%nat by lia. by rewrite Nat.add_0_r.
  - simpl. exists 0%nat. rewrite Nat.add_0_r. split_and!; try done.
    by intros d ?%elem_of_nil.
  - specialize (IH (use_draws 1 w)).
    destruct (draw_fresh E n sel left (use_draws 1 w)) as [j w'|h w'|w']; [|done|].
    + destruct IH as (t & Ht & -> & -> & Hfresh & Hseen). exists (S t).
      rewrite use_draws_add. simpl draws in *.
      replace (draws w + 1 + t)%nat with (draws w + S t)%nat in * by lia.
      split_and!; [lia|done..|].
      intros d Hd. replace (S t) with (1 + t)%nat in Hd by lia.
      rewrite draws_below_app in Hd. apply elem_of_app in Hd as [Hd|Hd]; [|by apply Hseen].
      unfold draws_below in Hd. simpl in Hd. apply list_elem_of_singleton in Hd.
      rewrite Nat.add_0_r in Hd. by subst.
    + destruct IH as [-> Hseen]. rewrite use_draws_add. split; [done|].
      intros [|i] Hi; [by rewrite Nat.add_0_r|].
      specialize (Hseen i ltac:(lia)). simpl in Hseen.
      by replace (draws w + S i)%nat with (draws w + 1 + i)%nat by lia.
  - simpl. exists 0%nat. rewrite Nat.add_0_r. split_and!; try done; [lia|].
    by intros d ?%elem_of_nil.
Qed.

Lemma set_select_cases {A} E (population : list A) :
  (0 < length population)%nat → ∀ (k : nat) (sel : gset nat) w,
  match set_select E population sel k w with
  | Ret chunk w' =>
      ∃ t : nat,
        w' = use_draws t w
        ∧ chunk = omap (λ j, population !! j)
                       (first_occurrences_from sel (draws_below E (length population) (draws w) t))
        ∧ length (first_occurrences_from sel
                    (draws_below E (length population) (draws w) t)) = k
        ∧ (k ≤ t)%nat
        ∧ ∀ t', (t' < t)%nat →
                (length (first_occurrences_from sel
                           (draws_below E (length population) (draws w) t')) < k)%nat
  | Stop _ _ => False
  | Diverge w' =>
      (∃ t : nat, w' = use_draws t w)
      ∧ ∃ (offset : nat) (sel' : gset nat),
          (size sel' < size sel + k)%nat
          ∧ ∀ i, (i ≤ patience E)%nat →
                 (entropy E (offset + i) `mod` length population)%nat ∈ sel'
  end.
Proof.
  intros Hn. set (n := length population) in *.
  induction k as [|k IH]; intros sel w; cbn [set_select].
  - simpl. exists 0%nat. rewrite use_draws_0. split_and!; try done. intros; lia.
  - rewrite mbind_unfold. fold n.
    pose proof (draw_fresh_cases E n sel (patience E) w) as Hd.
    destruct (draw_fresh E n sel (patience E) w) as [j w1|h w1|w1]; [|done|].
    2:{ destruct Hd as [-> Hseen]. split; [by eexists|].
        exists (draws w), sel. split; [lia|done]. }
    destruct Hd as (t1 & _ & -> & Hj & Hfresh & Hseen).
    assert (j < n)%nat as Hlt by (rewrite Hj; apply Nat.mod_upper_bound; lia).
    destruct (lookup_lt_is_Some_2 population j Hlt) as [x Hx]. rewrite Hx.
    rewrite mbind_unfold.
    specialize (IH ({[j]} ∪ sel) (use_draws (S t1) w)).
    simpl draws in IH.
    assert (∀ t2 : nat,
              first_occurrences_from sel (draws_below E n (draws w) (S t1 + t2))
              = j :: first_occurrences_from ({[j]} ∪ sel)
                       (draws_below E n (draws w + S t1) t2)) as Hsplit.
    { intros t2. rewrite draws_below_app, draws_below_S, <-app_assoc.
      rewrite first_occurrences_from_seen by done.
      cbn [app first_occurrences_from]. rewrite <-Hj. by rewrite decide_False. }
    assert (∀ t' : nat, (t' ≤ t1)%nat →
              first_occurrences_from sel (draws_below E n (draws w) t') = []) as Hearly.
    { intros t' Ht'. rewrite <-(app_nil_r (draws_below _ _ _ t')).
      rewrite first_occurrences_from_seen; [done|].
      intros d Hd. apply Hseen. apply draws_below_elem in Hd as (i & Hi & ->).
      apply draws_below_elem. exists i. split; [lia|done]. }
    destruct (set_select E population ({[j]} ∪ sel) k (use_draws (S t1) w))
      as [rest w2|h w2|w2]; [|done|].
    + destruct IH as (t2 & -> & Hrest & Hlen & Hk & Hmin).
      simpl. exists (S t1 + t2)%nat. rewrite use_draws_add. split; [done|].
      rewrite Hsplit. split_and!.
      { simpl. rewrite Hx. simpl. by rewrite Hrest. }
      { simpl. by rewrite Hlen. }
      { lia. }
      intros t' Ht'. destruct (decide (t' ≤ t1)%nat) as [Hle|Hgt].
      * rewrite Hearly by done. simpl. lia.
      * replace t' with (S t1 + (t' - S t1))%nat by lia. rewrite Hsplit.
        cbn [length]. specialize (Hmin (t' - S t1)%nat ltac:(lia)). lia.
    + destruct IH as [[t2 ->] (offset & sel' & Hsize & Hstuck)]. split.
      * exists (S t1 + t2)%nat. by rewrite use_draws_add.
      * exists offset, sel'. split; [|done].
        rewrite size_union, size_singleton in Hsize by set_solver. lia.
Qed.

(** *** [random.sample] *)

Lemma setsize_ge k : 21 ≤ setsize k.
Proof.
  unfold setsize. case_match; [|lia].
  assert (0 ≤ 4 ^ ((Z.log2_up (k * 3) + 1) / 2)); [|lia].
  apply Z.pow_nonneg. lia.
Qed.

(** The ways [random.sample] can go for a size within the population. *)
Lemma random_sample_cases {A} (E : Env) (population : list A) (k : Z) (w : World) :
  0 ≤ k ≤ Z.of_nat (length population) →
  match random_sample E population k w with
  | Ret s w' =>
      ∃ t : nat,
        w' = use_draws t w
        ∧ length s = Z.to_nat k
        ∧ (∃ rest, s ++ rest ≡ₚ population)
        ∧ sample_of E (draws w) population (Z.to_nat k) t s
  | Stop _ _ => False
  | Diverge w' =>
      setsize k < Z.of_nat (length population)
      ∧ redraws_exhausted E (length population) (Z.to_nat k)
  end.
Proof.
  intros Hk. unfold random_sample, sample_of. rewrite Z2Nat.id by lia.
  destruct (k <? 0) eqn:H1; [lia|].
  destruct (Z.of_nat (length population) <? k) eqn:H2; [lia|]. cbn [orb].
  destruct (Z.of_nat (length population) <=? setsize k) eqn:Hsize.
  - apply Z.leb_le in Hsize.
    exists (Z.to_nat k). rewrite decide_True by done.
    destruct (pool_select_perm (Z.to_nat k)
      (λ i, entropy E (draws w + i)%nat) population ltac:(lia)) as [Hlen Hperm].
    split_and!; done.
  - apply Z.leb_gt in Hsize.
    pose proof (setsize_ge k) as Hge.
    pose proof (set_select_cases E population ltac:(lia) (Z.to_nat k) ∅ w) as Hsel.
    destruct (set_select E population ∅ (Z.to_nat k) w) as [s w'|h w'|w']; [|done|].
    + destruct Hsel as (t & -> & Hs & Hlen & Hkt & Hmin). exists t.
      rewrite decide_False by lia.
      fold (first_occurrences (draws_below E (length population) (draws w) t)) in Hs, Hlen.
      destruct (first_occurrences_from_spec
                  (draws_below E (length population) (draws w) t) ∅) as [Hnd Hin].
      destruct (items_at_positions population
                  (first_occurrences (draws_below E (length population) (draws w) t)))
        as [Hlen' Hsub]; [done| |].
      { intros p Hp. destruct (Hin p Hp) as [Hd _].
        apply draws_below_elem in Hd as (i & _ & ->). apply Nat.mod_upper_bound. lia. }
      rewrite <-Hs in Hlen', Hsub.
      split_and!; [done|lia| |done..].
      apply submseteq_Permutation in Hsub as [rest Hperm]. by exists rest.
    + destruct Hsel as [_ (offset & sel' & Hsize' & Hstuck)]. split; [done|].
      exists offset, sel'. split; [|done]. rewrite size_empty in Hsize'. lia.
Qed.

(** Whatever the size asked for, [random.sample] only uses draws. *)
Lemma random_sample_world {A} E (population : list A) k w :
  ∃ j, final_world (random_sample E population k w) = use_draws j w.
Proof.
  destruct (decide (0 ≤ k ≤ Z.of_nat (length population))) as [Hk|Hk].
  - pose proof (random_sample_cases E population k w Hk) as Hc.
    unfold random_sample in *.
    destruct (k <? 0) eqn:H1; [lia|].
    destruct (Z.of_nat (length population) <? k) eqn:H2; [lia|]. cbn [orb] in *.
    destruct (Z.of_nat (length population) <=? setsize k) eqn:Hsize; [by eexists|].
    apply Z.leb_gt in Hsize. pose proof (setsize_ge k).
    pose proof (set_select_cases E population ltac:(lia) (Z.to_nat k) ∅ w) as Hsel.
    destruct (set_select E population ∅ (Z.to_nat k) w) as [s w'|h w'|w']; [|done|].
    + destruct Hsel as (t & -> & _). by exists t.
    + destruct Hsel as [[t ->] _]. by exists t.
  - unfold random_sample.
    replace ((k <? 0) || (Z.of_nat (length population) <? k)) with true by lia.
    exists 0%nat. by rewrite use_draws_0.
Qed.

Lemma random_sample_submseteq {A} E (population : list A) k w s w' :
  random_sample E population k w = Ret s w' → s ⊆+ population.
Proof.
  intros Hrun.
  destruct (decide (0 ≤ k ≤ Z.of_nat (length population))) as [Hk|Hk].
  - pose proof (random_sample_cases E population k w Hk) as Hc. rewrite Hrun in Hc.
    destruct Hc as (t & _ & _ & [rest Hperm] & _).
    trans (s ++ rest); [by apply submseteq_inserts_r|by apply Permutation_submseteq].
  - unfold random_sample in Hrun.
    by replace ((k <? 0) || (Z.of_nat (length population) <? k)) with true in Hrun by lia.
Qed.

(** A population within [setsize] is sampled with one draw for each item
    and always returns. *)
Lemma random_sample_pool {A} (E : Env) (population : list A) (k : Z) (w : World) :
  0 ≤ k ≤ Z.of_nat (length population) →
  Z.of_nat (length population) ≤ setsize k →
  random_sample E population k w
  = Ret (pool_select (λ i, entropy E (draws w + i)%nat) population (Z.to_nat k))
        (use_draws (Z.to_nat k) w).
Proof.
  intros Hk Hsize. unfold random_sample.
  destruct (k <? 0) eqn:H1; [lia|].
  destruct (Z.of_nat (length population) <? k) eqn:H2; [lia|]. cbn [orb].
  by replace (Z.of_nat (length population) <=? setsize k) with true by lia.
Qed.

(** ** Bins *)

Lemma bin_pairs_cons x y l : bin_pairs (x :: y :: l) = (x, y) :: bin_pairs (y :: l).
Proof. reflexivity. Qed.

Lemma bin_pairs_bounds l : ∀ y b,
  Sorted Z.lt (y :: l) → b ∈ bin_pairs (y :: l) → y ≤ b.1 ∧ b.1 < b.2.
Proof.
  induction l as [|z l IH]; intros y b Hs Hb.
  - by apply elem_of_nil in Hb.
  - rewrite bin_pairs_cons in Hb. apply elem_of_cons in Hb as [->|Hb].
    + apply Sorted_inv in Hs as [_ Hyz]. apply HdRel_inv in Hyz. simpl. lia.
    + apply Sorted_inv in Hs as [Hs Hyz]. apply HdRel_inv in Hyz.
      destruct (IH z b Hs Hb). lia.
Qed.

Lemma in_bin_spec k b : in_bin k b = true ↔ b.1 ≤ k < b.2.
Proof. unfold in_bin. rewrite andb_true_iff, Z.leb_le, Z.ltb_lt. done. Qed.

Lemma bin_pairs_disjoint bins : Sorted Z.lt bins →
  ∀ k b b', b ∈ bin_pairs bins → b' ∈ bin_pairs bins →
            in_bin k b = true → in_bin k b' = true → b = b'.
Proof.
  induction bins as [|x bins IH]; intros Hs k b b' Hb Hb' Hk Hk'.
  - by apply elem_of_nil in Hb.
  - destruct bins as [|y l]; [by apply elem_of_nil in Hb|].
    rewrite bin_pairs_cons in Hb, Hb'.
    pose proof Hs as Hs0.
    apply Sorted_inv in Hs as [Hs Hxy].
    apply in_bin_spec in Hk, Hk'.
    apply elem_of_cons in Hb as [->|Hb]; apply elem_of_cons in Hb' as [->|Hb'].
    + done.
    + destruct (bin_pairs_bounds _ _ _ Hs Hb'). simpl in *. lia.
    + destruct (bin_pairs_bounds _ _ _ Hs Hb). simpl in *. lia.
    + apply (IH Hs k); by try apply in_bin_spec.
Qed.

Lemma NoDup_bin_starts bins : Sorted Z.lt bins → NoDup (bin_pairs bins).*1.
Proof.
  induction bins as [|x bins IH]; intros Hs; [constructor|].
  destruct bins as [|y l]; [constructor|].
  rewrite bin_pairs_cons. apply Sorted_inv in Hs as [Hs Hxy]. apply HdRel_inv in Hxy.
  rewrite fmap_cons. cbn [fst]. constructor; [|by apply IH].
  intros Hin. apply list_elem_of_fmap in Hin as (b & -> & Hb).
  destruct (bin_pairs_bounds _ _ _ Hs Hb). lia.
Qed.

Lemma bin_pairs_starts bins : (bin_pairs bins).*1 = removelast bins.
Proof.
  induction bins as [|x bins IH]; [done|].
  destruct bins as [|y l]; [done|].
  rewrite bin_pairs_cons, fmap_cons, IH. done.
Qed.

Lemma find_bin_Some bins k b :
  find_bin bins k = Some b → b ∈ bin_pairs bins ∧ in_bin k b = true.
Proof.
  unfold find_bin. intros H. apply find_some in H as [H1 H2].
  split; [by apply list_elem_of_In|done].
Qed.

Lemma find_bin_unique bins k b : Sorted Z.lt bins →
  b ∈ bin_pairs bins → in_bin k b = true → find_bin bins k = Some b.
Proof.
  intros Hs Hb Hk. destruct (find_bin bins k) as [b'|] eqn:Hf.
  - apply find_bin_Some in Hf as [Hb' Hk'].
    f_equal. by eapply bin_pairs_disjoint.
  - unfold find_bin in Hf.
    assert (in_bin k b = false) as Hn
      by (apply (find_none _ _ Hf); by apply list_elem_of_In).
    congruence.
Qed.

(** ** Dictionaries *)

Section Dict.
Context {K V : Type} `{EqDecision K}.
Implicit Types d : list (K * V).

Lemma dict_set_fresh k v d : k ∉ d.*1 → dict_set k v d = d ++ [(k, v)].
Proof.
  induction d as [|[k' v'] d IH]; intros Hk; [done|].
  rewrite fmap_cons, not_elem_of_cons in Hk. destruct Hk as [Hne Hk].
  cbn [dict_set app]. rewrite decide_False by done. by rewrite IH.
Qed.

Lemma dict_update_fmap (h : K → V) (f : V → V) k (L : list K) :
  NoDup L →
  dict_update f k ((λ b, (b, h b)) <$> L)
  = (λ b, (b, if decide (b = k) then f (h b) else h b)) <$> L.
Proof.
  induction L as [|b L IH]; intros Hnd; [done|].
  rewrite !fmap_cons. cbn [dict_update].
  apply NoDup_cons in Hnd as [Hb Hnd].
  destruct (decide (k = b)) as [->|Hne].
  - rewrite decide_True by done. f_equal.
    apply list_fmap_ext. intros i x Hx.
    rewrite decide_False; [done|].
    intros ->. apply Hb. eapply list_elem_of_lookup_2. done.
  - rewrite decide_False by done. by rewrite IH.
Qed.
End Dict.

Lemma foldl_dict_set_fresh {K V} `{EqDecision K} (v : V) (l : list K) :
  ∀ acc : list (K * V), NoDup (acc.*1 ++ l) →
  foldl (λ d b, dict_set b v d) acc l = acc ++ ((λ b, (b, v)) <$> l).
Proof.
  induction l as [|b l IH]; intros acc Hnd; simpl.
  - by rewrite app_nil_r.
  - rewrite dict_set_fresh.
    2:{ apply NoDup_app in Hnd as (_ & Hd & _). intros Hin.
        apply (Hd _ Hin). left. }
    rewrite IH.
    + by rewrite <-app_assoc.
    + rewrite fmap_app. simpl. by rewrite <-app_assoc.
Qed.

Lemma empty_bins_spec bins : NoDup (bin_pairs bins) →
  empty_bins bins = (λ b, (b, [])) <$> bin_pairs bins.
Proof. intros Hnd. unfold empty_bins. by rewrite foldl_dict_set_fresh. Qed.

(** ** The categorisation loop *)

Lemma zero_counts_lookup bins s :
  zero_counts bins !! s = if decide (s ∈ removelast bins) then Some 0 else None.
Proof.
  unfold zero_counts. case_decide as Hs.
  - apply elem_of_list_to_map_1'.
    + intros y Hy. apply list_elem_of_fmap in Hy as (? & ? & ?). by simplify_eq.
    + apply list_elem_of_fmap. by exists s.
  - apply not_elem_of_list_to_map_1. rewrite <-list_fmap_compose.
    intros Hin. apply Hs. apply list_elem_of_fmap in Hin as (? & -> & ?). done.
Qed.

Lemma categorize_snoc bins works w :
  categorize bins (works ++ [w]) = categorize_work bins (categorize bins works) w.
Proof. unfold categorize. by rewrite foldl_snoc. Qed.

Lemma categorize_spec bins works : NoDup (bin_pairs bins) →
  (categorize bins works).1 = (λ b, (b, members bins b works)) <$> bin_pairs bins
  ∧ ∀ s, (categorize bins works).2 !! s
         = if decide (s ∈ removelast bins) then Some (count_from bins s works) else None.
Proof.
  intros Hnd. induction works as [|w works IH] using rev_ind.
  - split; [by apply empty_bins_spec|]. intros s. simpl. apply zero_counts_lookup.
  - destruct IH as [IH1 IH2]. rewrite categorize_snoc. unfold categorize_work.
    destruct (find_bin bins (w_kudos w)) as [b|] eqn:Hf; simpl.
    + split.
      * rewrite IH1, dict_update_fmap by done.
        apply list_fmap_ext. intros i b' Hb'. f_equal.
        unfold members. rewrite filter_app.
        case_decide as Hbb.
        -- subst b'. by rewrite filter_cons_True, filter_nil by done.
        -- rewrite filter_cons_False, filter_nil by congruence. by rewrite app_nil_r.
      * intros s. rewrite lookup_alter, !IH2.
        assert (b.1 ∈ removelast bins) as Hb1.
        { rewrite <-bin_pairs_starts. apply list_elem_of_fmap_2.
          by apply find_bin_Some in Hf as [? _]. }
        unfold count_from. rewrite filter_app, length_app.
        destruct (decide (b.1 = s)) as [<-|Hs].
        -- rewrite !decide_True by done.
           rewrite filter_cons_True by (by rewrite Hf). simpl. f_equal. lia.
        -- destruct (decide (s ∈ removelast bins)); [|done].
           rewrite filter_cons_False by (rewrite Hf; simpl; congruence).
           simpl. f_equal. lia.
    + split.
      * rewrite IH1. apply list_fmap_ext. intros i b' Hb'. f_equal.
        unfold members. rewrite filter_app, filter_cons_False, filter_nil by congruence.
        by rewrite app_nil_r.
      * intros s. rewrite IH2. case_decide; [|done].
        unfold count_from. rewrite filter_app, length_app.
        rewrite filter_cons_False by (rewrite Hf; simpl; congruence).
        simpl. f_equal. lia.
Qed.

(** ** The minimum *)

Lemma foldl_min_spec l : ∀ a,
  foldl Z.min a l ∈ a :: l ∧ ∀ x, x ∈ a :: l → foldl Z.min a l ≤ x.
Proof.
  induction l as [|y l IH]; intros a; simpl.
  - split; [left|]. intros x Hx. apply list_elem_of_singleton in Hx. lia.
  - destruct (IH (Z.min a y)) as [Hin Hle]. split.
    + apply elem_of_cons in Hin as [Hin|Hin].
      * rewrite Hin. destruct (Z.min_spec a y) as [[_ ->]|[_ ->]]; [left|right; left].
      * right. by right.
    + intros x Hx. apply elem_of_cons in Hx as [->|Hx].
      * etrans; [apply Hle; left|]. lia.
      * apply elem_of_cons in Hx as [->|Hx].
        -- etrans; [apply Hle; left|]. lia.
        -- apply Hle. by right.
Qed.

Lemma min_count_of_spec (m : gmap Z Z) :
  (∀ s c, m !! s = Some c → 0 < c → 0 < min_count_of m ≤ c)
  ∧ (min_count_of m = 0 ∨ (0 < min_count_of m ∧ ∃ s, m !! s = Some (min_count_of m))).
Proof.
  unfold min_count_of.
  set (counts := filter (λ c, 0 < c) (map_to_list m).*2).
  assert (∀ c, c ∈ counts ↔ 0 < c ∧ ∃ s, m !! s = Some c) as Hcounts.
  { intros c. unfold counts. rewrite list_elem_of_filter, list_elem_of_fmap.
    split.
    - intros [Hc ([s c'] & -> & Hin)]. split; [done|].
      exists s. by apply elem_of_map_to_list.
    - intros [Hc [s Hs]]. split; [done|]. exists (s, c). split; [done|].
      by apply elem_of_map_to_list. }
  destruct counts as [|c0 counts'] eqn:Hc.
  - split; [|by left]. intros s c Hs Hpos.
    assert (c ∈ []) as Hin by (apply Hcounts; eauto). by apply elem_of_nil in Hin.
  - unfold py_min. destruct (foldl_min_spec counts' c0) as [Hin Hle].
    split.
    + intros s c Hs Hpos. split.
      * apply Hcounts in Hin. lia.
      * apply Hle. apply Hcounts. eauto.
    + right. by apply Hcounts in Hin.
Qed.

Lemma members_bin_items bins b works : Sorted Z.lt bins → b ∈ bin_pairs bins →
  members bins b works = bin_items b works.
Proof.
  intros Hs Hb. apply list_filter_iff. intros w. split.
  - intros Hf. apply find_bin_Some in Hf as [_ Hk]. by apply Is_true_true.
  - intros Hk. apply Is_true_true in Hk. by apply find_bin_unique.
Qed.

Lemma bin_pairs_nonempty bins b : Sorted Z.lt bins → b ∈ bin_pairs bins → b.1 < b.2.
Proof.
  intros Hs Hb. destruct bins as [|y l]; [by apply elem_of_nil in Hb|].
  by destruct (bin_pairs_bounds _ _ _ Hs Hb).
Qed.

Lemma bin_pairs_same_start bins b b' : Sorted Z.lt bins →
  b ∈ bin_pairs bins → b' ∈ bin_pairs bins → b.1 = b'.1 → b = b'.
Proof.
  intros Hs Hb Hb' Heq.
  pose proof (bin_pairs_nonempty _ _ Hs Hb).
  pose proof (bin_pairs_nonempty _ _ Hs Hb').
  apply (bin_pairs_disjoint bins Hs b.1); [done..| |]; apply in_bin_spec; lia.
Qed.

Lemma count_from_bin_items bins b works : Sorted Z.lt bins → b ∈ bin_pairs bins →
  count_from bins b.1 works = Z.of_nat (length (bin_items b works)).
Proof.
  intros Hs Hb. unfold count_from. rewrite <-(members_bin_items bins) by done.
  do 2 f_equal. apply list_filter_iff. intros w. split.
  - intros Hf. destruct (find_bin bins (w_kudos w)) as [b'|] eqn:Hb'; [|done].
    simpl in Hf. f_equal. apply find_bin_Some in Hb' as [Hb' _].
    apply (bin_pairs_same_start bins); [done..|congruence].
  - intros ->. done.
Qed.

(** ** The drawing loop *)

Lemma chunk_ok_subset E mc item chunk x :
  chunk_ok E mc item chunk → x ∈ chunk → x ∈ item.2.
Proof.
  unfold chunk_ok. case_decide.
  - intros ->. by intros ?%elem_of_nil.
  - intros (_ & [rest Hperm] & _) Hx. rewrite <-Hperm. apply elem_of_app. by left.
Qed.

Lemma strata_draw_spec E (mc : Z) : 0 ≤ mc →
  ∀ items sampled w,
    (∀ it, it ∈ items → it.2 ≠ [] → mc ≤ Z.of_nat (length it.2)) →
    match strata_draw E items mc sampled w with
    | Ret sampled' w' =>
        ∃ chunks, sampled' = sampled ++ concat chunks
                  ∧ Forall2 (chunk_ok E mc) items chunks
    | Stop _ _ => False
    | Diverge _ =>
        ∃ it, it ∈ items ∧ setsize mc < Z.of_nat (length it.2)
              ∧ redraws_exhausted E (length it.2) (Z.to_nat mc)
    end.
Proof.
  intros Hmc. induction items as [|[b work_bin] items IH]; intros sampled w Hle.
  - simpl. exists []. simpl. by rewrite app_nil_r.
  - cbn [strata_draw].
    assert (∀ it, it ∈ items → it.2 ≠ [] → mc ≤ Z.of_nat (length it.2)) as Hle'
      by (intros it Hit; apply Hle; by right).
    destruct ((0 <? Z.of_nat (length work_bin)) && (0 <? mc)) eqn:Hc.
    + apply andb_true_iff in Hc as [Hlen Hpos].
      apply Z.ltb_lt in Hlen, Hpos.
      assert (work_bin ≠ []) as Hne by (intros ->; simpl in Hlen; lia).
      pose proof (random_sample_cases E work_bin mc w) as Hs.
      rewrite mbind_unfold.
      destruct (random_sample E work_bin mc w) as [s w1|h w1|w1].
      * destruct Hs as (t & -> & Hslen & Hsperm & Hsample).
        { split; [lia|]. apply (Hle (b, work_bin)); [left|done]. }
        rewrite mbind_unfold. cbn [modify].
        match goal with |- context [strata_draw E items mc _ ?w2] =>
          specialize (IH (sampled ++ s) w2 Hle');
          destruct (strata_draw E items mc (sampled ++ s) w2) as [s' w'|h w'|w']
        end; [|done|].
        -- destruct IH as (chunks & -> & Hall). exists (s :: chunks). split.
           ++ simpl. by rewrite <-app_assoc.
           ++ constructor; [|done]. unfold chunk_ok. simpl.
              rewrite decide_False by (intros [?|?]; [done|lia]).
              split_and!; [done..|]. by exists (draws w), t.
        -- destruct IH as (it & Hit & Hbig). exists it. split; [by right|done].
      * apply Hs. split; [lia|]. apply (Hle (b, work_bin)); [left|done].
      * exists (b, work_bin). split; [left|]. apply Hs.
        split; [lia|]. apply (Hle (b, work_bin)); [left|done].
    + specialize (IH sampled w Hle').
      destruct (strata_draw E items mc sampled w) as [s' w'|h w'|w']; [|done|].
      * destruct IH as (chunks & -> & Hall). exists ([] :: chunks). split; [done|].
        constructor; [|done]. unfold chunk_ok. simpl.
        rewrite decide_True; [done|].
        apply andb_false_iff in Hc as [Hc|Hc]; apply Z.ltb_ge in Hc.
        -- left. destruct work_bin; [done|]. simpl in Hc. lia.
        -- right. lia.
      * destruct IH as (it & Hit & Hbig). exists it. split; [by right|done].
Qed.

Lemma Forall2_concat_elem {A B} (R : A → list B → Prop) items chunks x :
  Forall2 R items chunks → x ∈ concat chunks →
  ∃ it ch, it ∈ items ∧ R it ch ∧ x ∈ ch.
Proof.
  induction 1 as [|it ch items chunks HR _ IH]; simpl.
  - by intros ?%elem_of_nil.
  - intros [Hx|Hx]%elem_of_app.
    + exists it, ch. split; [left|done].
    + destruct (IH Hx) as (it' & ch' & ? & ? & ?).
      exists it', ch'. split; [by right|done].
Qed.

Lemma filter_all {A} (P : A → Prop) `{∀ x, Decision (P x)} (l : list A) :
  (∀ x, x ∈ l → P x) → filter P l = l.
Proof.
  induction l as [|x l IH]; intros HP; [done|].
  rewrite filter_cons_True by (apply HP; left).
  f_equal. apply IH. intros y Hy. apply HP. by right.
Qed.

Lemma filter_none {A} (P : A → Prop) `{∀ x, Decision (P x)} (l : list A) :
  (∀ x, x ∈ l → ¬ P x) → filter P l = [].
Proof.
  induction l as [|x l IH]; intros HP; [done|].
  rewrite filter_cons_False by (apply HP; left).
  apply IH. intros y Hy. apply HP. by right.
Qed.

Lemma member_in_bin bins b c works x : Sorted Z.lt bins → b ∈ bin_pairs bins →
  x ∈ members bins c works → (in_bin (w_kudos x) b ↔ b = c).
Proof.
  intros Hs Hb Hx. apply list_elem_of_filter in Hx as [Hf _]. split.
  - intros Hk%Is_true_true.
    pose proof (find_bin_unique _ _ _ Hs Hb Hk). congruence.
  - intros ->. apply find_bin_Some in Hf as [_ Hk]. by apply Is_true_true.
Qed.

Lemma chunks_by_bin E bins works mc b : Sorted Z.lt bins → b ∈ bin_pairs bins →
  ∀ L chunks, NoDup L →
    Forall2 (chunk_ok E mc) ((λ c, (c, members bins c works)) <$> L) chunks →
    ∃ ch, bin_items b (concat chunks) = ch
          ∧ (b ∉ L → ch = [])
          ∧ (b ∈ L → chunk_ok E mc (b, members bins b works) ch).
Proof.
  intros Hs Hb. induction L as [|c L IH]; intros chunks Hnd Hall.
  - apply Forall2_nil_inv_l in Hall as ->. exists []. split; [done|].
    split; [done|]. by intros ?%elem_of_nil.
  - rewrite fmap_cons in Hall.
    apply Forall2_cons_inv_l in Hall as (ch0 & chs & Hok & Hall & ->).
    apply NoDup_cons in Hnd as [Hc Hnd].
    destruct (IH chs Hnd Hall) as (ch & Hch & Hout & Hin).
    simpl. unfold bin_items in *. rewrite filter_app, Hch.
    destruct (decide (b = c)) as [->|Hne].
    + exists ch0. rewrite (Hout Hc), app_nil_r. split.
      * apply filter_all. intros x Hx.
        apply (member_in_bin bins c c works); [done..| |done].
        by apply (chunk_ok_subset _ _ _ _ _ Hok).
      * split; [|done]. intros Hn. exfalso. apply Hn. left.
    + exists ch. split.
      * rewrite filter_none; [done|]. intros x Hx Hk.
        apply Hne. apply (member_in_bin bins b c works x); [done..| |done].
        by apply (chunk_ok_subset _ _ _ _ _ Hok).
      * split.
        -- intros Hn. apply Hout. intros ?. apply Hn. by right.
        -- intros [?|?]%elem_of_cons; [done|]. by apply Hin.
Qed.

Lemma strata_sampling_spec E pct works n bins w : Sorted Z.lt bins →
  ∃ m,
    min_positive_count bins works m
    ∧ match apply_sampling E Strata pct works n bins w with
      | Ret sampled w' =>
          (∀ b, b ∈ bin_pairs bins →
             if decide (bin_items b works = []) then bin_items b sampled = []
             else length (bin_items b sampled) = m
                  ∧ (∃ rest, bin_items b sampled ++ rest ≡ₚ bin_items b works)
                  ∧ ∃ offset t : nat,
                      sample_of E offset (bin_items b works) m t (bin_items b sampled))
          ∧ (∀ x, x ∈ sampled → ∃ b, b ∈ bin_pairs bins ∧ in_bin (w_kudos x) b)
          ∧ (m = 0%nat → sampled = [])
      | Stop _ _ => False
      | Diverge _ =>
          ∃ b, b ∈ bin_pairs bins
               ∧ setsize (Z.of_nat m) < Z.of_nat (length (bin_items b works))
               ∧ redraws_exhausted E (length (bin_items b works)) m
      end.
Proof.
  intros Hs.
  assert (NoDup (bin_pairs bins)) as Hnd
    by (eapply NoDup_fmap_1, NoDup_bin_starts; done).
  destruct (categorize_spec bins works Hnd) as [Hby Hcnt].
  unfold apply_sampling.
  destruct (categorize bins works) as [works_by_kudos counts]. simpl in Hby, Hcnt.
  subst works_by_kudos.
  set (mc := min_count_of counts).
  destruct (min_count_of_spec counts) as [HA HB]. fold mc in HA, HB.
  assert (∀ b, b ∈ bin_pairs bins →
               counts !! b.1 = Some (Z.of_nat (length (bin_items b works)))) as Hcount.
  { intros b Hb. rewrite Hcnt, decide_True.
    - by rewrite count_from_bin_items.
    - rewrite <-bin_pairs_starts. by apply list_elem_of_fmap_2. }
  assert (0 ≤ mc) as Hmc by (destruct HB; lia).
  assert (∀ b, b ∈ bin_pairs bins → bin_items b works ≠ [] →
               0 < mc ≤ Z.of_nat (length (bin_items b works))) as Hpos.
  { intros b Hb Hne. apply (HA b.1); [by apply Hcount|].
    destruct (bin_items b works); [done|]. simpl. lia. }
  exists (Z.to_nat mc). split.
  { destruct HB as [H0|[Hgt [s Hsome]]].
    + left. split; [|lia]. intros b Hb.
      destruct (decide (bin_items b works = [])) as [|Hne]; [done|].
      specialize (Hpos b Hb Hne). lia.
    + right. split; [lia|]. split.
      * rewrite Hcnt in Hsome. case_decide as Hin; [|done].
        rewrite <-bin_pairs_starts in Hin.
        apply list_elem_of_fmap in Hin as (b & -> & Hb).
        exists b. split; [done|].
        rewrite count_from_bin_items in Hsome by done. simplify_eq. lia.
      * intros b Hb Hne. specialize (Hpos b Hb Hne). lia. }
  pose proof (strata_draw_spec E mc Hmc
                ((λ b, (b, members bins b works)) <$> bin_pairs bins) [] w) as Hdraw.
  destruct (strata_draw E _ mc [] w) as [sampled w'|h w'|w'].
  - destruct Hdraw as (chunks & -> & Hall).
    { intros it Hit Hne. apply list_elem_of_fmap in Hit as (b & -> & Hb). simpl in *.
      rewrite members_bin_items in * by done. by apply Hpos. }
    simpl. split; [|split].
    + intros b Hb.
      destruct (chunks_by_bin E bins works mc b Hs Hb _ _ Hnd Hall)
        as (ch & Hch & _ & Hin).
      specialize (Hin Hb). unfold chunk_ok in Hin. simpl in Hin.
      rewrite members_bin_items in Hin by done. rewrite Hch.
      destruct (decide (bin_items b works = [])) as [He|Hne].
      * rewrite decide_True in Hin by (by left). done.
      * specialize (Hpos b Hb Hne).
        rewrite decide_False in Hin by (intros [?|?]; [done|lia]). done.
    + intros x Hx.
      destruct (Forall2_concat_elem _ _ _ _ Hall Hx) as (it & ch & Hit & Hok & Hxch).
      apply list_elem_of_fmap in Hit as (b & -> & Hb).
      exists b. split; [done|].
      apply (member_in_bin bins b b works); [done..| |done].
      by apply (chunk_ok_subset _ _ _ _ _ Hok).
    + intros Hm0. destruct (concat chunks) as [|x sampled] eqn:Hsampled; [done|].
      assert (x ∈ concat chunks) as Hx by (rewrite Hsampled; left).
      destruct (Forall2_concat_elem _ _ _ _ Hall Hx) as (it & ch & Hit & Hok & Hxch).
      unfold chunk_ok in Hok. case_decide.
      * subst ch. by apply elem_of_nil in Hxch.
      * destruct Hok as [Hlen _]. destruct ch; [by apply elem_of_nil in Hxch|].
        simpl in Hlen. lia.
  - apply Hdraw. intros it Hit Hne.
    apply list_elem_of_fmap in Hit as (b & -> & Hb). simpl in *.
    rewrite members_bin_items in * by done. by apply Hpos.
  - destruct Hdraw as (it & Hit & Hbig & Hstuck).
    { intros it Hit Hne. apply list_elem_of_fmap in Hit as (b & -> & Hb). simpl in *.
      rewrite members_bin_items in * by done. by apply Hpos. }
    apply list_elem_of_fmap in Hit as (b & -> & Hb). simpl in *.
    rewrite members_bin_items in * by done.
    exists b. split; [done|]. rewrite Z2Nat.id by done. done.
Qed.

(** ** The size of a random sample *)

Lemma computes_ret {A} P (a : A) : computes P (mret a).
Proof. by exists (inr a). Qed.

Lemma computes_raise {A} (P : Exn → Prop) e : P e → computes P (halt (A:=A) (Crashed e)).
Proof. intros He. by exists (inl e). Qed.

Lemma computes_bind {A B} P (m : M A) (f : A → M B) :
  computes P m → (∀ a, computes P (f a)) → computes P (m ≫= f).
Proof.
  intros [[e|a] [Hm He]] Hf.
  - exists (inl e). split; [|done]. intros w. by rewrite mbind_unfold, Hm.
  - destruct (Hf a) as [r [Hfa Hr]]. exists r. split; [|done].
    intros w. by rewrite mbind_unfold, Hm, Hfa.
Qed.

(** The size is computed from the page length and the percentage alone. *)
Lemma sample_size_of_computes (len pct : Z) :
  computes arithmetic_error (sample_size_of len pct).
Proof.
  unfold sample_size_of.
  apply computes_bind.
  { unfold int_true_divide. change (100 =? 0) with false. cbv match.
    destruct (SFdiv prec emax (exact_int pct) (exact_int 100));
      first [apply computes_ret | apply computes_raise; by left]. }
  intros ratio. apply computes_bind.
  { unfold float_of_int.
    destruct (binary_normalize prec emax len 0 false);
      first [apply computes_ret | apply computes_raise; by left]. }
  intros len_float.
  destruct (SFmul prec emax len_float ratio);
    first [apply computes_ret | apply computes_raise; by left
          | apply computes_raise; by right].
Qed.

Lemma sample_size_of_world len pct w : final_world (sample_size_of len pct w) = w.
Proof. destruct (sample_size_of_computes len pct) as [[e|size] [-> _]]; done. Qed.

(** ** Runs related to their start *)

Section RunRel.
Context (R : relation World) `{!PreOrder R}.

Lemma run_rel_ret {A} (a : A) : run_rel R (mret a).
Proof. intros w. simpl. reflexivity. Qed.

Lemma run_rel_halt {A} (h : Halt) : run_rel R (halt (A:=A) h).
Proof. intros w. simpl. reflexivity. Qed.

Lemma run_rel_bind {A B} (m : M A) (f : A → M B) :
  run_rel R m → (∀ a, run_rel R (f a)) → run_rel R (m ≫= f).
Proof.
  intros Hm Hf w. rewrite mbind_unfold. specialize (Hm w).
  destruct (m w) as [a w'|h w'|w']; simpl in *; [|done..].
  etrans; [done|]. apply Hf.
Qed.

Lemma run_rel_get {B} (f : World → M B) :
  (∀ w, run_rel R (f w)) → run_rel R (get_world ≫= f).
Proof. intros Hf w. rewrite mbind_unfold. simpl. apply Hf. Qed.

Lemma run_rel_modify (g : World → World) :
  (∀ w, R w (g w)) → run_rel R (modify g).
Proof. intros Hg w. apply Hg. Qed.

(** What the relation has to tolerate: each elementary effect of the
    controller, the record write taken together with the seen-set
    update that follows it. *)
Hypothesis R_fetched : ∀ u w, R w (fetched u w).
Hypothesis R_draws : ∀ k w, R w (use_draws k w).
Hypothesis R_strata : ∀ c w, R w (set_strata_counts c w).
Hypothesis R_persist : ∀ w, R w (persist_strata w).
Hypothesis R_emit_none : ∀ row w,
  row_id row = Some None → None ∉ seen_work_ids w →
  R w (open_seen (add_seen None (emit_row row w))).
Hypothesis R_emit_some : ∀ id row w,
  row_id row = Some (Some id) → Some id ∉ seen_work_ids w →
  R w (append_seen id (add_seen (Some id) (emit_row row w))).

Lemma run_rel_requests_get E u : run_rel R (requests_get E u).
Proof. intros w. apply R_fetched. Qed.

Lemma run_rel_handle_rate_limit status body page :
  run_rel R (handle_rate_limit status body page).
Proof.
  unfold handle_rate_limit. repeat case_match;
    auto using run_rel_ret, run_rel_halt.
Qed.

Lemma run_rel_fetch_listing E page left : run_rel R (fetch_listing E page left).
Proof.
  induction left as [|left IH]; cbn [fetch_listing]; [apply run_rel_halt|].
  assert (run_rel R (match left with
                     | O => halt (RetriesExhausted page)
                     | S _ => fetch_listing E page left
                     end)) as Hretry
    by (destruct left; [apply run_rel_halt|done]).
  apply run_rel_bind; [apply run_rel_requests_get|].
  intros [|status body]; [done|].
  apply run_rel_bind; [apply run_rel_handle_rate_limit|].
  intros []; [apply run_rel_ret|done].
Qed.

Lemma run_rel_random_sample {A} E (population : list A) k :
  run_rel R (random_sample E population k).
Proof.
  intros w. destruct (random_sample_world E population k w) as [j ->]. apply R_draws.
Qed.

Lemma run_rel_randint E a b : run_rel R (randint E a b).
Proof.
  unfold randint. case_match; [apply run_rel_halt|].
  apply run_rel_bind; [intros w; apply R_draws|].
  intros r. apply run_rel_ret.
Qed.

Lemma run_rel_strata_draw E items mc : ∀ sampled,
  run_rel R (strata_draw E items mc sampled).
Proof.
  induction items as [|[b work_bin] items IH]; intros sampled; cbn [strata_draw].
  - apply run_rel_ret.
  - case_match; [|done].
    apply run_rel_bind; [apply run_rel_random_sample|]. intros s.
    apply run_rel_bind; [|done].
    apply run_rel_modify. intros w. apply R_strata.
Qed.

Lemma run_rel_apply_sampling E strategy pct works n bins :
  run_rel R (apply_sampling E strategy pct works n bins).
Proof.
  destruct strategy; cbn [apply_sampling].
  - destruct (categorize bins works). apply run_rel_strata_draw.
  - apply run_rel_bind; [|intros; apply run_rel_random_sample].
    intros w. rewrite sample_size_of_world. reflexivity.
  - apply run_rel_bind; [apply run_rel_randint|]. intros. apply run_rel_ret.
  - apply run_rel_ret.
Qed.

Lemma run_rel_count_in_bin bins kudos : run_rel R (count_in_bin bins kudos).
Proof.
  unfold count_in_bin. case_match; [|apply run_rel_ret].
  apply run_rel_get. intros w. case_match; [|apply run_rel_halt].
  apply run_rel_modify. intros w'. apply R_strata.
Qed.

(** The request for the work's page either yields a date or stops the
    run; it changes nothing but the request log. *)
Lemma fetch_date_published_cases E work_url page w :
  (∃ d, fetch_date_published E work_url page w = Ret d (fetched (WorkUrl work_url) w))
  ∨ fetch_date_published E work_url page w
    = Stop (RateLimited page) (fetched (WorkUrl work_url) w).
Proof.
  unfold fetch_date_published. rewrite mbind_unfold. cbn [requests_get].
  destruct (net E (requests w) (WorkUrl work_url)) as [|status body].
  - left. by eexists.
  - rewrite mbind_unfold. unfold handle_rate_limit.
    destruct (raise_for_status status); [left; by eexists|].
    destruct (retry_later body); [by right|left; by eexists].
Qed.

Lemma run_rel_scrape_single_work E work page bins :
  run_rel R (scrape_single_work E work page bins).
Proof.
  unfold scrape_single_work.
  destruct (w_title work) as [[title href]|]; [|apply run_rel_ret].
  intros w. rewrite mbind_unfold. cbn [get_world].
  case_decide as Hseen; [simpl; reflexivity|].
  rewrite mbind_unfold.
  destruct (fetch_date_published_cases E (site +:+ href) page w) as [[d ->]| ->].
  2:{ simpl. apply R_fetched. }
  etrans; [apply (R_fetched (WorkUrl (site +:+ href)))|].
  set (w1 := fetched _ w).
  assert (w_id work ∉ seen_work_ids w1) as Hseen1 by done.
  clearbody w1. clear Hseen.
  rewrite mbind_unfold.
  destruct (w_id work) as [id|].
  - cbn [modify].
    match goal with |- R _ (final_world (_ ?w2)) => trans w2 end;
      [by apply R_emit_some|].
    apply (run_rel_bind (count_in_bin bins (w_kudos work)));
      [apply run_rel_count_in_bin|].
    intros _. apply run_rel_modify. apply R_persist.
  - rewrite mbind_unfold. cbn [modify halt final_world].
    by apply R_emit_none.
Qed.

Lemma run_rel_item_loop E page bins mwc : ∀ sampled_works work_count,
  run_rel R (item_loop E sampled_works page bins mwc work_count).
Proof.
  induction sampled_works as [|work rest IH]; intros work_count; cbn [item_loop].
  - apply run_rel_ret.
  - apply run_rel_get. intros w. case_decide; [done|].
    apply run_rel_bind; [apply run_rel_scrape_single_work|]. intros _.
    case_match; [apply run_rel_ret|done].
Qed.

Hypothesis R_save_page : ∀ p w, R w (save_page p w).

Lemma run_rel_page_body E mwc smp page work_count :
  run_rel R (page_body E mwc smp page work_count).
Proof.
  unfold page_body.
  apply run_rel_bind; [apply run_rel_fetch_listing|]. intros soup.
  apply run_rel_bind; [apply run_rel_apply_sampling|]. intros sampled.
  apply run_rel_bind; [by apply run_rel_modify|]. intros _.
  apply run_rel_item_loop.
Qed.

Lemma run_rel_page_loop E end_page mwc smp : ∀ fuel page work_count,
  run_rel R (page_loop E fuel end_page mwc smp page work_count).
Proof.
  induction fuel as [|fuel IH]; intros page work_count; cbn [page_loop].
  - intros w. simpl. reflexivity.
  - case_match; [apply run_rel_ret|].
    apply run_rel_bind; [apply run_rel_page_body|].
    intros [c []]; [apply run_rel_ret|done].
Qed.
End RunRel.

(** ** main, unfolded *)

Lemma main_unfold E fuel cfg w :
  main E fuel cfg w
  = match page_loop E fuel (last_page cfg) (cfg_max_work_count cfg) (cfg_sampling cfg)
                    (first_page cfg w) 0 (startup cfg w) with
    | Ret _ w' => Ret tt (cleanup w')
    | Stop h w' => Stop h w'
    | Diverge w' => Diverge w'
    end.
Proof. reflexivity. Qed.

Lemma page_loop_unfold E fuel end_page mwc smp page c w :
  page_loop E (S fuel) end_page mwc smp page c w
  = if truthy end_page && (page >? default 0 end_page) then Ret tt w
    else match page_body E mwc smp page c w with
         | Ret (c', true) w' => Ret tt w'
         | Ret (c', false) w' => page_loop E fuel end_page mwc smp (page + 1) c' w'
         | Stop h w' => Stop h w'
         | Diverge w' => Diverge w'
         end.
Proof.
  cbn [page_loop]. case_match; [done|]. rewrite mbind_unfold.
  destruct (page_body E mwc smp page c w) as [[c' []] w'|h w'|w']; done.
Qed.

(** ** The position file *)

#[local] Instance same_page_file_preorder : PreOrder same_page_file.
Proof. split; unfold same_page_file; [done|congruence]. Qed.

Ltac frame_effects := first [apply _ | by intros].

Lemma fetch_listing_same_page_file E page left :
  run_rel same_page_file (fetch_listing E page left).
Proof. apply run_rel_fetch_listing; frame_effects. Qed.

Lemma apply_sampling_same_page_file E strategy pct works n bins :
  run_rel same_page_file (apply_sampling E strategy pct works n bins).
Proof. apply run_rel_apply_sampling; frame_effects. Qed.

Lemma item_loop_same_page_file E sampled page bins mwc c :
  run_rel same_page_file (item_loop E sampled page bins mwc c).
Proof. apply run_rel_item_loop; frame_effects. Qed.

(** What one turn of the page loop does to [last_visited_page.txt]. *)
Lemma page_body_page_file E mwc smp page c w :
  match fetch_listing E page max_retries w with
  | Ret soup w1 =>
      match apply_sampling E (sampling_strategy smp) (sampling_percentage smp)
                           (li_works soup) (sampling_n smp) (kudos_bins smp) w1 with
      | Ret _ _ =>
          last_visited_page_txt (files (final_world (page_body E mwc smp page c w)))
          = Some page
      | Stop h w2 =>
          page_body E mwc smp page c w = Stop h w2
          ∧ last_visited_page_txt (files w2) = last_visited_page_txt (files w)
      | Diverge w2 => page_body E mwc smp page c w = Diverge w2
      end
  | Stop h w1 =>
      page_body E mwc smp page c w = Stop h w1
      ∧ last_visited_page_txt (files w1) = last_visited_page_txt (files w)
  | Diverge w1 => page_body E mwc smp page c w = Diverge w1
  end.
Proof.
  unfold page_body. rewrite mbind_unfold.
  pose proof (fetch_listing_same_page_file E page max_retries w) as H1.
  destruct (fetch_listing E page max_retries w) as [soup w1|h w1|w1]; [|done..].
  rewrite mbind_unfold.
  pose proof (apply_sampling_same_page_file E (sampling_strategy smp)
                (sampling_percentage smp) (li_works soup) (sampling_n smp)
                (kudos_bins smp) w1) as H2.
  destruct (apply_sampling _ _ _ _ _ _ w1) as [sampled w2|h w2|w2]; [| |done].
  - rewrite mbind_unfold. cbn [modify].
    apply (item_loop_same_page_file E sampled page (kudos_bins smp) mwc c (save_page page w2)).
  - split; [done|]. unfold same_page_file in *. simpl in *. congruence.
Qed.

Lemma page_body_ret_page_file E mwc smp page c w r w' :
  page_body E mwc smp page c w = Ret r w' →
  last_visited_page_txt (files w') = Some page.
Proof.
  intros Hbody. pose proof (page_body_page_file E mwc smp page c w) as Hpf.
  destruct (fetch_listing E page max_retries w) as [soup w1|h1 w1|w1];
    [|destruct Hpf; congruence|congruence].
  destruct (apply_sampling _ _ _ _ _ _ w1) as [sampled w2|h2 w2|w2];
    [|destruct Hpf; congruence|congruence].
  by rewrite Hbody in Hpf.
Qed.

(** ** State files are never removed by the loop *)

#[local] Instance keeps_state_files_preorder : PreOrder keeps_state_files.
Proof.
  split; unfold keeps_state_files; [done|].
  intros x y z (? & ? & ?) (? & ? & ?). split_and!; auto.
Qed.

Lemma page_loop_keeps_state_files E end_page mwc smp fuel page c :
  run_rel keeps_state_files (page_loop E fuel end_page mwc smp page c).
Proof.
  apply run_rel_page_loop; first [apply _ | by intros | idtac];
    intros; unfold keeps_state_files; simpl; eauto.
Qed.

(** ** Sink and seen-set *)

#[local] Instance emits_preorder : PreOrder emits.
Proof.
  split.
  - intros w. exists []. unfold emitted. rewrite !app_nil_r.
    split_and!; try done.
    + intros i. split; [by left|]. intros [?|?%elem_of_nil]; done.
    + constructor.
    + by intros i ?%elem_of_nil.
  - intros w1 w2 w3 (n1 & S1 & M1 & L1 & D1 & F1 & T1) (n2 & S2 & M2 & L2 & D2 & F2 & T2).
    exists (n1 ++ n2). unfold emitted. split_and!.
    + by rewrite S2, S1, app_assoc.
    + intros i. rewrite M2, M1, elem_of_app. tauto.
    + by rewrite L2, L1, omap_app, app_assoc.
    + apply NoDup_app. split_and!; [done| |done].
      intros i Hi1 Hi2. apply (F2 i Hi2). apply M1. by right.
    + intros i [Hi|Hi]%elem_of_app; [by apply F1|].
      intros Hw1. apply (F2 i Hi). apply M1. by left.
    + auto.
Qed.

Lemma emits_quiet (w w' : World) :
  files w' = files w ∨ (csv_file (files w') = csv_file (files w)
                        ∧ seen_work_ids_txt (files w') = seen_work_ids_txt (files w)) →
  seen_work_ids w' = seen_work_ids w →
  (write_precedes_add (trace w) = true → write_precedes_add (trace w') = true) →
  emits w w'.
Proof.
  intros Hf Hs Ht. exists []. unfold emitted, sink_ids, seen_lines.
  assert (csv_file (files w') = csv_file (files w)
          ∧ seen_work_ids_txt (files w') = seen_work_ids_txt (files w)) as [-> ->]
    by (destruct Hf as [->|?]; done).
  rewrite Hs, !app_nil_r. split_and!; try done.
  - intros i. split; [by left|]. intros [?|?%elem_of_nil]; done.
  - constructor.
  - by intros i ?%elem_of_nil.
Qed.

Lemma omap_snoc {A B} (f : A → option B) (l : list A) (x : A) :
  omap f (l ++ [x]) = omap f l ++ from_option (λ y, [y]) [] (f x).
Proof. rewrite omap_app. simpl. by destruct (f x). Qed.

Lemma emits_row (i : option string) (row : CsvRow) (w w' : World) :
  row_id row = Some i → i ∉ seen_work_ids w →
  csv_file (files w') = Some (default [] (csv_file (files w)) ++ [row]) →
  seen_lines (files w') = seen_lines (files w) ++ omap id [i] →
  seen_work_ids w' = {[i]} ∪ seen_work_ids w →
  (write_precedes_add (trace w) = true → write_precedes_add (trace w') = true) →
  emits w w'.
Proof.
  intros Hrow Hfresh Hcsv Hlines Hseen Ht. exists [i]. unfold emitted, sink_ids.
  rewrite Hcsv. simpl default at 1. rewrite omap_snoc, Hrow. simpl.
  split_and!; try done.
  - intros j. rewrite Hseen, elem_of_union, elem_of_singleton, list_elem_of_singleton.
    tauto.
  - apply NoDup_singleton.
  - intros j ->%list_elem_of_singleton. done.
Qed.

Lemma page_loop_emits E end_page mwc smp fuel page c :
  run_rel emits (page_loop E fuel end_page mwc smp page c).
Proof.
  apply run_rel_page_loop; first [apply _ | idtac].
  - intros u w. by apply emits_quiet; [left|..].
  - intros k w. by apply emits_quiet; [left|..].
  - intros k w. by apply emits_quiet; [left|..].
  - intros w. by apply emits_quiet; [right|..].
  - intros row w Hrow Hfresh. apply (emits_row None row); try done.
    + unfold seen_lines. simpl. by rewrite app_nil_r.
    + simpl. rewrite Hrow. simpl. by try case_bool_decide.
  - intros i row w Hrow Hfresh. apply (emits_row (Some i) row); try done.
    simpl. rewrite Hrow. simpl. by try case_bool_decide.
  - intros p w. by apply emits_quiet; [right|..].
Qed.



Lemma startup_files cfg f :
  files (startup cfg (boot f)) = open_csv (cfg_file_mode cfg) f.
Proof.
  unfold startup, load_seen_work_ids. simpl.
  by destruct (seen_work_ids_txt f).
Qed.

Lemma startup_seen cfg f : seen_work_ids (startup cfg (boot f)) = loaded_ids f.
Proof.
  unfold startup, loaded_ids, load_seen_work_ids. simpl.
  by destruct (seen_work_ids_txt f).
Qed.

Lemma startup_trace cfg f : trace (startup cfg (boot f)) = [].
Proof.
  unfold startup, load_seen_work_ids. simpl.
  by destruct (seen_work_ids_txt f).
Qed.



Lemma open_csv_seen_lines mode f : seen_lines (open_csv mode f) = seen_lines f.
Proof. unfold open_csv. by destruct mode, (csv_file f). Qed.

(** ** Reading [seen_work_ids.txt] back *)

Lemma universal_newlines_line (p x : list ascii) :
  universal_newlines (p ++ LF :: x)
  = universal_newlines (p ++ [LF]) ++ universal_newlines x
  ∧ ∃ r, universal_newlines (p ++ [LF]) = r ++ [LF].
Proof.
  remember (length p) as n eqn:Hn. revert p Hn.
  induction n as [n IH] using lt_wf_ind. intros p Hn.
  destruct p as [|a p].
  { split; [done|]. by exists []. }
  simpl in Hn. cbn [app universal_newlines].
  destruct (Ascii.eqb a CR) eqn:Ha.
  - destruct p as [|b p]; cbn [app].
    + change (Ascii.eqb LF LF) with true. split; [done|]. by exists [].
    + destruct (Ascii.eqb b LF).
      * destruct (IH (length p) ltac:(simpl in Hn; lia) p eq_refl) as [-> [r ->]].
        split; [done|]. by exists (LF :: r).
      * destruct (IH (length (b :: p)) ltac:(simpl in *; lia) (b :: p) eq_refl)
          as [H1 [r H2]].
        cbn [app] in H1, H2. rewrite H1, H2. split; [done|]. by exists (LF :: r).
  - destruct (IH (length p) ltac:(lia) p eq_refl) as [-> [r ->]].
    split; [done|]. by exists (a :: r).
Qed.

Lemma universal_newlines_graphic (s x : list ascii) :
  forallb graphic s = true → universal_newlines (s ++ x) = s ++ universal_newlines x.
Proof.
  induction s as [|a s IH]; [done|]. cbn [forallb]. intros [Ha Hs]%andb_true_iff.
  cbn [app universal_newlines].
  destruct (Ascii.eqb a CR) eqn:Hcr.
  - apply Ascii.eqb_eq in Hcr. subst a. done.
  - by rewrite IH.
Qed.

Lemma whitespace_not_graphic :
  Forall (λ p, p ≠ [] ∧ forallb (λ a, negb (graphic a)) p = true) whitespace.
Proof. repeat constructor; done. Qed.

Lemma lstrip_1_graphic (p : list ascii) g r s' :
  graphic g = true → lstrip_1 (p ++ g :: r) = Some s' →
  ∃ p', s' = p' ++ g :: r ∧ (length p' < length p)%nat ∧ p' `suffix_of` p.
Proof.
  intros Hg. unfold lstrip_1.
  destruct (find _ whitespace) as [q|] eqn:Hfind; [|done]. simpl. intros [= <-].
  apply find_some in Hfind as [Hin Hpre]. apply bool_decide_eq_true in Hpre.
  apply list_elem_of_In in Hin.
  pose proof (proj1 (Forall_forall _ _) whitespace_not_graphic q Hin) as [Hne Hng].
  assert (length q ≤ length p)%nat as Hle.
  { destruct (decide (length q ≤ length p)%nat) as [|Hgt]; [done|]. exfalso.
    destruct Hpre as [k Hk].
    assert (q !! length p = Some g) as Hq.
    { rewrite <-(lookup_app_l q k) by lia. rewrite <-Hk.
      by rewrite list_lookup_middle. }
    apply list_elem_of_lookup_2 in Hq.
    rewrite forallb_forall in Hng. apply list_elem_of_In in Hq.
    specialize (Hng g Hq). by rewrite Hg in Hng. }
  exists (drop (length q) p). split_and!.
  - by rewrite drop_app_le.
  - rewrite length_drop. destruct q; [done|]. simpl in *. lia.
  - apply suffix_drop.
Qed.

Lemma lstrip_graphic g r : graphic g = true → ∀ turns (p : list ascii),
  ∃ p', strip_with lstrip_1 turns (p ++ g :: r) = p' ++ g :: r ∧ p' `suffix_of` p.
Proof.
  intros Hg. induction turns as [|turns IH]; intros p; [by exists p|].
  cbn [strip_with].
  destruct (lstrip_1 (p ++ g :: r)) as [s'|] eqn:Hs; [|by exists p].
  destruct (lstrip_1_graphic _ _ _ _ Hg Hs) as (p' & -> & _ & Hsuf).
  destruct (IH p') as (p'' & -> & Hsuf'). exists p''. split; [done|]. by etrans.
Qed.

Lemma rstrip_1_graphic (p : list ascii) g r s' :
  graphic g = true → rstrip_1 (p ++ g :: r) = Some s' →
  ∃ r', s' = p ++ g :: r' ∧ r' `prefix_of` r.
Proof.
  intros Hg. unfold rstrip_1.
  destruct (find _ whitespace) as [q|] eqn:Hfind; [|done]. simpl. intros [= <-].
  apply find_some in Hfind as [Hin Hsuf]. apply bool_decide_eq_true in Hsuf.
  apply list_elem_of_In in Hin.
  pose proof (proj1 (Forall_forall _ _) whitespace_not_graphic q Hin) as [Hne Hng].
  assert (length q ≤ length r)%nat as Hle.
  { destruct (decide (length q ≤ length r)%nat) as [|Hgt]; [done|]. exfalso.
    destruct Hsuf as [k Hk].
    pose proof (f_equal length Hk) as Hlen. rewrite !length_app in Hlen. simpl in Hlen.
    assert (q !! (length p - length k)%nat = Some g) as Hq.
    { rewrite <-(lookup_app_r k q) ; [|lia].
      replace (length k + (length p - length k))%nat with (length p) by lia.
      rewrite <-Hk. by rewrite list_lookup_middle. }
    apply list_elem_of_lookup_2 in Hq.
    rewrite forallb_forall in Hng. apply list_elem_of_In in Hq.
    specialize (Hng g Hq). by rewrite Hg in Hng. }
  exists (take (length r - length q) r). split; [|apply prefix_take].
  rewrite length_app. simpl.
  rewrite take_app_ge by lia.
  replace (length p + S (length r) - length q - length p)%nat
    with (S (length r - length q)) by lia.
  done.
Qed.

Lemma rstrip_graphic (p : list ascii) g : graphic g = true → ∀ turns r,
  ∃ r', strip_with rstrip_1 turns (p ++ g :: r) = p ++ g :: r' ∧ r' `prefix_of` r.
Proof.
  intros Hg. induction turns as [|turns IH]; intros r; [by exists r|].
  cbn [strip_with].
  destruct (rstrip_1 (p ++ g :: r)) as [s'|] eqn:Hs; [|by exists r].
  destruct (rstrip_1_graphic _ _ _ _ Hg Hs) as (r' & -> & Hpre).
  destruct (IH r') as (r'' & -> & Hpre'). exists r''. split; [done|]. by etrans.
Qed.

Lemma split_on_nonempty c s : split_on c s ≠ [].
Proof.
  destruct s as [|a s]; [done|]. simpl.
  destruct (Ascii.eqb a c); [done|]. by destruct (split_on c s).
Qed.

Lemma split_on_app c u t : split_on c (u ++ c :: t) = split_on c u ++ split_on c t.
Proof.
  induction u as [|a u IH]; simpl.
  - by rewrite Ascii.eqb_refl.
  - destruct (Ascii.eqb a c); [by rewrite IH|].
    rewrite IH. pose proof (split_on_nonempty c u).
    by destruct (split_on c u).
Qed.

Lemma split_on_none c u : c ∉ u → split_on c u = [u].
Proof.
  induction u as [|a u IH]; [done|]. intros [Ha Hu]%not_elem_of_cons. simpl.
  destruct (Ascii.eqb a c) eqn:Heq; [apply Ascii.eqb_eq in Heq; congruence|].
  by rewrite IH.
Qed.

Lemma graphic_no_LF s : forallb graphic s = true → LF ∉ s.
Proof.
  intros Hs Hin. rewrite forallb_forall in Hs.
  apply list_elem_of_In in Hin. by specialize (Hs _ Hin).
Qed.

(** A token written to the file is read back, whatever else the file
    holds. *)
Lemma token_line_loaded (lines : list string) (s : string) :
  s ∈ lines → token s = true → s ∈ read_seen_lines lines.
Proof.
  intros Hin Htok. apply list_elem_of_split in Hin as (l1 & l2 & ->).
  unfold token in Htok. apply andb_true_iff in Htok as [Hne Hgr].
  unfold read_seen_lines.
  rewrite <-(string_of_list_ascii_of_string s) at 1.
  apply list_elem_of_fmap_2.
  set (s' := list_ascii_of_string s) in *.
  assert (∃ s0 g, s' = s0 ++ [g]) as (s0 & g & Hs').
  { destruct s' as [|a s''] eqn:Hs'.
    - destruct s; [done|discriminate Hs'].
    - destruct (decide (a :: s'' = [])) as [|Hnil]; [done|].
      apply exists_last in Hnil as (s0 & g & ->). by exists s0, g. }
  assert (graphic g = true) as Hg.
  { rewrite Hs', forallb_app in Hgr. apply andb_true_iff in Hgr as [_ Hgr].
    simpl in Hgr. by rewrite andb_true_r in Hgr. }
  unfold file_text. rewrite fmap_app, concat_app, fmap_cons. cbn [concat].
  fold (file_text l1). fold (file_text l2). fold s'.
  assert (∃ p, universal_newlines (file_text l1 ++ (s' ++ [LF]) ++ file_text l2)
               = p ++ s' ++ universal_newlines (LF :: file_text l2)
               ∧ (p = [] ∨ ∃ p0, p = p0 ++ [LF])) as (p & -> & Hp).
  { rewrite <-app_assoc. cbn [app].
    destruct l1 as [|x l1] using rev_ind.
    - exists []. cbn [file_text fmap list_fmap concat app].
      rewrite universal_newlines_graphic by done.
      split; [done|by left].
    - clear IHl1. unfold file_text at 1. rewrite fmap_app, concat_app. simpl.
      rewrite app_nil_r. fold (file_text l1). rewrite <-!app_assoc. cbn [app].
      rewrite (app_assoc (file_text l1)).
      destruct (universal_newlines_line (file_text l1 ++ list_ascii_of_string x)
                  (s' ++ LF :: file_text l2)) as [-> [r Hr]].
      rewrite (universal_newlines_graphic s' (LF :: file_text l2)) by done.
      exists (universal_newlines ((file_text l1 ++ list_ascii_of_string x) ++ [LF])).
      split; [by rewrite <-app_assoc|]. right. by exists r. }
  change (universal_newlines (LF :: file_text l2))
    with (LF :: universal_newlines (file_text l2)).
  set (q := universal_newlines (file_text l2)).
  unfold strip.
  destruct s' as [|a s1] eqn:Hs1; [by destruct s0|].
  assert (graphic a = true) as Ha by (simpl in Hgr; by apply andb_true_iff in Hgr as [? _]).
  cbn [app].
  destruct (lstrip_graphic a (s1 ++ LF :: q) Ha
              (length (p ++ a :: s1 ++ LF :: q)) p) as (p' & -> & Hsuf).
  assert (p' = [] ∨ ∃ p0, p' = p0 ++ [LF]) as Hp'.
  { destruct Hp as [->|[p0 ->]].
    - left. by apply suffix_nil_inv.
    - destruct p' as [|y p'] using rev_ind; [by left|]. right.
      apply suffix_snoc_inv_1 in Hsuf as ->. by exists p'. }
  clear Hp Hsuf p.
  assert (p' ++ a :: s1 ++ LF :: q = (p' ++ s0) ++ g :: LF :: q) as ->.
  { change (a :: s1 ++ LF :: q) with ((a :: s1) ++ LF :: q).
    rewrite Hs'. by rewrite <-!app_assoc. }
  destruct (rstrip_graphic (p' ++ s0) g Hg
              (length ((p' ++ s0) ++ g :: LF :: q)) (LF :: q)) as (q' & -> & Hpre).
  assert (q' = [] ∨ ∃ q0, q' = LF :: q0) as Hq'.
  { destruct q' as [|y q']; [by left|]. right.
    apply prefix_cons_inv_1 in Hpre as ->. by exists q'. }
  assert ((p' ++ s0) ++ g :: q' = p' ++ (a :: s1) ++ q') as ->.
  { rewrite Hs'. by rewrite <-!app_assoc. }
  assert (LF ∉ a :: s1) as Hnl by (by apply graphic_no_LF).
  assert (a :: s1 ∈ split_on LF ((a :: s1) ++ q')) as Hmid.
  { destruct Hq' as [->|[q0 ->]].
    - rewrite app_nil_r, split_on_none by done. left.
    - rewrite split_on_app, split_on_none by done. left. }
  destruct Hp' as [->|[p0 ->]]; [done|].
  rewrite <-app_assoc. cbn [app]. rewrite split_on_app.
  apply elem_of_app. by right.
Qed.

Lemma seen_line_loaded f s :
  s ∈ seen_lines f → token s = true → Some s ∈ loaded_ids f.
Proof.
  unfold seen_lines, loaded_ids, load_seen_work_ids. simpl.
  destruct (seen_work_ids_txt f) as [lines|]; simpl; [|by intros ?%elem_of_nil].
  intros Hs Htok. apply elem_of_union. right.
  apply elem_of_list_to_set, list_elem_of_fmap_2.
  by apply token_line_loaded.
Qed.




(** ** The sampling engine *)

(** Claim C1.  Strata sampling of a page over strictly increasing bins.
    [m] is the least positive per-bin population of the page, and [0],
    with an empty sample, when no item falls into a bin.  The sampling
    raises no exception.  When it returns, a bin without items on the page
    has contributed nothing, and from every other bin exactly [m] of its
    items on this page were taken without replacement (with some rest they
    are a permutation of the bin's items), namely the sample that
    [random.sample] takes from the bin with the draws of the generator
    ([sample_of]); every sampled item lies in a bin.  The sample is drawn
    uniformly.  A bin within [setsize] goes through the pool, and the
    vectors of in-range draws correspond one to one to the arrangements of
    [m] items of the bin ([pool_uniform]).  Of a larger bin the items at
    the first [m] distinct indices drawn are taken, a selection that
    prefers no index ([first_occurrences_uniform]).  Only for such a
    larger bin can the sampling fail to return, namely when the generator
    keeps returning indices that are already selected.  With populations
    5, 2 and 0 in the bins of [0; 100; 500; 1000] the sample has 2, 2 and
    0 items of them. *)
Theorem strata_sampling_balanced E pct works n bins w :
  Sorted Z.lt bins →
  ∃ m,
    min_positive_count bins works m
    ∧ match apply_sampling E Strata pct works n bins w with
      | Ret sampled w' =>
          (∀ b, b ∈ bin_pairs bins →
             if decide (bin_items b works = []) then bin_items b sampled = []
             else length (bin_items b sampled) = m
                  ∧ (∃ rest, bin_items b sampled ++ rest ≡ₚ bin_items b works)
                  ∧ (∃ offset t : nat,
                       sample_of E offset (bin_items b works) m t (bin_items b sampled))
                  ∧ pool_uniform (bin_items b works) m)
          ∧ (∀ x, x ∈ sampled → ∃ b, b ∈ bin_pairs bins ∧ in_bin (w_kudos x) b)
          ∧ (m = 0%nat → sampled = [])
          ∧ (bins = [0; 100; 500; 1000] →
             length (bin_items (0, 100) works) = 5%nat →
             length (bin_items (100, 500) works) = 2%nat →
             length (bin_items (500, 1000) works) = 0%nat →
             length (bin_items (0, 100) sampled) = 2%nat
             ∧ length (bin_items (100, 500) sampled) = 2%nat
             ∧ length (bin_items (500, 1000) sampled) = 0%nat)
      | Stop _ _ => False
      | Diverge _ =>
          ∃ b, b ∈ bin_pairs bins
               ∧ setsize (Z.of_nat m) < Z.of_nat (length (bin_items b works))
               ∧ redraws_exhausted E (length (bin_items b works)) m
      end
    ∧ first_occurrences_uniform.
Proof.
  intros Hs.
  destruct (strata_sampling_spec E pct works n bins w Hs) as (m & Hm & Hout).
  exists m. split; [done|]. split; [|apply first_occurrences_uniformity].
  destruct (apply_sampling E Strata pct works n bins w) as [sampled w'|h w'|w'];
    [|done..].
  destruct Hout as (Hbins & Hin & H0).
  assert (∀ b, b ∈ bin_pairs bins → bin_items b works ≠ [] →
               (m ≤ length (bin_items b works))%nat) as Hle.
  { intros b Hb Hne. destruct Hm as [[Hall _]|(_ & _ & Hle)]; [|by apply Hle].
    by destruct (Hne (Hall b Hb)). }
  split_and!; [|done..|].
  - intros b Hb. specialize (Hbins b Hb).
    destruct (decide (bin_items b works = [])) as [|Hne]; [done|].
    destruct Hbins as (Hlen & Hperm & Hsample).
    split_and!; [done..|]. apply pool_select_uniform. by apply Hle.
  - intros -> H5 H2 H0'.
    assert (bin_pairs [0; 100; 500; 1000] = [(0, 100); (100, 500); (500, 1000)]) as Hp
      by reflexivity.
    unfold min_positive_count in Hm. rewrite Hp in Hm, Hbins.
    assert (bin_items (0, 100) works ≠ []) as Hne1 by (intros He; by rewrite He in H5).
    assert (bin_items (100, 500) works ≠ []) as Hne2 by (intros He; by rewrite He in H2).
    assert (bin_items (500, 1000) works = []) as He3 by (by apply length_zero_iff_nil).
    assert (m = 2%nat) as ->.
    { destruct Hm as [[Hall _]|(Hpos & (b & Hb & Hlen) & Hle')].
      - exfalso. apply Hne1, Hall. left.
      - assert (m ≤ 2)%nat by (rewrite <-H2; apply Hle'; [right; left|done]).
        apply elem_of_cons in Hb as [->|Hb]; [lia|].
        apply elem_of_cons in Hb as [->|Hb]; [lia|].
        apply list_elem_of_singleton in Hb as ->. lia. }
    pose proof (Hbins (0, 100)) as B1. pose proof (Hbins (100, 500)) as B2.
    pose proof (Hbins (500, 1000)) as B3.
    rewrite decide_False in B1 by done. rewrite decide_False in B2 by done.
    rewrite decide_True in B3 by done.
    split_and!.
    + apply B1. left.
    + apply B2. right; left.
    + rewrite B3; [done|]. right; right; left.
Qed.

Lemma strata_sampling_balanced_witness :
  Sorted Z.lt demo_bins
  ∧ ∃ sampled w',
      apply_sampling two_works Strata 50 page_5_2_0 3 demo_bins (boot no_files)
      = Ret sampled w'
      ∧ length (bin_items (0, 100) sampled) = 2%nat
      ∧ length (bin_items (100, 500) sampled) = 2%nat
      ∧ length (bin_items (500, 1000) sampled) = 0%nat.
Proof.
  assert (Sorted Z.lt demo_bins) as Hs by (repeat constructor).
  split; [exact Hs|].
  destruct (strata_sampling_balanced two_works 50 page_5_2_0 3 demo_bins (boot no_files) Hs)
    as (m & _ & Hout & _).
  destruct (apply_sampling two_works Strata 50 page_5_2_0 3 demo_bins (boot no_files))
    as [sampled w'|h w'|w'] eqn:Hrun.
  - exists sampled, w'. split; [reflexivity|]. apply Hout; reflexivity.
  - destruct Hout.
  - vm_compute in Hrun. discriminate Hrun.
Defined.

(** Claim C9.  For a stride [n >= 1] systematic sampling takes one draw;
    the start [r] is that draw reduced to [0, n), and the sample is the list
    of the items at the positions [r], [r + n], [r + 2n], ... in their
    order, [ceil((len - r) / n)] of them.  For [n = 3] and 7 items these are
    the items at those of the positions [r], [r + 3], [r + 6] that exist:
    3 items for [r = 0] and 2 otherwise. *)
Theorem systematic_sampling E pct (works : list Work) n bins w :
  1 ≤ n →
  let stride := Z.to_nat n in
  let r := (entropy E (draws w) `mod` stride)%nat in
  let sampled := slice_step stride r works in
  (r < stride)%nat
  ∧ apply_sampling E Systematic pct works n bins w = Ret sampled (use_draws 1 w)
  ∧ (∀ k : nat, sampled !! k = works !! (r + k * stride)%nat)
  ∧ length sampled = ((length works - r + (stride - 1)) `div` stride)%nat
  ∧ (n = 3 → length works = 7%nat →
     sampled = omap (λ i, works !! i) [r; (r + 3)%nat; (r + 6)%nat]
     ∧ length sampled = if decide (r = 0%nat) then 3%nat else 2%nat).
Proof.
  intros Hn stride r sampled.
  assert (1 ≤ stride)%nat as Hstride by (unfold stride; lia).
  assert (r < stride)%nat as Hr by (apply Nat.mod_upper_bound; lia).
  split_and!; try done.
  - unfold apply_sampling, randint.
    destruct (n - 1 <? 0) eqn:Hneg; [lia|].
    rewrite !mbind_unfold. cbn [randbelow].
    replace (Z.to_nat (n - 1 - 0 + 1)) with stride by (unfold stride; lia).
    fold r. cbn [mret M_ret ret use_draws].
    by rewrite Z.add_0_l, Nat2Z.id.
  - intros k. by apply slice_step_lookup.
  - by apply slice_step_length.
  - intros -> Hlen. subst sampled. change stride with 3%nat in *.
    do 8 (destruct works as [|? works]; try done).
    destruct r as [|[|[|r]]]; [done..|lia].
Qed.

Lemma systematic_sampling_witness :
  1 ≤ 3
  ∧ apply_sampling (drawing 1) Systematic 50 page_5_2_0 3 demo_bins (boot no_files)
    = Ret [listed "b" 120; listed "e" 400] (use_draws 1 (boot no_files)).
Proof.
  assert (1 ≤ 3) as Hn by lia.
  split; [exact Hn|].
  destruct (systematic_sampling (drawing 1) 50 page_5_2_0 3 demo_bins (boot no_files) Hn)
    as (_ & Hrun & _).
  exact Hrun.
Defined.

(** ** Rate limiting and retries *)

(** Claim C5, as the code has it.  A request changes no file, nor the
    seen-set or the counters.  Rate limiting is recognised by the marker
    alone, in a response whose status is not 4xx or 5xx: on such a response
    to a listing request or to a work-page request the run stops at once.
    An error status, 429 included, is handled before the marker is looked
    for: the listing is requested again (three attempts in all, see
    [fetch_listing_exhausted]), and a work page gives the date ["Unknown"]
    with neither a retry nor a stop. *)
Theorem marker_halts_status_retries E page w :
  let w1 := fetched (PageUrl page) w in
  (files w1 = files w ∧ seen_work_ids w1 = seen_work_ids w
   ∧ strata_counts w1 = strata_counts w ∧ requests w1 = S (requests w))
  ∧ match net E (requests w) (PageUrl page) with
    | NetError =>
        fetch_listing E page max_retries w = fetch_listing E page 2 w1
    | Http status body =>
        if raise_for_status status
        then fetch_listing E page max_retries w = fetch_listing E page 2 w1
        else if retry_later body
        then fetch_listing E page max_retries w = Stop (RateLimited page) w1
             ∧ ∀ fuel end_page mwc smp c,
                 truthy end_page && (page >? default 0 end_page) = false →
                 page_loop E (S fuel) end_page mwc smp page c w
                 = Stop (RateLimited page) w1
        else fetch_listing E page max_retries w = Ret body w1
    end
  ∧ (∀ work_url,
       let w2 := fetched (WorkUrl work_url) w in
       match net E (requests w) (WorkUrl work_url) with
       | NetError => fetch_date_published E work_url page w = Ret "Unknown"%string w2
       | Http status body =>
           if raise_for_status status
           then fetch_date_published E work_url page w = Ret "Unknown"%string w2
           else if retry_later body
           then fetch_date_published E work_url page w = Stop (RateLimited page) w2
           else fetch_date_published E work_url page w = Ret (dd_published body) w2
       end).
Proof.
  intros w1. split; [done|]. split.
  - unfold max_retries. cbn [fetch_listing]. rewrite mbind_unfold. cbn [requests_get].
    fold w1. destruct (net E (requests w) (PageUrl page)) as [|status body] eqn:Hnet;
      [done|].
    rewrite mbind_unfold. unfold handle_rate_limit.
    destruct (raise_for_status status) eqn:Hst; [done|].
    destruct (retry_later body) eqn:Hm; [|done].
    split; [done|]. intros fuel end_page mwc smp c Hend.
    rewrite page_loop_unfold, Hend. unfold page_body, max_retries.
    rewrite mbind_unfold. cbn [fetch_listing]. rewrite mbind_unfold. cbn [requests_get].
    rewrite Hnet, mbind_unfold. unfold handle_rate_limit. by rewrite Hst, Hm.
  - intros work_url w2. unfold fetch_date_published.
    rewrite mbind_unfold. cbn [requests_get]. fold w2.
    destruct (net E (requests w) (WorkUrl work_url)) as [|status body]; [done|].
    rewrite mbind_unfold. unfold handle_rate_limit.
    destruct (raise_for_status status); [done|].
    by destruct (retry_later body).
Qed.

(** A listing that fails three times in a row ends the run. *)
Lemma fetch_listing_exhausted E page w :
  (∀ k, failed_attempt (net E k (PageUrl page)) = true) →
  fetch_listing E page max_retries w
  = Stop (RetriesExhausted page)
         (fetched (PageUrl page) (fetched (PageUrl page) (fetched (PageUrl page) w))).
Proof.
  intros Hfail. unfold max_retries.
  assert (∀ w', fetch_listing E page 1 w' = Stop (RetriesExhausted page)
                                              (fetched (PageUrl page) w')) as H1.
  { intros w'. cbn [fetch_listing]. rewrite mbind_unfold. cbn [requests_get].
    specialize (Hfail (requests w')).
    destruct (net E (requests w') (PageUrl page)) as [|status body]; [done|].
    rewrite mbind_unfold. unfold handle_rate_limit. simpl in Hfail. by rewrite Hfail. }
  assert (∀ n w', fetch_listing E page (S (S n)) w'
                  = fetch_listing E page (S n) (fetched (PageUrl page) w')) as H2.
  { intros n w'. cbn [fetch_listing]. rewrite mbind_unfold. cbn [requests_get].
    specialize (Hfail (requests w')).
    destruct (net E (requests w') (PageUrl page)) as [|status body]; [done|].
    rewrite mbind_unfold. unfold handle_rate_limit. simpl in Hfail. by rewrite Hfail. }
  by rewrite !H2, H1.
Qed.

(** ** Everything but the page loop comes to an end *)

Lemma settles_ret {A} (a : A) : settles (mret a).
Proof. by intros w w'. Qed.

Lemma settles_halt {A} h : settles (halt (A:=A) h).
Proof. by intros w w'. Qed.

Lemma settles_modify g : settles (modify g).
Proof. by intros w w'. Qed.

Lemma settles_bind {A B} (m : M A) (f : A → M B) :
  settles m → (∀ a, settles (f a)) → settles (m ≫= f).
Proof.
  intros Hm Hf w w'. rewrite mbind_unfold. specialize (Hm w).
  destruct (m w) as [a w1|h w1|w1]; [apply Hf|done|]. by destruct (Hm w1).
Qed.

Lemma settles_get {B} (f : World → M B) :
  (∀ w, settles (f w)) → settles (get_world ≫= f).
Proof. intros Hf w w'. rewrite mbind_unfold. apply Hf. Qed.

Lemma settles_handle_rate_limit status body page :
  settles (handle_rate_limit status body page).
Proof. unfold handle_rate_limit. by repeat case_match. Qed.

Lemma settles_requests_get E u : settles (requests_get E u).
Proof. by intros w w'. Qed.

Lemma settles_fetch_listing E page left : settles (fetch_listing E page left).
Proof.
  induction left as [|left IH]; cbn [fetch_listing]; [apply settles_halt|].
  assert (settles (match left with
                   | O => halt (RetriesExhausted page)
                   | S _ => fetch_listing E page left
                   end)) as Hretry
    by (destruct left; [apply settles_halt|done]).
  apply settles_bind; [apply settles_requests_get|].
  intros [|status body]; [done|].
  apply settles_bind; [apply settles_handle_rate_limit|].
  intros []; [apply settles_ret|done].
Qed.

Lemma settles_scrape_single_work E work page bins :
  settles (scrape_single_work E work page bins).
Proof.
  unfold scrape_single_work.
  destruct (w_title work) as [[title href]|]; [|apply settles_ret].
  apply settles_get. intros w. case_decide; [apply settles_ret|].
  apply settles_bind.
  { unfold fetch_date_published.
    apply settles_bind; [apply settles_requests_get|].
    intros [|status body]; [apply settles_ret|].
    apply settles_bind; [apply settles_handle_rate_limit|]. intros. apply settles_ret. }
  intros d. apply settles_bind.
  { destruct (w_id work); [apply settles_modify|].
    apply settles_bind; [apply settles_modify|intros; apply settles_halt]. }
  intros _. apply settles_bind; [|intros; apply settles_modify].
  unfold count_in_bin. case_match; [|apply settles_ret].
  apply settles_get. intros w'. case_match; [apply settles_modify|apply settles_halt].
Qed.

Lemma settles_item_loop E page bins mwc : ∀ sampled c,
  settles (item_loop E sampled page bins mwc c).
Proof.
  induction sampled as [|work rest IH]; intros c; cbn [item_loop];
    [apply settles_ret|].
  apply settles_get. intros w. case_decide; [done|].
  apply settles_bind; [apply settles_scrape_single_work|]. intros _.
  case_match; [apply settles_ret|done].
Qed.

Lemma item_loop_break E page bins mwc : ∀ sampled c w c' w',
  item_loop E sampled page bins mwc c w = Ret (c', true) w' →
  truthy mwc = true ∧ default 0 mwc ≤ c'.
Proof.
  induction sampled as [|work rest IH]; intros c w c' w' Hrun; [done|].
  cbn [item_loop] in Hrun. rewrite mbind_unfold in Hrun. cbn [get_world] in Hrun.
  case_decide; [by eapply IH|].
  rewrite mbind_unfold in Hrun.
  destruct (scrape_single_work E work page bins w) as [[] w1|h w1|w1]; [|done..].
  destruct (truthy mwc && (c + 1 >=? default 0 mwc)) eqn:Hmax; [|by eapply IH].
  change (Ret (c + 1, true) w1 = Ret (c', true) w') in Hrun. simplify_eq.
  apply andb_true_iff in Hmax as [? Hge]. by apply Z.geb_le in Hge.
Qed.

#[local] Instance log_grows_preorder : PreOrder log_grows.
Proof.
  split.
  - intros w. by exists [].
  - intros w1 w2 w3 [e1 H1] [e2 H2]. exists (e2 ++ e1). by rewrite H2, H1, app_assoc.
Qed.

Lemma item_loop_log_grows E sampled page bins mwc c :
  run_rel log_grows (item_loop E sampled page bins mwc c).
Proof.
  apply run_rel_item_loop; first [apply _ | idtac].
  - intros u w. by exists [EvFetch u].
  - intros k w. by exists [].
  - intros w. by exists [EvStrataSaved].
  - intros row w _ _. by eexists [_; _].
  - intros i row w _ _. by eexists [_; _; _].
Qed.

(** Claim C6, as the code has it.  [last_visited_page.txt] is written with
    the page number once the listing of a page is fetched and sampled and
    before the first of its items is processed: the turn for the page is
    the loop over the sampled items run on the world in which the file
    already names the page, so what is requested and recorded for the
    items is logged after the write, and however that loop ends (it
    returns, it breaks off at the maximum count, or the run stops in the
    middle of the page) the file names that page.  A stop while the
    listing is requested, or an exception raised by the sampling, comes
    before the write and leaves the file as it was before the turn: after
    page [p] has been completed, a stop on the request for [p + 1] leaves
    [p] in the file.  When the turn completes, the loop goes on with
    [page + 1] without writing the file.  When the maximum count breaks
    the turn off, the page loop returns, and the clean-up of [main] then
    removes the file.  The requests and the loop over the items always
    come to an end. *)
Theorem page_file_names_last_visited E end_page mwc smp fuel page c w :
  truthy end_page && (page >? default 0 end_page) = false →
  match fetch_listing E page max_retries w with
  | Ret soup w1 =>
      match apply_sampling E (sampling_strategy smp) (sampling_percentage smp)
                           (li_works soup) (sampling_n smp) (kudos_bins smp) w1 with
      | Ret sampled w2 =>
          let items := item_loop E sampled page (kudos_bins smp) mwc c in
          page_body E mwc smp page c w = items (save_page page w2)
          ∧ last_visited_page_txt (files (save_page page w2)) = Some page
          ∧ last_visited_page_txt (files (final_world (items (save_page page w2))))
            = Some page
          ∧ (∃ evs, trace (final_world (items (save_page page w2)))
                    = evs ++ EvPageSaved page :: trace w2)
          ∧ match items (save_page page w2) with
            | Ret (c', false) w' =>
                page_loop E (S fuel) end_page mwc smp page c w
                = page_loop E fuel end_page mwc smp (page + 1) c' w'
            | Ret (c', true) w' =>
                page_loop E (S fuel) end_page mwc smp page c w = Ret tt w'
                ∧ truthy mwc = true
                ∧ last_visited_page_txt (files (cleanup w')) = None
            | Stop h w' => page_loop E (S fuel) end_page mwc smp page c w = Stop h w'
            | Diverge _ => False
            end
      | Stop h w2 =>
          page_loop E (S fuel) end_page mwc smp page c w = Stop h w2
          ∧ last_visited_page_txt (files w2) = last_visited_page_txt (files w)
      | Diverge w2 =>
          page_loop E (S fuel) end_page mwc smp page c w = Diverge w2
          ∧ last_visited_page_txt (files w2) = last_visited_page_txt (files w)
      end
  | Stop h w1 =>
      page_loop E (S fuel) end_page mwc smp page c w = Stop h w1
      ∧ last_visited_page_txt (files w1) = last_visited_page_txt (files w)
  | Diverge _ => False
  end.
Proof.
  intros Hend. rewrite page_loop_unfold, Hend. unfold page_body. rewrite mbind_unfold.
  pose proof (fetch_listing_same_page_file E page max_retries w) as H1.
  pose proof (settles_fetch_listing E page max_retries w) as Hsettles1.
  destruct (fetch_listing E page max_retries w) as [soup w1|h w1|w1];
    [|done|by destruct (Hsettles1 w1)].
  rewrite mbind_unfold.
  pose proof (apply_sampling_same_page_file E (sampling_strategy smp)
                (sampling_percentage smp) (li_works soup) (sampling_n smp)
                (kudos_bins smp) w1) as H2.
  unfold same_page_file in *. simpl in H1.
  destruct (apply_sampling _ _ _ _ _ _ w1) as [sampled w2|h w2|w2]; simpl in H2;
    [|split; [done|congruence]..].
  rewrite mbind_unfold. cbn [modify]. cbv zeta.
  set (w3 := save_page page w2).
  pose proof (item_loop_same_page_file E sampled page (kudos_bins smp) mwc c w3) as H3.
  pose proof (item_loop_log_grows E sampled page (kudos_bins smp) mwc c w3) as [evs H4].
  pose proof (settles_item_loop E page (kudos_bins smp) mwc sampled c w3) as Hsettles3.
  pose proof (item_loop_break E page (kudos_bins smp) mwc sampled c w3) as Hbreak.
  split_and!; [done|done|exact H3|by exists evs|].
  destruct (item_loop E sampled page (kudos_bins smp) mwc c w3) as [[c' []] w'|h w'|w'];
    [|done|done|by destruct (Hsettles3 w')].
  destruct (Hbreak _ _ eq_refl) as [Hmax _]. done.
Qed.

Lemma page_file_names_last_visited_witness :
  truthy None && (1 >? default 0 None) = false
  ∧ page_body limited_on_page_2 None (mkSampling NoSampling 50 3 demo_bins) 1 0
              (boot no_files)
    = item_loop limited_on_page_2 [listed "1" 5] 1 demo_bins None 0
                (save_page 1 (fetched (PageUrl 1) (boot no_files)))
  ∧ last_visited_page_txt (files (final_world
       (item_loop limited_on_page_2 [listed "1" 5] 1 demo_bins None 0
                  (save_page 1 (fetched (PageUrl 1) (boot no_files)))))) = Some 1.
Proof.
  split; [reflexivity|].
  pose proof (page_file_names_last_visited limited_on_page_2 None None
                (mkSampling NoSampling 50 3 demo_bins) 0 1 0 (boot no_files) eq_refl) as H.
  change (fetch_listing limited_on_page_2 1 max_retries (boot no_files))
    with (Ret (A:=Body) (mkBody false [listed "1" 5] "") (fetched (PageUrl 1) (boot no_files)))
    in H.
  cbv beta iota in H.
  change (apply_sampling limited_on_page_2 _ _ _ _ _ (fetched (PageUrl 1) (boot no_files)))
    with (Ret [listed "1" 5] (fetched (PageUrl 1) (boot no_files))) in H.
  cbv beta iota zeta in H.
  destruct H as (Hbody & _ & Hfile & _).
  split; [exact Hbody|exact Hfile].
Defined.

(** ** Sampling an empty page *)

Lemma sample_size_of_empty pct w : percentage_fits pct → sample_size_of 0 pct w = Ret 0 w.
Proof.
  unfold percentage_fits, sample_size_of, int_true_divide. change (100 =? 0) with false.
  cbv match. by destruct (SFdiv prec emax (exact_int pct) (exact_int 100)).
Qed.

Lemma empty_bins_all_empty bins : Forall (λ it, it.2 = []) (empty_bins bins).
Proof.
  unfold empty_bins.
  assert (∀ (l : list (Z * Z)) (acc : list ((Z * Z) * list Work)),
            Forall (λ it, it.2 = []) acc →
            Forall (λ it, it.2 = []) (foldl (λ d b, dict_set b [] d) acc l)) as H.
  { induction l as [|b l IH]; intros acc Hacc; [done|]. simpl. apply IH.
    clear IH. induction Hacc as [|[k v] acc Hv Hacc IH]; simpl.
    - by constructor.
    - case_decide; constructor; done. }
  by apply H.
Qed.

Lemma strata_draw_all_empty E mc items : ∀ acc w,
  Forall (λ it, it.2 = []) items → strata_draw E items mc acc w = Ret acc w.
Proof.
  induction items as [|[b wb] items IH]; intros acc w Hall; [done|].
  apply Forall_cons in Hall as [Hwb Hall]. simpl in Hwb. subst wb.
  cbn [strata_draw]. simpl. by apply IH.
Qed.

Lemma apply_sampling_empty E strategy pct n bins w :
  (strategy = Systematic → 1 ≤ n) →
  (strategy = Random → percentage_fits pct) →
  ∃ k, apply_sampling E strategy pct [] n bins w = Ret [] (use_draws k w).
Proof.
  intros Hn Hpct. destruct strategy; cbn [apply_sampling].
  - exists 0%nat. unfold categorize. simpl.
    rewrite strata_draw_all_empty by apply empty_bins_all_empty.
    destruct w. unfold use_draws. simpl. by rewrite Nat.add_0_r.
  - exists 0%nat. simpl length. rewrite mbind_unfold.
    change (Z.of_nat 0) with 0. rewrite sample_size_of_empty by auto. done.
  - exists 1%nat. specialize (Hn eq_refl). unfold randint.
    destruct (n - 1 <? 0) eqn:Hneg; [lia|]. by rewrite !mbind_unfold.
  - exists 0%nat. destruct w. unfold use_draws. simpl. by rewrite Nat.add_0_r.
Qed.

Lemma page_body_empty E mwc smp page c w :
  (sampling_strategy smp = Systematic → 1 ≤ sampling_n smp) →
  (sampling_strategy smp = Random → percentage_fits (sampling_percentage smp)) →
  empty_listing (net E (requests w) (PageUrl page)) →
  ∃ k, page_body E mwc smp page c w
       = Ret (c, false) (save_page page (use_draws k (fetched (PageUrl page) w))).
Proof.
  intros Hn Hpct Hempty. unfold page_body, max_retries.
  rewrite mbind_unfold. cbn [fetch_listing]. rewrite mbind_unfold. cbn [requests_get].
  destruct (net E (requests w) (PageUrl page)) as [|status body]; [done|].
  destruct Hempty as (Hst & Hm & Hworks).
  rewrite mbind_unfold. unfold handle_rate_limit. rewrite Hst, Hm.
  cbn [mret M_ret ret]. rewrite Hworks, mbind_unfold.
  destruct (apply_sampling_empty E (sampling_strategy smp) (sampling_percentage smp)
              (sampling_n smp) (kudos_bins smp) (fetched (PageUrl page) w) Hn Hpct)
    as [k ->].
  exists k. by rewrite mbind_unfold.
Qed.

(** Claim C8, as the code has it.  There is no test for an empty page.
    When no end page is set and every listing page is empty, the page loop
    writes the position file and moves on to the next page, turn after
    turn: for every amount of fuel it is still running, after one request
    per turn, whether or not a maximum count is set.  (The sampling of an
    empty page must not raise: the stride of the systematic strategy is
    positive, and the percentage of the random strategy is not so large
    that dividing it by 100 overflows.) *)
Theorem empty_pages_never_stop E end_page mwc smp :
  truthy end_page = false →
  (sampling_strategy smp = Systematic → 1 ≤ sampling_n smp) →
  (sampling_strategy smp = Random → percentage_fits (sampling_percentage smp)) →
  (∀ k p, empty_listing (net E k (PageUrl p))) →
  ∀ fuel page c w,
    ∃ w', page_loop E fuel end_page mwc smp page c w = Diverge w'
          ∧ requests w' = (requests w + fuel)%nat
          ∧ ((0 < fuel)%nat →
             last_visited_page_txt (files w') = Some (page + Z.of_nat fuel - 1)).
Proof.
  intros Hend Hn Hpct Hempty. induction fuel as [|fuel IH]; intros page c w.
  - exists w. split; [done|]. split; [by rewrite Nat.add_0_r|]. intros H. inversion H.
  - rewrite page_loop_unfold, Hend. cbn [andb].
    destruct (page_body_empty E mwc smp page c w Hn Hpct (Hempty _ _)) as [k ->].
    destruct (IH (page + 1) c (save_page page (use_draws k (fetched (PageUrl page) w))))
      as (w' & Hrun & Hreq & Hlvp).
    exists w'. split; [done|]. split; [simpl in Hreq; lia|].
    intros _. destruct fuel as [|fuel].
    + simpl in Hrun. simplify_eq. simpl. f_equal. lia.
    + rewrite Hlvp by lia. f_equal. lia.
Qed.

Lemma empty_pages_never_stop_witness :
  truthy None = false
  ∧ (sampling_strategy (mkSampling Random 50 3 demo_bins) = Systematic →
     1 ≤ sampling_n (mkSampling Random 50 3 demo_bins))
  ∧ (sampling_strategy (mkSampling Random 50 3 demo_bins) = Random →
     percentage_fits (sampling_percentage (mkSampling Random 50 3 demo_bins)))
  ∧ (∀ k p, empty_listing (net no_works k (PageUrl p)))
  ∧ ∃ w', page_loop no_works 3 None None (mkSampling Random 50 3 demo_bins) 1 0
                    (boot no_files) = Diverge w'
          ∧ requests w' = 3%nat.
Proof.
  assert (sampling_strategy (mkSampling Random 50 3 demo_bins) = Systematic →
          1 ≤ sampling_n (mkSampling Random 50 3 demo_bins)) as Hn
    by (intros _; simpl; lia).
  assert (sampling_strategy (mkSampling Random 50 3 demo_bins) = Random →
          percentage_fits (sampling_percentage (mkSampling Random 50 3 demo_bins))) as Hpct
    by (intros _; exact I).
  assert (∀ k p, empty_listing (net no_works k (PageUrl p))) as Hempty
    by (intros k p; simpl; auto).
  split; [reflexivity|]. split; [exact Hn|]. split; [exact Hpct|]. split; [exact Hempty|].
  destruct (empty_pages_never_stop no_works None None
              (mkSampling Random 50 3 demo_bins) eq_refl Hn Hpct Hempty 3%nat 1 0
              (boot no_files)) as (w' & Hrun & Hreq & _).
  exists w'. split; [exact Hrun|exact Hreq].
Defined.

(** ** Reaching the maximum count *)

Lemma page_body_break E mwc smp page c w c' w' :
  page_body E mwc smp page c w = Ret (c', true) w' →
  truthy mwc = true ∧ default 0 mwc ≤ c'.
Proof.
  unfold page_body. rewrite mbind_unfold.
  destruct (fetch_listing E page max_retries w) as [soup w1|h w1|w1]; [|done..].
  rewrite mbind_unfold.
  destruct (apply_sampling _ _ _ _ _ _ w1) as [sampled w2|h w2|w2]; [|done..].
  rewrite mbind_unfold. cbn [modify]. apply item_loop_break.
Qed.

Lemma startup_keeps_state_files cfg f : keeps_state_files (boot f) (startup cfg (boot f)).
Proof.
  unfold keeps_state_files, startup, load_seen_work_ids, open_csv.
  destruct f as [lvp [seen|] strata [rows|]], (cfg_file_mode cfg); simpl;
    split_and!; done.
Qed.

(** ** Clean-up *)

(** Claim C2, as the code has it.  [main] removes the three state files
    exactly when the page loop returns.  The loop returns when the end page
    is passed and also when [max_work_count] is reached in the middle of a
    page: [should_break] ends the loop while [last_visited_page.txt] names
    the interrupted page, and the clean-up of [main] then removes it with
    the other two files.  When the run is stopped ([exit(0)] on the
    rate-limit marker or after the last retry, or an exception nobody
    catches) the clean-up is not reached: the files are those at the stop,
    and a state file that existed at the start still exists. *)
Theorem state_files_cleared_whenever_loop_returns E fuel cfg f :
  let p := first_page cfg (boot f) in
  let w0 := startup cfg (boot f) in
  match page_loop E fuel (last_page cfg) (cfg_max_work_count cfg) (cfg_sampling cfg) p 0 w0 with
  | Ret _ wl =>
      main E fuel cfg (boot f) = Ret tt (cleanup wl)
      ∧ last_visited_page_txt (files (cleanup wl)) = None
      ∧ seen_work_ids_txt (files (cleanup wl)) = None
      ∧ strata_counts_json (files (cleanup wl)) = None
  | Stop h wl =>
      main E fuel cfg (boot f) = Stop h wl ∧ keeps_state_files (boot f) wl
  | Diverge wl => main E fuel cfg (boot f) = Diverge wl
  end
  ∧ ∀ c w1,
      page_body E (cfg_max_work_count cfg) (cfg_sampling cfg) p 0 w0 = Ret (c, true) w1 →
      truthy (cfg_max_work_count cfg) = true
      ∧ default 0 (cfg_max_work_count cfg) ≤ c
      ∧ main E (S fuel) cfg (boot f) = Ret tt (cleanup w1)
      ∧ last_visited_page_txt (files w1) = Some p
      ∧ last_visited_page_txt (files (cleanup w1)) = None.
Proof.
  intros p w0. split.
  - rewrite main_unfold. fold p w0.
    pose proof (page_loop_keeps_state_files E (last_page cfg) (cfg_max_work_count cfg)
                  (cfg_sampling cfg) fuel p 0 w0) as Hkeep.
    destruct (page_loop _ _ _ _ _ _ _ w0) as [[] wl|h wl|wl]; [done| |done].
    split; [done|]. etrans; [apply (startup_keeps_state_files cfg)|done].
  - intros c w1 Hbody.
    destruct (page_body_break _ _ _ _ _ _ _ _ Hbody) as [Hmax Hle].
    split; [done|]. split; [done|].
    assert (last_page cfg = None) as Hlast by (unfold last_page; by rewrite Hmax).
    pose proof (page_body_ret_page_file _ _ _ _ _ _ _ _ Hbody) as Hlvp.
    rewrite main_unfold, Hlast. fold p w0.
    rewrite page_loop_unfold. cbn [truthy andb]. by rewrite Hbody.
Qed.

(** ** Page range under a maximum count *)

(** Claim C10.  When [max_work_count] is set (to an integer other than 0,
    which is the test the code makes), a run does not depend on the
    configured [start_page] and [end_page]: the page loop runs without end
    page, from the page in [last_visited_page.txt] when there is one other
    than 0, and from page 1 otherwise. *)
Theorem max_count_overrides_page_range E fuel cfg w start_page end_page :
  truthy (cfg_max_work_count cfg) = true →
  let lvp := last_visited_page_txt (files w) in
  main E fuel cfg w
  = main E fuel (mkConfig start_page end_page (cfg_max_work_count cfg)
                          (cfg_file_mode cfg) (cfg_sampling cfg)) w
  ∧ main E fuel cfg w
    = match page_loop E fuel None (cfg_max_work_count cfg) (cfg_sampling cfg)
                      (if truthy lvp then default 0 lvp else 1) 0 (startup cfg w) with
      | Ret _ w' => Ret tt (cleanup w')
      | Stop h w' => Stop h w'
      | Diverge w' => Diverge w'
      end.
Proof.
  intros Hmax lvp. rewrite !main_unfold. unfold last_page, first_page. simpl.
  rewrite Hmax. done.
Qed.

Lemma max_count_overrides_page_range_witness :
  truthy (Some 2) = true
  ∧ main two_works 5 (mkConfig (Some 4) (Some 9) (Some 2) ModeW
                               (mkSampling NoSampling 50 3 demo_bins)) (boot no_files)
    = main two_works 5 (mkConfig None None (Some 2) ModeW
                                 (mkSampling NoSampling 50 3 demo_bins)) (boot no_files).
Proof.
  split; [reflexivity|].
  destruct (max_count_overrides_page_range two_works 5
              (mkConfig (Some 4) (Some 9) (Some 2) ModeW
                        (mkSampling NoSampling 50 3 demo_bins))
              (boot no_files) None None eq_refl) as [Heq _].
  exact Heq.
Defined.

(** ** Resumed runs *)




(** ** Concrete runs *)

(** Claim C2 fails as stated: with [max_work_count = 1] the run stops after the
    first of the two works of page 1, and the three state files are gone. *)
Lemma max_count_stop_removes_state_files :
  main two_works 5 (settings (Some 1) NoSampling) (boot no_files)
  = Ret tt (final_world (main two_works 5 (settings (Some 1) NoSampling) (boot no_files)))
  ∧ sink_ids (files (final_world
       (main two_works 5 (settings (Some 1) NoSampling) (boot no_files)))) = [Some "1"%string]
  ∧ files (final_world (main two_works 5 (settings (Some 1) NoSampling) (boot no_files)))
    = mkFiles None None None
        (csv_file (files (final_world
           (main two_works 5 (settings (Some 1) NoSampling) (boot no_files))))).
Proof. vm_compute. done. Qed.


(** Claim C5 fails as stated: the first response signals rate limiting by
    its status, 429, and the listing is requested twice more before the run
    ends. *)
Lemma status_429_is_retried :
  signals_rate_limit (net always_429 0 (PageUrl 1)) = true
  ∧ (∃ w', main always_429 5 (settings None NoSampling) (boot no_files)
           = Stop (RetriesExhausted 1) w')
  ∧ fetches (final_world (main always_429 5 (settings None NoSampling) (boot no_files)))
    = [PageUrl 1; PageUrl 1; PageUrl 1].
Proof. split; [done|]. split; [eexists|]; vm_compute; done. Qed.

(** Claim C6 fails as stated: page 1 is fully processed, the run halts on the
    request for page 2, and the file still says 1. *)
Lemma halt_on_next_page_keeps_finished_page :
  (∃ w', main limited_on_page_2 5 (settings None NoSampling) (boot no_files)
         = Stop (RateLimited 2) w')
  ∧ sink_ids (files (final_world
       (main limited_on_page_2 5 (settings None NoSampling) (boot no_files))))
    = [Some "1"%string]
  ∧ last_visited_page_txt (files (final_world
       (main limited_on_page_2 5 (settings None NoSampling) (boot no_files)))) = Some 1.
Proof. split; [eexists|]; vm_compute; done. Qed.

(** Claim C8 fails as stated: page 1 has no items, no end page is configured,
    and the controller goes on to pages 2, 3 and 4. *)
Lemma empty_page_is_followed_by_next_page :
  li_works (mkBody false [] "") = []
  ∧ (∃ w', main no_works 4 (settings None NoSampling) (boot no_files) = Diverge w')
  ∧ fetches (final_world (main no_works 4 (settings None NoSampling) (boot no_files)))
    = [PageUrl 1; PageUrl 2; PageUrl 3; PageUrl 4].
Proof. split; [done|]. split; [eexists|]; vm_compute; done. Qed.

(** Claim C3, at an input where the code departs from it.  Under the
    strata strategy, with one work of score 5 on page 1, one record is
    written and the persisted counter of bin [0, 100) is 2:
    [apply_sampling] has added the sample size of the bin before
    [scrape_single_work] adds 1 for the record.  Without sampling the same
    run persists 1. *)
Theorem strata_counter_counts_twice :
  omap row_kudos (default [] (csv_file (files (final_world
     (main limited_on_page_2 5 (settings None Strata) (boot no_files)))))) = [5]
  ∧ persisted_count (final_world
       (main limited_on_page_2 5 (settings None Strata) (boot no_files))) 0 = Some 2
  ∧ persisted_count (final_world
       (main limited_on_page_2 5 (settings None Strata) (boot no_files))) 100 = Some 0
  ∧ persisted_count (final_world
       (main limited_on_page_2 5 (settings None Strata) (boot no_files))) 500 = Some 0
  ∧ persisted_count (final_world
       (main limited_on_page_2 5 (settings None NoSampling) (boot no_files))) 0 = Some 1.
Proof. vm_compute. done. Qed.

(** Claim C7, at an input where the code departs from it.  [work_count]
    is increased after every call of [scrape_single_work], also when the
    entry has no title and nothing is written: with [max_work_count = 1]
    and an entry without title first on the page, the run stops after one
    listing request and no record has been written; with two complete
    entries it writes exactly one. *)
Theorem untitled_entry_uses_up_the_count :
  (∃ w', main untitled_first 5 (settings (Some 1) NoSampling) (boot no_files) = Ret tt w')
  ∧ sink_ids (files (final_world
       (main untitled_first 5 (settings (Some 1) NoSampling) (boot no_files)))) = []
  ∧ fetches (final_world
       (main untitled_first 5 (settings (Some 1) NoSampling) (boot no_files)))
    = [PageUrl 1]
  ∧ sink_ids (files (final_world
       (main two_works 5 (settings (Some 1) NoSampling) (boot no_files)))) = [Some "1"%string].
Proof. split; [eexists|]; vm_compute; done. Qed.

(** * Further properties of the code *)

(** ** What a sample is made of *)

Lemma slice_step_sublist {A} (n : nat) (l : list A) : ∀ skip,
  slice_step n skip l `sublist_of` l.
Proof.
  induction l as [|x l IH]; intros skip; [done|].
  destruct skip as [|s]; simpl.
  - by apply sublist_skip.
  - by apply sublist_cons.
Qed.

Lemma dict_update_values {K} `{EqDecision K} {A} (x : A) (k : K) (d : list (K * list A)) :
  concat (dict_update (λ l, l ++ [x]) k d).*2 ⊆+ x :: concat d.*2.
Proof.
  induction d as [|[k' v] d IH]; [by apply submseteq_nil_l|].
  cbn [dict_update]. case_decide; rewrite !fmap_cons; cbn [snd concat].
  - rewrite <-app_assoc. by rewrite (Permutation_middle v).
  - rewrite (Permutation_middle v). by apply submseteq_app.
Qed.

Lemma categorize_submseteq bins works : concat (categorize bins works).1.*2 ⊆+ works.
Proof.
  induction works as [|x works IH] using rev_ind.
  - unfold categorize. simpl.
    pose proof (empty_bins_all_empty bins) as Hall.
    induction Hall as [|[k v] d Hv _ IHd]; [done|].
    rewrite fmap_cons. simpl in *. by subst v.
  - rewrite categorize_snoc. unfold categorize_work.
    destruct (find_bin bins (w_kudos x)) as [b|]; simpl.
    + etrans; [apply dict_update_values|].
      rewrite <-Permutation_cons_append. by apply submseteq_skip.
    + by apply submseteq_inserts_r.
Qed.

Lemma strata_draw_submseteq E mc : ∀ items sampled w sampled' w',
  strata_draw E items mc sampled w = Ret sampled' w' →
  sampled' ⊆+ sampled ++ concat items.*2.
Proof.
  induction items as [|[b work_bin] items IH]; intros sampled w sampled' w' Hrun.
  - simpl in Hrun. injection Hrun as <- _. by rewrite app_nil_r.
  - cbn [strata_draw] in Hrun. rewrite fmap_cons. cbn [snd concat].
    destruct ((0 <? Z.of_nat (length work_bin)) && (0 <? mc)).
    + rewrite mbind_unfold in Hrun.
      destruct (random_sample E work_bin mc w) as [s w1|h w1|w1] eqn:Hs; [|done..].
      rewrite mbind_unfold in Hrun. cbn [modify] in Hrun.
      etrans; [by eapply IH|].
      rewrite <-app_assoc. apply submseteq_app; [done|].
      apply submseteq_app; [|done]. by eapply random_sample_submseteq.
    + etrans; [by eapply IH|].
      apply submseteq_app; [done|]. by apply submseteq_inserts_l.
Qed.

Lemma apply_sampling_submseteq E strategy pct works n bins w sampled w' :
  apply_sampling E strategy pct works n bins w = Ret sampled w' →
  sampled ⊆+ works.
Proof.
  destruct strategy; cbn [apply_sampling].
  - pose proof (categorize_submseteq bins works) as Hc.
    destruct (categorize bins works) as [items counts]. simpl in Hc.
    intros Hrun. etrans; [by eapply strata_draw_submseteq|]. done.
  - rewrite mbind_unfold.
    destruct (sample_size_of_computes (Z.of_nat (length works)) pct)
      as [[e|size] [-> _]]; [done|].
    apply random_sample_submseteq.
  - unfold randint. case_match; [done|].
    rewrite !mbind_unfold. simpl. intros [= <- _].
    apply sublist_submseteq, slice_step_sublist.
  - by intros [= <- _].
Qed.

(** X1.  Whatever the strategy, the sample that [apply_sampling] returns
    is part of the page: with some rest it is a rearrangement of the works
    on the page.  So no work is sampled more often than it is listed, none
    is made up, the sample is no longer than the page, and it repeats no
    work when the page repeats none. *)
Theorem sample_is_part_of_page E strategy pct works n bins w sampled w' :
  apply_sampling E strategy pct works n bins w = Ret sampled w' →
  sampled ⊆+ works
  ∧ (∃ rest, sampled ++ rest ≡ₚ works)
  ∧ (∀ x, x ∈ sampled → x ∈ works)
  ∧ (length sampled ≤ length works)%nat
  ∧ (NoDup works → NoDup sampled).
Proof.
  intros Hsub%apply_sampling_submseteq. split; [done|].
  pose proof Hsub as [rest Hperm]%submseteq_Permutation.
  split_and!.
  - by exists rest.
  - intros x Hx. by apply (elem_of_submseteq sampled).
  - by apply submseteq_length.
  - rewrite Hperm. by intros [? _]%NoDup_app.
Qed.

Lemma sample_is_part_of_page_witness :
  apply_sampling (drawing 1) Systematic 50 page_5_2_0 3 demo_bins (boot no_files)
  = Ret [listed "b" 120; listed "e" 400] (use_draws 1 (boot no_files))
  ∧ [listed "b" 120; listed "e" 400] ⊆+ page_5_2_0.
Proof.
  assert (apply_sampling (drawing 1) Systematic 50 page_5_2_0 3 demo_bins (boot no_files)
          = Ret [listed "b" 120; listed "e" 400] (use_draws 1 (boot no_files))) as Hrun
    by reflexivity.
  split; [exact Hrun|].
  exact (proj1 (sample_is_part_of_page _ _ _ _ _ _ _ _ _ Hrun)).
Defined.

(** ** Random sampling *)

Lemma sample_size_of_zero len w size w0 :
  sample_size_of len 0 w = Ret size w0 → size = 0.
Proof.
  unfold sample_size_of, int_true_divide. change (100 =? 0) with false. cbv match.
  change (SFdiv prec emax (exact_int 0) (exact_int 100)) with (S754_zero false).
  rewrite mbind_unfold. cbn [mret M_ret ret]. rewrite mbind_unfold.
  unfold float_of_int.
  destruct (binary_normalize prec emax len 0 false); simpl;
    unfold mret, M_ret, ret, halt; congruence.
Qed.

Lemma sample_of_draws {A} E offset (population : list A) (k t : nat) chunk :
  sample_of E offset population k t chunk →
  (k ≤ t)%nat
  ∧ (Z.of_nat (length population) ≤ setsize (Z.of_nat k) → t = k).
Proof.
  unfold sample_of. case_decide.
  - intros [-> _]. done.
  - intros (_ & _ & Hk & _). split; [done|lia].
Qed.

(** X2.  Random sampling asks for [min(len, int(len * (percentage / 100)))]
    works of the page.  The size is computed without a look at the
    world; when the computation raises ([OverflowError] for a percentage
    or a product beyond the floats) the run ends with that exception and
    nothing is drawn, and so it does, with [ValueError], for a negative
    size.  Otherwise no exception is raised, and when the sampling returns
    the sample is the one [random.sample] takes with the draws of the
    generator: it has exactly that many works, holds no work twice when the
    page does not, is empty for a percentage of 0, and has used at least
    one raw draw for each work, exactly one for a page within [setsize].
    The sampling fails to return only on a page beyond [setsize], when the
    generator keeps returning indices that are already selected. *)
Theorem random_sampling_size E pct works n bins w :
  let len := Z.of_nat (length works) in
  match sample_size_of len pct w with
  | Ret sample_size w0 =>
      w0 = w
      ∧ if sample_size <? 0
        then apply_sampling E Random pct works n bins w = Stop (Crashed ValueError) w
        else
          let k := Z.min len sample_size in
          match apply_sampling E Random pct works n bins w with
          | Ret sampled w' =>
              Z.of_nat (length sampled) = k
              ∧ (NoDup works → NoDup sampled)
              ∧ (pct = 0 → sampled = [])
              ∧ ∃ t : nat,
                  w' = use_draws t w
                  ∧ sample_of E (draws w) works (Z.to_nat k) t sampled
                  ∧ (Z.to_nat k ≤ t)%nat
                  ∧ (len ≤ setsize k → t = Z.to_nat k)
          | Stop _ _ => False
          | Diverge _ =>
              setsize k < len ∧ redraws_exhausted E (length works) (Z.to_nat k)
          end
  | Stop h w0 =>
      w0 = w
      ∧ apply_sampling E Random pct works n bins w = Stop h w
      ∧ (h = Crashed OverflowError ∨ h = Crashed ValueError)
  | Diverge _ => False
  end.
Proof.
  intros len. cbn [apply_sampling]. fold len. rewrite mbind_unfold.
  pose proof (sample_size_of_zero len w) as Hzero.
  destruct (sample_size_of_computes len pct) as [[e|size] [Hc He]]; rewrite !Hc.
  { split; [done|]. split; [done|]. destruct He as [->| ->]; auto. }
  split; [done|].
  destruct (size <? 0) eqn:Hneg.
  { unfold random_sample. by replace (Z.min len size <? 0) with true by lia. }
  cbv zeta.
  pose proof (random_sample_cases E works (Z.min len size) w ltac:(lia)) as Hs.
  destruct (random_sample E works (Z.min len size) w) as [s w'|h w'|w']; [|done..].
  destruct Hs as (t & -> & Hlen & [rest Hperm] & Hsample).
  split_and!.
  - lia.
  - intros Hnd. rewrite <-Hperm in Hnd. by apply NoDup_app in Hnd as [? _].
  - intros ->. rewrite Hc in Hzero. rewrite (Hzero size w eq_refl) in Hlen.
    apply length_zero_iff_nil. lia.
  - exists t. destruct (sample_of_draws _ _ _ _ _ _ Hsample) as [Hle Heq].
    split_and!; [done..|].
    intros Hsmall. apply Heq. rewrite Z2Nat.id by lia. done.
Qed.

(** Half of a page of seven works is three works, taken with three draws;
    a tenth of a page of 22 works is two works, for which the generator is
    asked three times when its second draw repeats the first. *)
Lemma random_sampling_examples :
  (∃ sampled,
     apply_sampling two_works Random 50 page_5_2_0 3 demo_bins (boot no_files)
     = Ret sampled (use_draws 3 (boot no_files))
     ∧ length sampled = 3%nat)
  ∧ apply_sampling stuttering Random 10 long_page 3 demo_bins (boot no_files)
    = Ret [listed "w" 0; listed "w" 1] (use_draws 3 (boot no_files)).
Proof. split; [eexists; split|]; vm_compute; reflexivity. Qed.

(** ** What sampling leaves alone *)

Lemma strata_draw_world E mc : ∀ items sampled w,
  ∃ j c, final_world (strata_draw E items mc sampled w)
         = set_strata_counts c (use_draws j w).
Proof.
  induction items as [|[b work_bin] items IH]; intros sampled w; cbn [strata_draw].
  - exists 0%nat, (strata_counts w). rewrite use_draws_0. by destruct w.
  - case_match; [|done]. rewrite mbind_unfold.
    destruct (random_sample_world E work_bin mc w) as [j Hj].
    destruct (random_sample E work_bin mc w) as [s w1|h w1|w1]; simpl in Hj; subst w1.
    + rewrite mbind_unfold. cbn [modify].
      edestruct IH as (j' & c & ->). exists (j + j')%nat, c.
      unfold set_strata_counts, use_draws. simpl. f_equal. lia.
    + exists j, (strata_counts w). by destruct w.
    + exists j, (strata_counts w). by destruct w.
Qed.

Lemma random_strategy_world E pct works n bins w :
  ∃ j, final_world (apply_sampling E Random pct works n bins w) = use_draws j w.
Proof.
  cbn [apply_sampling]. rewrite mbind_unfold.
  destruct (sample_size_of_computes (Z.of_nat (length works)) pct) as [[e|size] [-> _]].
  - exists 0%nat. by rewrite use_draws_0.
  - apply random_sample_world.
Qed.

Lemma apply_sampling_frame E strategy pct works n bins w :
  let w' := final_world (apply_sampling E strategy pct works n bins w) in
  files w' = files w
  ∧ seen_work_ids w' = seen_work_ids w
  ∧ requests w' = requests w
  ∧ trace w' = trace w
  ∧ (draws w ≤ draws w')%nat
  ∧ match strategy with
    | Strata => True
    | _ => strata_counts w' = strata_counts w
    end.
Proof.
  destruct strategy; cbn [apply_sampling].
  - destruct (categorize bins works) as [items counts].
    destruct (strata_draw_world E (min_count_of counts) items [] w) as (j & c & ->).
    simpl. split_and!; try done. lia.
  - destruct (random_strategy_world E pct works n bins w) as [j Hj].
    cbn [apply_sampling] in Hj. rewrite Hj.
    simpl. split_and!; try done. lia.
  - unfold randint. case_match; simpl; split_and!; try done. lia.
  - simpl. done.
Qed.

(** X3.  Sampling reads the page and the generator and nothing else.
    Whatever its outcome, the world it leaves is the one it found with
    some more raw draws used and, under the strata strategy only, with
    other counters: no request is made, no file or record written, nothing
    logged, and the seen-set is as it was. *)
Theorem sampling_only_draws E strategy pct works n bins w :
  ∃ j : nat,
    match strategy with
    | Strata =>
        ∃ c, final_world (apply_sampling E strategy pct works n bins w)
             = set_strata_counts c (use_draws j w)
    | _ => final_world (apply_sampling E strategy pct works n bins w) = use_draws j w
    end.
Proof.
  destruct strategy; cbn [apply_sampling].
  - destruct (categorize bins works) as [items counts].
    destruct (strata_draw_world E (min_count_of counts) items [] w) as (j & c & Hw).
    by exists j, c.
  - apply (random_strategy_world E pct works n bins w).
  - unfold randint. case_match.
    + exists 0%nat. by rewrite use_draws_0.
    + by exists 1%nat.
  - exists 0%nat. by rewrite use_draws_0.
Qed.

(** ** The counters under strata sampling *)

Lemma strata_draw_zero E mc : mc ≤ 0 → ∀ items sampled w,
  strata_draw E items mc sampled w = Ret sampled w.
Proof.
  intros Hmc. induction items as [|[b work_bin] items IH]; intros sampled w; [done|].
  cbn [strata_draw]. replace (0 <? mc) with false by lia.
  rewrite andb_false_r. apply IH.
Qed.

Lemma strata_draw_counts E mc : 0 < mc →
  ∀ items sampled w sampled' w',
    NoDup items.*1.*1 →
    strata_draw E items mc sampled w = Ret sampled' w' →
    (∀ it, it ∈ items →
       strata_counts w' !! it.1.1
       = if decide (it.2 = []) then strata_counts w !! it.1.1
         else Some (default 0 (strata_counts w !! it.1.1) + mc))
    ∧ (∀ s, s ∉ items.*1.*1 → strata_counts w' !! s = strata_counts w !! s)
    ∧ (draws w + Z.to_nat mc * length (filter (λ it, it.2 ≠ []) items) ≤ draws w')%nat
    ∧ ((∀ it, it ∈ items → Z.of_nat (length it.2) ≤ setsize mc) →
       draws w'
       = (draws w + Z.to_nat mc * length (filter (λ it, it.2 ≠ []) items))%nat).
Proof.
  intros Hmc. induction items as [|[b work_bin] items IH];
    intros sampled w sampled' w' Hnd Hrun.
  - simpl in Hrun. injection Hrun as _ <-. split_and!; [|done|simpl; lia|simpl; lia].
    by intros it ?%elem_of_nil.
  - rewrite !fmap_cons in Hnd. cbn [fst] in Hnd.
    apply NoDup_cons in Hnd as [Hb Hnd].
    cbn [strata_draw] in Hrun.
    assert ((0 <? mc) = true) as Hpos by (by apply Z.ltb_lt).
    rewrite Hpos, andb_true_r in Hrun.
    destruct (0 <? Z.of_nat (length work_bin)) eqn:Hlen.
    + assert (work_bin ≠ []) as Hne by (by intros ->).
      rewrite mbind_unfold in Hrun.
      assert (mc ≤ Z.of_nat (length work_bin)) as Hfit.
      { destruct (decide (mc ≤ Z.of_nat (length work_bin))) as [|Hgt]; [done|]. exfalso.
        unfold random_sample in Hrun.
        by replace ((mc <? 0) || (Z.of_nat (length work_bin) <? mc)) with true in Hrun
          by lia. }
      pose proof (random_sample_cases E work_bin mc w ltac:(lia)) as Hs.
      destruct (random_sample E work_bin mc w) as [chunk w1|h w1|w1]; [|done..].
      destruct Hs as (t & -> & _ & _ & Hsample).
      apply sample_of_draws in Hsample as [Hle Heq]. rewrite Z2Nat.id in Heq by lia.
      rewrite mbind_unfold in Hrun. cbn [modify] in Hrun.
      apply IH in Hrun as (Hin & Hout & Hdraws & Hexact); [|done].
      simpl in Hin, Hout, Hdraws, Hexact. split_and!.
      * intros it [->|Hit]%elem_of_cons; simpl.
        -- rewrite decide_False by done. rewrite Hout by done.
           by rewrite lookup_insert_eq.
        -- rewrite Hin by done.
           assert (it.1.1 ≠ b.1) as Hneq.
           { intros Heq'. apply Hb. rewrite <-Heq'.
             by apply list_elem_of_fmap_2, list_elem_of_fmap_2. }
           by rewrite lookup_insert_ne.
      * intros s Hs. rewrite !fmap_cons, not_elem_of_cons in Hs. simpl in Hs.
        destruct Hs as [Hsb Hs]. rewrite Hout by done. by rewrite lookup_insert_ne.
      * rewrite filter_cons_True by done. simpl. lia.
      * intros Hsmall. rewrite filter_cons_True by done. simpl.
        rewrite Hexact by (intros it Hit; apply Hsmall; by right).
        rewrite Heq by (apply (Hsmall (b, work_bin)); left). lia.
    + apply Z.ltb_ge in Hlen.
      assert (work_bin = []) as -> by (destruct work_bin; [done|simpl in Hlen; lia]).
      apply IH in Hrun as (Hin & Hout & Hdraws & Hexact); [|done]. split_and!.
      * intros it [->|Hit]%elem_of_cons; simpl; [|by apply Hin].
        by apply Hout.
      * intros s Hs. rewrite !fmap_cons, not_elem_of_cons in Hs. simpl in Hs.
        destruct Hs as [Hsb Hs]. by apply Hout.
      * rewrite filter_cons_False by (simpl; tauto). done.
      * intros Hsmall. rewrite filter_cons_False by (simpl; tauto).
        apply Hexact. intros it Hit. apply Hsmall. by right.
Qed.

(** The minimum the strata strategy computes for a page. *)
Lemma min_count_of_page bins works : Sorted Z.lt bins →
  let mc := min_count_of (categorize bins works).2 in
  0 ≤ mc
  ∧ min_positive_count bins works (Z.to_nat mc)
  ∧ ∀ b, b ∈ bin_pairs bins → bin_items b works ≠ [] →
         0 < mc ≤ Z.of_nat (length (bin_items b works)).
Proof.
  intros Hs mc.
  assert (NoDup (bin_pairs bins)) as Hnd
    by (eapply NoDup_fmap_1, NoDup_bin_starts; done).
  destruct (categorize_spec bins works Hnd) as [_ Hcnt].
  destruct (min_count_of_spec (categorize bins works).2) as [HA HB].
  fold mc in HA, HB.
  assert (∀ b, b ∈ bin_pairs bins →
               (categorize bins works).2 !! b.1
               = Some (Z.of_nat (length (bin_items b works)))) as Hcount.
  { intros b Hb. rewrite Hcnt, decide_True.
    - by rewrite count_from_bin_items.
    - rewrite <-bin_pairs_starts. by apply list_elem_of_fmap_2. }
  assert (∀ b, b ∈ bin_pairs bins → bin_items b works ≠ [] →
               0 < mc ≤ Z.of_nat (length (bin_items b works))) as Hpos.
  { intros b Hb Hne. apply (HA b.1); [by apply Hcount|].
    destruct (bin_items b works); [done|]. simpl. lia. }
  split; [destruct HB; lia|]. split; [|done].
  destruct HB as [H0|[Hgt [s Hsome]]].
  - left. split; [|lia]. intros b Hb.
    destruct (decide (bin_items b works = [])) as [|Hne]; [done|].
    specialize (Hpos b Hb Hne). lia.
  - right. split; [lia|]. split.
    + rewrite Hcnt in Hsome. case_decide as Hin; [|done].
      rewrite <-bin_pairs_starts in Hin.
      apply list_elem_of_fmap in Hin as (b & -> & Hb).
      exists b. split; [done|].
      rewrite count_from_bin_items in Hsome by done. simplify_eq. lia.
    + intros b Hb Hne. specialize (Hpos b Hb Hne). lia.
Qed.

Lemma length_filter_ext {A} (P Q : A → Prop) `{∀ x, Decision (P x)} `{∀ x, Decision (Q x)}
    (l : list A) :
  (∀ x, x ∈ l → P x ↔ Q x) → length (filter P l) = length (filter Q l).
Proof.
  induction l as [|x l IH]; intros Hext; [done|].
  assert (P x ↔ Q x) as Hx by (apply Hext; left).
  assert (length (filter P l) = length (filter Q l)) as Hl
    by (apply IH; intros y Hy; apply Hext; by right).
  destruct (decide (P x)) as [HP|HP].
  - rewrite !filter_cons_True by tauto. simpl. by rewrite Hl.
  - rewrite !filter_cons_False by tauto. done.
Qed.

Lemma length_filter_fmap {A B} (f : A → B) (P : B → Prop) `{∀ y, Decision (P y)}
    (l : list A) :
  length (filter P (f <$> l)) = length (filter (λ x, P (f x)) l).
Proof.
  induction l as [|x l IH]; [done|]. rewrite fmap_cons.
  destruct (decide (P (f x))).
  - rewrite !filter_cons_True by done. simpl. by rewrite IH.
  - rewrite !filter_cons_False by done. done.
Qed.

(** X4.  Strata sampling of a page over strictly increasing bins, when it
    returns, has added the page's minimum [m] to the global counter of
    every bin that has items on the page, creating the counter at [m] when
    there was none, and has left every other counter as it was.  It has
    taken at least [m] raw draws for each such bin, and exactly [m] when
    the bins of the page are within [setsize].  It raises no exception,
    and it returns unless a bin is beyond [setsize]. *)
Theorem strata_sampling_adds_to_counters E pct works n bins w :
  Sorted Z.lt bins →
  let busy := length (filter (λ b, bin_items b works ≠ []) (bin_pairs bins)) in
  ∃ m,
    min_positive_count bins works m
    ∧ match apply_sampling E Strata pct works n bins w with
      | Ret sampled w' =>
          (∀ b, b ∈ bin_pairs bins →
             strata_counts w' !! b.1
             = if decide (bin_items b works = []) then strata_counts w !! b.1
               else Some (default 0 (strata_counts w !! b.1) + Z.of_nat m))
          ∧ (∀ s, s ∉ removelast bins → strata_counts w' !! s = strata_counts w !! s)
          ∧ (draws w + m * busy ≤ draws w')%nat
          ∧ ((∀ b, b ∈ bin_pairs bins →
                   Z.of_nat (length (bin_items b works)) ≤ setsize (Z.of_nat m)) →
             draws w' = (draws w + m * busy)%nat)
      | Stop _ _ => False
      | Diverge _ =>
          ∃ b, b ∈ bin_pairs bins
               ∧ setsize (Z.of_nat m) < Z.of_nat (length (bin_items b works))
      end.
Proof.
  intros Hs busy.
  assert (NoDup (bin_pairs bins)) as Hnd
    by (eapply NoDup_fmap_1, NoDup_bin_starts; done).
  destruct (categorize_spec bins works Hnd) as [Hby _].
  destruct (min_count_of_page bins works Hs) as (Hmc & Hmin & Hpos).
  unfold apply_sampling.
  destruct (categorize bins works) as [works_by_kudos counts]. simpl in *.
  subst works_by_kudos. set (mc := min_count_of counts) in *.
  set (items := (λ b, (b, members bins b works)) <$> bin_pairs bins).
  exists (Z.to_nat mc). split; [done|].
  destruct (decide (mc = 0)) as [H0|Hne0].
  - rewrite strata_draw_zero by lia. split_and!.
    + intros b Hb. case_decide as Hne; [done|]. specialize (Hpos b Hb Hne). lia.
    + done.
    + rewrite H0. simpl. lia.
    + rewrite H0. simpl. lia.
  - assert (items.*1.*1 = removelast bins) as Hstarts.
    { unfold items. rewrite <-bin_pairs_starts, <-!list_fmap_compose.
      by apply list_fmap_ext. }
    assert (length (filter (λ it : (Z * Z) * list Work, it.2 ≠ []) items) = busy)
      as Hbusy.
    { unfold items, busy. rewrite length_filter_fmap.
      apply length_filter_ext. intros b Hb. simpl. by rewrite members_bin_items. }
    pose proof (strata_draw_spec E mc Hmc items [] w) as Hdraw.
    pose proof (strata_draw_counts E mc ltac:(lia) items [] w) as Hcounts.
    destruct (strata_draw E items mc [] w) as [sampled w'|h w'|w'].
    + destruct (Hcounts sampled w') as (Hin & Hout & Hdraws & Hexact);
        [rewrite Hstarts, <-bin_pairs_starts; by apply NoDup_bin_starts|done|].
      rewrite Hbusy in Hdraws, Hexact. split_and!.
      * intros b Hb.
        assert ((b, members bins b works) ∈ items) as Hit
          by (unfold items;
              by apply (list_elem_of_fmap_2 (λ b, (b, members bins b works)))).
        specialize (Hin _ Hit). simpl in Hin.
        rewrite members_bin_items in Hin by done. rewrite Hin.
        case_decide; [done|]. do 2 f_equal. lia.
      * intros s Hs'. apply Hout. by rewrite Hstarts.
      * done.
      * intros Hsmall. apply Hexact. intros it Hit.
        apply list_elem_of_fmap in Hit as (b & -> & Hb). simpl.
        rewrite members_bin_items by done. specialize (Hsmall b Hb).
        by rewrite Z2Nat.id in Hsmall by done.
    + apply Hdraw. intros it Hit Hne.
      apply list_elem_of_fmap in Hit as (b & -> & Hb). simpl in *.
      rewrite members_bin_items in * by done. by apply Hpos.
    + destruct Hdraw as (it & Hit & Hbig & _).
      { intros it Hit Hne. apply list_elem_of_fmap in Hit as (b & -> & Hb). simpl in *.
        rewrite members_bin_items in * by done. by apply Hpos. }
      apply list_elem_of_fmap in Hit as (b & -> & Hb). simpl in *.
      rewrite members_bin_items in * by done.
      exists b. split; [done|]. by rewrite Z2Nat.id by done.
Qed.

Lemma strata_sampling_adds_to_counters_witness :
  Sorted Z.lt demo_bins
  ∧ ∃ sampled w',
      apply_sampling two_works Strata 50 page_5_2_0 3 demo_bins (boot no_files)
      = Ret sampled w'
      ∧ strata_counts w' !! 0 = Some 2
      ∧ strata_counts w' !! 100 = Some 2
      ∧ strata_counts w' !! 500 = None
      ∧ draws w' = 4%nat.
Proof.
  assert (Sorted Z.lt demo_bins) as Hs by (repeat constructor).
  split; [exact Hs|].
  destruct (strata_sampling_adds_to_counters two_works 50 page_5_2_0 3 demo_bins
              (boot no_files) Hs) as (m & _ & Hout).
  destruct (apply_sampling two_works Strata 50 page_5_2_0 3 demo_bins (boot no_files))
    as [sampled w'|h w'|w'] eqn:Hrun.
  - exists sampled, w'. split; [reflexivity|].
    vm_compute in Hrun. injection Hrun as _ <-. vm_compute. done.
  - destruct Hout.
  - vm_compute in Hrun. discriminate Hrun.
Defined.

(** ** The attempts at a listing *)

Lemma fetch_listing_attempts E page : ∀ left w, (1 ≤ left)%nat →
  ∃ k : nat,
    (1 ≤ k ≤ left)%nat
    ∧ final_world (fetch_listing E page left w) = Nat.iter k (fetched (PageUrl page)) w
    ∧ (∀ j, (j + 1 < k)%nat →
            failed_attempt (net E (requests w + j) (PageUrl page)) = true)
    ∧ match fetch_listing E page left w with
      | Ret body _ =>
          ∃ status, net E (requests w + k - 1) (PageUrl page) = Http status body
                    ∧ raise_for_status status = false ∧ retry_later body = false
      | Stop h _ =>
          (h = RateLimited page
           ∧ ∃ status body,
               net E (requests w + k - 1) (PageUrl page) = Http status body
               ∧ raise_for_status status = false ∧ retry_later body = true)
          ∨ (h = RetriesExhausted page ∧ k = left
             ∧ failed_attempt (net E (requests w + k - 1) (PageUrl page)) = true)
      | Diverge _ => False
      end.
Proof.
  induction left as [|left IH]; intros w Hleft; [lia|].
  cbn [fetch_listing]. rewrite mbind_unfold. cbn [requests_get].
  set (retry := match left with
                | O => halt (RetriesExhausted page)
                | S _ => fetch_listing E page left
                end).
  assert (failed_attempt (net E (requests w) (PageUrl page)) = true →
          ∃ k : nat,
            (1 ≤ k ≤ S left)%nat
            ∧ final_world (retry (fetched (PageUrl page) w))
              = Nat.iter k (fetched (PageUrl page)) w
            ∧ (∀ j, (j + 1 < k)%nat →
                    failed_attempt (net E (requests w + j) (PageUrl page)) = true)
            ∧ match retry (fetched (PageUrl page) w) with
              | Ret body _ =>
                  ∃ status, net E (requests w + k - 1) (PageUrl page) = Http status body
                            ∧ raise_for_status status = false ∧ retry_later body = false
              | Stop h _ =>
                  (h = RateLimited page
                   ∧ ∃ status body,
                       net E (requests w + k - 1) (PageUrl page) = Http status body
                       ∧ raise_for_status status = false ∧ retry_later body = true)
                  ∨ (h = RetriesExhausted page ∧ k = S left
                     ∧ failed_attempt (net E (requests w + k - 1) (PageUrl page)) = true)
              | Diverge _ => False
              end) as Hretry.
  { intros Hfail. unfold retry. destruct left as [|left'].
    - exists 1%nat. unfold halt. split; [lia|]. split; [reflexivity|].
      split; [intros; lia|].
      right. split; [done|]. split; [done|].
      by replace (requests w + 1 - 1)%nat with (requests w) by lia.
    - destruct (IH (fetched (PageUrl page) w)) as (k & Hk & Hw & Hfailed & Hout); [lia|].
      exists (S k). split; [lia|]. split; [by rewrite Hw, Nat.iter_succ_r|].
      simpl requests in *.
      replace (requests w + S k - 1)%nat with (S (requests w) + k - 1)%nat by lia.
      split.
      { intros j Hj. destruct j as [|j]; [by rewrite Nat.add_0_r|].
        replace (requests w + S j)%nat with (S (requests w) + j)%nat by lia.
        apply Hfailed. lia. }
      destruct (fetch_listing E page (S left') (fetched (PageUrl page) w))
        as [body w1|h w1|w1]; [done| |done].
      destruct Hout as [?|(? & -> & ?)]; [by left|by right]. }
  destruct (net E (requests w) (PageUrl page)) as [|status body] eqn:Hnet.
  { by apply Hretry. }
  rewrite mbind_unfold. unfold handle_rate_limit.
  destruct (raise_for_status status) eqn:Hst.
  { by apply Hretry. }
  exists 1%nat. replace (requests w + 1 - 1)%nat with (requests w) by lia.
  destruct (retry_later body) eqn:Hm; simpl.
  - split; [lia|]. split; [reflexivity|]. split; [intros; lia|]. left. eauto 6.
  - split; [lia|]. split; [reflexivity|]. split; [intros; lia|]. eauto.
Qed.

Lemma iter_fetched_frame u (k : nat) w :
  files (Nat.iter k (fetched u) w) = files w
  ∧ seen_work_ids (Nat.iter k (fetched u) w) = seen_work_ids w
  ∧ strata_counts (Nat.iter k (fetched u) w) = strata_counts w
  ∧ draws (Nat.iter k (fetched u) w) = draws w
  ∧ requests (Nat.iter k (fetched u) w) = (requests w + k)%nat
  ∧ trace (Nat.iter k (fetched u) w) = replicate k (EvFetch u) ++ trace w.
Proof.
  induction k as [|k (? & ? & ? & ? & ? & ?)]; simpl; [split_and!; try done; lia|].
  split_and!; try done; [lia|congruence].
Qed.

(** X5.  A listing is requested at least once and at most three times in
    a row, and nothing else happens meanwhile: the requests are counted
    and logged, and files, seen-set, counters and draws stay as they were.
    All attempts but the last failed (a network error or a 4xx/5xx
    status).  The loop hands back the body of the last response exactly
    when that response has no error status and no marker; it stops for
    rate limiting when it has the marker, and gives up only after the
    third failed attempt. *)
Theorem listing_is_tried_at_most_three_times E page w :
  let o := fetch_listing E page max_retries w in
  ∃ k : nat,
    (1 ≤ k ≤ 3)%nat
    ∧ requests (final_world o) = (requests w + k)%nat
    ∧ trace (final_world o) = replicate k (EvFetch (PageUrl page)) ++ trace w
    ∧ files (final_world o) = files w
    ∧ seen_work_ids (final_world o) = seen_work_ids w
    ∧ strata_counts (final_world o) = strata_counts w
    ∧ draws (final_world o) = draws w
    ∧ (∀ j, (j + 1 < k)%nat →
            failed_attempt (net E (requests w + j) (PageUrl page)) = true)
    ∧ match o with
      | Ret body _ =>
          ∃ status, net E (requests w + k - 1) (PageUrl page) = Http status body
                    ∧ raise_for_status status = false ∧ retry_later body = false
      | Stop h _ =>
          (h = RateLimited page
           ∧ ∃ status body,
               net E (requests w + k - 1) (PageUrl page) = Http status body
               ∧ raise_for_status status = false ∧ retry_later body = true)
          ∨ (h = RetriesExhausted page ∧ k = 3%nat
             ∧ failed_attempt (net E (requests w + k - 1) (PageUrl page)) = true)
      | Diverge _ => False
      end.
Proof.
  intros o.
  destruct (fetch_listing_attempts E page max_retries w) as (k & Hk & Hw & Hfailed & Hout);
    [unfold max_retries; lia|].
  fold o in Hw, Hout. exists k. unfold max_retries in Hk. split; [done|].
  rewrite Hw.
  destruct (iter_fetched_frame (PageUrl page) k w) as (? & ? & ? & ? & ? & ?).
  split_and!; done.
Qed.

(** ** One work *)

(** The ways [scrape_single_work] can go. *)
Lemma scrape_single_work_cases E work page bins w :
  let o := scrape_single_work E work page bins w in
  (o = Ret tt w ∧ (w_title work = None ∨ w_id work ∈ seen_work_ids w))
  ∨ ∃ title href,
      w_title work = Some (title, href) ∧ (w_id work ∉ seen_work_ids w)
      ∧ let work_url := (site +:+ href)%string in
        let w1 := fetched (WorkUrl work_url) w in
        (o = Stop (RateLimited page) w1
         ∧ fetch_date_published E work_url page w = Stop (RateLimited page) w1)
        ∨ ∃ d,
            fetch_date_published E work_url page w = Ret d w1
            ∧ let row := WorkRow (w_id work) work_url title (dash_to_dot d) (w_kudos work) in
              match w_id work with
              | None =>
                  o = Stop (Crashed TypeError) (open_seen (add_seen None (emit_row row w1)))
              | Some i =>
                  let w2 := append_seen i (add_seen (Some i) (emit_row row w1)) in
                  match find_bin bins (w_kudos work) with
                  | None => o = Ret tt (persist_strata w2)
                  | Some b =>
                      match strata_counts w !! b.1 with
                      | None => o = Stop (Crashed KeyError) w2
                      | Some c =>
                          o = Ret tt (persist_strata
                                        (set_strata_counts
                                           (<[b.1 := c + 1]> (strata_counts w)) w2))
                      end
                  end
              end.
Proof.
  unfold scrape_single_work.
  destruct (w_title work) as [[title href]|]; [|left; split; [done|by left]].
  simpl. rewrite mbind_unfold. cbn [get_world].
  case_decide as Hseen; [left; split; [done|by right]|].
  right. exists title, href. split; [done|]. split; [done|].
  rewrite mbind_unfold.
  destruct (fetch_date_published_cases E (site +:+ href) page w) as [[d Hd]|Hd];
    rewrite Hd; [right|by left].
  exists d. split; [done|]. rewrite mbind_unfold.
  destruct (w_id work) as [i|]; [|done].
  cbn [modify]. rewrite mbind_unfold. unfold count_in_bin.
  destruct (find_bin bins (w_kudos work)) as [b|]; [|done].
  rewrite mbind_unfold. cbn [get_world].
  match goal with |- context [append_seen i ?x] => set (w2 := append_seen i x) end.
  change (strata_counts w2) with (strata_counts w).
  by destruct (strata_counts w !! b.1).
Qed.

(** X6.  When the page of a work cannot be had (a network error, or a
    4xx/5xx status such as 429) the work is recorded all the same, with
    the publication date ["Unknown"]: one request is made, the record is
    appended, the identifier is marked as seen in memory and in
    [seen_work_ids.txt], and the run goes on unless the counter of the
    score's bin is missing. *)
Theorem failed_work_page_gives_unknown_date E work page bins w title href i :
  w_title work = Some (title, href) →
  w_id work = Some i →
  Some i ∉ seen_work_ids w →
  failed_attempt (net E (requests w) (WorkUrl (site +:+ href))) = true →
  let o := scrape_single_work E work page bins w in
  records (files (final_world o))
  = records (files w) ++ [WorkRow (Some i) (site +:+ href) title "Unknown" (w_kudos work)]
  ∧ requests (final_world o) = S (requests w)
  ∧ Some i ∈ seen_work_ids (final_world o)
  ∧ seen_lines (files (final_world o)) = seen_lines (files w) ++ [i]
  ∧ (o = Ret tt (final_world o) ∨ o = Stop (Crashed KeyError) (final_world o)).
Proof.
  intros Htitle Hid Hseen Hfail o.
  destruct (scrape_single_work_cases E work page bins w)
    as [[_ [Hn|Hs]]|(title' & href' & Ht & _ & Hcases)]; [congruence|by rewrite Hid in Hs|].
  rewrite Htitle in Ht. injection Ht as <- <-.
  assert (fetch_date_published E (site +:+ href) page w
          = Ret "Unknown"%string (fetched (WorkUrl (site +:+ href)) w)) as Hd.
  { unfold fetch_date_published. rewrite mbind_unfold. cbn [requests_get].
    destruct (net E (requests w) (WorkUrl (site +:+ href))) as [|status body]; [done|].
    rewrite mbind_unfold. unfold handle_rate_limit. simpl in Hfail. by rewrite Hfail. }
  simpl in Hcases. rewrite Hd in Hcases.
  destruct Hcases as [[_ ?]|(d & [= <-] & Hcases)]; [done|].
  rewrite Hid in Hcases. fold o in Hcases.
  assert (dash_to_dot "Unknown" = "Unknown"%string) as Hdash by reflexivity.
  rewrite Hdash in Hcases. clear Hdash.
  destruct (find_bin bins (w_kudos work)) as [b|].
  - destruct (strata_counts w !! b.1); rewrite Hcases; simpl; unfold records, seen_lines;
      simpl; (split_and!; [done|done|set_solver|done|by eauto]).
  - rewrite Hcases. simpl. unfold records, seen_lines. simpl.
    split_and!; [done|done|set_solver|done|by eauto].
Qed.

Lemma failed_work_page_gives_unknown_date_witness :
  failed_attempt (net (drawing 0) 0 (WorkUrl (site +:+ "/works/1"))) = true
  ∧ records (files (final_world
       (scrape_single_work (drawing 0) (listed "1" 5) 1 demo_bins
          (set_strata_counts (zero_counts demo_bins) (boot no_files)))))
    = [WorkRow (Some "1"%string) (site +:+ "/works/1") "1" "Unknown" 5].
Proof.
  split; [reflexivity|].
  refine (proj1 (failed_work_page_gives_unknown_date (drawing 0) (listed "1" 5) 1 demo_bins
                   (set_strata_counts (zero_counts demo_bins) (boot no_files))
                   "1" "/works/1" "1" eq_refl eq_refl _ eq_refl)).
  simpl. apply not_elem_of_empty.
Defined.

(** ** A page whose works have all been seen *)

Lemma item_loop_all_seen E page bins mwc : ∀ sampled c w,
  (∀ work, work ∈ sampled → w_id work ∈ seen_work_ids w) →
  item_loop E sampled page bins mwc c w = Ret (c, false) w.
Proof.
  induction sampled as [|work rest IH]; intros c w Hseen; [done|].
  cbn [item_loop]. rewrite mbind_unfold. cbn [get_world].
  rewrite decide_True by (apply Hseen; left).
  apply IH. intros work' Hin. apply Hseen. by right.
Qed.

Lemma fetch_listing_frame E page w :
  let w' := final_world (fetch_listing E page max_retries w) in
  files w' = files w ∧ seen_work_ids w' = seen_work_ids w
  ∧ strata_counts w' = strata_counts w ∧ draws w' = draws w
  ∧ ∃ k : nat, (1 ≤ k ≤ 3)%nat ∧ requests w' = (requests w + k)%nat
               ∧ trace w' = replicate k (EvFetch (PageUrl page)) ++ trace w.
Proof.
  destruct (fetch_listing_attempts E page max_retries w) as (k & Hk & -> & _);
    [unfold max_retries; lia|].
  destruct (iter_fetched_frame (PageUrl page) k w) as (? & ? & ? & ? & ? & ?).
  split_and!; try done. exists k. unfold max_retries in Hk. done.
Qed.

(** X7.  A listing page all of whose works are in the seen-set is passed
    over: after the listing is fetched and sampled the page number is
    saved, and the turn ends without a request for a work, without a
    record, with the seen-set and the work count as they were, and without
    breaking the page loop. *)
Theorem seen_page_is_passed_over E mwc smp page c w soup w1 sampled w2 :
  fetch_listing E page max_retries w = Ret soup w1 →
  apply_sampling E (sampling_strategy smp) (sampling_percentage smp) (li_works soup)
                 (sampling_n smp) (kudos_bins smp) w1 = Ret sampled w2 →
  (∀ work, work ∈ li_works soup → w_id work ∈ seen_work_ids w) →
  page_body E mwc smp page c w = Ret (c, false) (save_page page w2)
  ∧ csv_file (files w2) = csv_file (files w)
  ∧ seen_work_ids w2 = seen_work_ids w
  ∧ requests w2 = requests w1.
Proof.
  intros Hfetch Hsample Hseen.
  pose proof (fetch_listing_frame E page w) as (Hf1 & Hs1 & _).
  rewrite Hfetch in Hf1, Hs1. simpl in Hf1, Hs1.
  pose proof (apply_sampling_frame E (sampling_strategy smp) (sampling_percentage smp)
                (li_works soup) (sampling_n smp) (kudos_bins smp) w1)
    as (Hf2 & Hs2 & Hr2 & _).
  rewrite Hsample in Hf2, Hs2, Hr2. simpl in Hf2, Hs2, Hr2.
  split; [|split_and!; congruence].
  unfold page_body. rewrite mbind_unfold, Hfetch, mbind_unfold, Hsample, mbind_unfold.
  cbn [modify]. apply item_loop_all_seen.
  intros work Hin. simpl. rewrite Hs2, Hs1. apply Hseen.
  apply apply_sampling_submseteq in Hsample.
  by apply (elem_of_submseteq sampled).
Qed.

Lemma seen_page_is_passed_over_witness :
  page_body two_works None (mkSampling NoSampling 50 3 demo_bins) 1 0
    (set_seen_work_ids {[Some "1"%string; Some "2"%string]} (boot no_files))
  = Ret (0, false)
        (save_page 1 (fetched (PageUrl 1)
           (set_seen_work_ids {[Some "1"%string; Some "2"%string]} (boot no_files)))).
Proof.
  refine (proj1 (seen_page_is_passed_over two_works None
                   (mkSampling NoSampling 50 3 demo_bins) 1 0
                   (set_seen_work_ids {[Some "1"%string; Some "2"%string]} (boot no_files))
                   _ _ _ _ eq_refl eq_refl _)).
  intros work Hin. simpl in *.
  apply elem_of_cons in Hin as [->|Hin]; [apply elem_of_union_l, elem_of_singleton; reflexivity|].
  apply elem_of_cons in Hin as [->|Hin]; [apply elem_of_union_r, elem_of_singleton; reflexivity|].
  by apply elem_of_nil in Hin.
Defined.

(** ** The maximum count bounds the records *)

Lemma scrape_single_work_rows E work page bins w :
  let w' := final_world (scrape_single_work E work page bins w) in
  (length (records (files w')) ≤ S (length (records (files w))))%nat.
Proof.
  destruct (scrape_single_work_cases E work page bins w)
    as [[-> _]|(title & href & _ & _ & Hcases)]; simpl; [lia|].
  simpl in Hcases. destruct Hcases as [[-> _]|(d & _ & Hcases)]; [simpl; lia|].
  destruct (w_id work) as [i|].
  - destruct (find_bin bins (w_kudos work)) as [b|];
      [destruct (strata_counts w !! b.1)|]; rewrite Hcases; unfold records; simpl;
      rewrite length_app; simpl; lia.
  - rewrite Hcases. unfold records. simpl. rewrite length_app. simpl. lia.
Qed.

Lemma item_loop_bound E page bins n : 0 < n → ∀ sampled c w,
  c < n →
  let o := item_loop E sampled page bins (Some n) c w in
  Z.of_nat (length (records (files (final_world o))))
  ≤ Z.of_nat (length (records (files w))) + (n - c)
  ∧ match o with
    | Ret (c', b) w' =>
        c' ≤ n ∧ (b = false → c' < n)
        ∧ Z.of_nat (length (records (files w'))) - Z.of_nat (length (records (files w)))
          ≤ c' - c
    | _ => True
    end.
Proof.
  intros Hn. induction sampled as [|work rest IH]; intros c w Hc.
  - simpl. split; [lia|]. split; [lia|]. split; [done|lia].
  - cbn [item_loop]. rewrite mbind_unfold. cbn [get_world].
    case_decide; [by apply IH|].
    rewrite mbind_unfold.
    pose proof (scrape_single_work_rows E work page bins w) as Hrows.
    destruct (scrape_single_work E work page bins w) as [[] w1|h w1|w1];
      simpl in Hrows; [|simpl; split; [lia|done]..].
    assert (truthy (Some n) = true) as -> by (simpl; apply negb_true_iff; lia).
    cbn [andb]. change (default 0 (Some n)) with n.
    destruct (c + 1 >=? n) eqn:Hge; rewrite Z.geb_leb in Hge;
      [apply Z.leb_le in Hge|apply Z.leb_gt in Hge].
    + simpl. split; [lia|]. split; [lia|]. split; [done|lia].
    + specialize (IH (c + 1) w1 ltac:(lia)). simpl in IH.
      destruct IH as [IH1 IH2]. split; [lia|].
      destruct (item_loop E rest page bins (Some n) (c + 1) w1) as [[c' b] w'|h w'|w'];
        [|done..].
      destruct IH2 as (? & ? & ?). split_and!; [done..|lia].
Qed.

Lemma page_body_bound E n smp page c w : 0 < n → c < n →
  let o := page_body E (Some n) smp page c w in
  Z.of_nat (length (records (files (final_world o))))
  ≤ Z.of_nat (length (records (files w))) + (n - c)
  ∧ match o with
    | Ret (c', b) w' =>
        c' ≤ n ∧ (b = false → c' < n)
        ∧ Z.of_nat (length (records (files w'))) - Z.of_nat (length (records (files w)))
          ≤ c' - c
    | _ => True
    end.
Proof.
  intros Hn Hc. unfold page_body. rewrite mbind_unfold.
  pose proof (fetch_listing_frame E page w) as (Hf1 & _).
  destruct (fetch_listing E page max_retries w) as [soup w1|h w1|w1];
    simpl in Hf1; [|simpl; rewrite Hf1; split; [lia|done]..].
  rewrite mbind_unfold.
  pose proof (apply_sampling_frame E (sampling_strategy smp) (sampling_percentage smp)
                (li_works soup) (sampling_n smp) (kudos_bins smp) w1) as (Hf2 & _).
  destruct (apply_sampling _ _ _ _ _ _ w1) as [sampled w2|h w2|w2];
    simpl in Hf2; [|simpl; rewrite Hf2, Hf1; split; [lia|done]..].
  rewrite mbind_unfold. cbn [modify].
  pose proof (item_loop_bound E page (kudos_bins smp) n Hn sampled c (save_page page w2) Hc)
    as Hloop.
  assert (records (files (save_page page w2)) = records (files w)) as Hrec
    by (unfold records; simpl; by rewrite Hf2, Hf1).
  by rewrite Hrec in Hloop.
Qed.

Lemma page_loop_bound E end_page n smp : 0 < n → ∀ fuel page c w,
  c < n →
  Z.of_nat (length (records (files (final_world
     (page_loop E fuel end_page (Some n) smp page c w)))))
  ≤ Z.of_nat (length (records (files w))) + (n - c).
Proof.
  intros Hn. induction fuel as [|fuel IH]; intros page c w Hc; [simpl; lia|].
  rewrite page_loop_unfold. case_match; [simpl; lia|].
  pose proof (page_body_bound E n smp page c w Hn Hc) as [Hb1 Hb2].
  destruct (page_body E (Some n) smp page c w) as [[c' b] w1|h w1|w1]; [|done..].
  destruct Hb2 as (Hle & Hlt & Hrows). destruct b; [simpl in *; lia|].
  specialize (IH (page + 1) c' w1 (Hlt eq_refl)). lia.
Qed.

(** X8.  With a maximum count [n > 0] a run writes at most [n] records,
    however it ends: the CSV output grows by at most [n] rows over what
    it held when it was opened. *)
Theorem records_bounded_by_max_count E fuel cfg f n :
  cfg_max_work_count cfg = Some n → 0 < n →
  let w' := final_world (main E fuel cfg (boot f)) in
  Z.of_nat (length (records (files w')))
  ≤ Z.of_nat (length (records (open_csv (cfg_file_mode cfg) f))) + n.
Proof.
  intros Hmax Hn. rewrite main_unfold, Hmax.
  pose proof (page_loop_bound E (last_page cfg) n (cfg_sampling cfg) Hn fuel
                (first_page cfg (boot f)) 0 (startup cfg (boot f)) Hn) as Hb.
  rewrite startup_files in Hb.
  destruct (page_loop _ _ _ _ _ _ _ _) as [[] w1|h w1|w1]; unfold records in *;
    simpl in *; lia.
Qed.

Lemma records_bounded_by_max_count_witness :
  Z.of_nat (length (records (files (final_world
     (main two_works 5 (settings (Some 1) NoSampling) (boot no_files))))))
  ≤ Z.of_nat (length (records (open_csv ModeW no_files))) + 1.
Proof.
  apply (records_bounded_by_max_count two_works 5 (settings (Some 1) NoSampling)
           no_files 1); [reflexivity|lia].
Defined.

(** ** The CSV output is appended to *)

#[local] Instance appends_records_preorder : PreOrder appends_records.
Proof.
  split.
  - intros w. exists []. by rewrite app_nil_r.
  - intros w1 w2 w3 (r1 & F1 & E1 & S1) (r2 & F2 & E2 & S2).
    exists (r1 ++ r2). split_and!.
    + by apply Forall_app.
    + by rewrite E2, E1, app_assoc.
    + auto.
Qed.

Lemma appends_records_quiet (w w' : World) :
  csv_file (files w') = csv_file (files w) → appends_records w w'.
Proof. intros Heq. exists []. unfold records. by rewrite Heq, app_nil_r. Qed.

Lemma appends_records_row (row : CsvRow) (i : option string) (w w' : World) :
  row_id row = Some i →
  csv_file (files w') = Some (records (files w) ++ [row]) →
  appends_records w w'.
Proof.
  intros Hrow Hcsv. exists [row]. unfold records at 1. rewrite Hcsv.
  split_and!; [|done|by eauto].
  constructor; [|done]. by intros ->.
Qed.

Lemma page_loop_appends_records E end_page mwc smp fuel page c :
  run_rel appends_records (page_loop E fuel end_page mwc smp page c).
Proof.
  apply run_rel_page_loop; first [apply _ | idtac].
  - intros u w. by apply appends_records_quiet.
  - intros k w. by apply appends_records_quiet.
  - intros k w. by apply appends_records_quiet.
  - intros w. by apply appends_records_quiet.
  - intros row w Hrow _. by apply (appends_records_row row None).
  - intros i row w Hrow _. by apply (appends_records_row row (Some i)).
  - intros p w. by apply appends_records_quiet.
Qed.

(** X9.  A run only ever appends to the CSV output.  In append mode with
    an existing file the rows found are kept and no header is written;
    otherwise (write mode, or no file yet) the output starts afresh with
    the header.  The rows that follow are records of works, and the file
    exists when the run ends, however it ends. *)
Theorem sink_is_appended_to E fuel cfg f :
  ∃ rows,
    Forall (λ r, r ≠ Header) rows
    ∧ csv_file (files (final_world (main E fuel cfg (boot f))))
      = Some (match cfg_file_mode cfg, csv_file f with
              | ModeA, Some old => old ++ rows
              | _, _ => Header :: rows
              end).
Proof.
  rewrite main_unfold.
  destruct (page_loop_appends_records E (last_page cfg) (cfg_max_work_count cfg)
              (cfg_sampling cfg) fuel (first_page cfg (boot f)) 0 (startup cfg (boot f)))
    as (rows & Hrows & Hrec & Hsome).
  rewrite startup_files in Hrec, Hsome.
  exists rows. split; [done|].
  assert (csv_file (files (final_world
            (page_loop E fuel (last_page cfg) (cfg_max_work_count cfg) (cfg_sampling cfg)
               (first_page cfg (boot f)) 0 (startup cfg (boot f)))))
          = Some (records (open_csv (cfg_file_mode cfg) f) ++ rows)) as Hcsv.
  { destruct Hsome as [x Hx].
    { unfold open_csv. destruct (cfg_file_mode cfg), (csv_file f) eqn:Hf; simpl;
        rewrite ?Hf; by eexists. }
    unfold records at 1 in Hrec. rewrite Hx in Hrec. simpl in Hrec. by rewrite Hx, Hrec. }
  assert (records (open_csv (cfg_file_mode cfg) f) ++ rows
          = match cfg_file_mode cfg, csv_file f with
            | ModeA, Some old => old ++ rows
            | _, _ => Header :: rows
            end) as <-.
  { unfold open_csv, records.
    destruct (cfg_file_mode cfg), (csv_file f) as [old|] eqn:Hf; simpl; try done.
    by rewrite Hf. }
  by destruct (page_loop _ _ _ _ _ _ _ _) as [[] w1|h w1|w1].
Qed.

(** ** The saved position *)

Lemma page_body_position E mwc smp page c w :
  let o := page_body E mwc smp page c w in
  (last_visited_page_txt (files (final_world o)) = last_visited_page_txt (files w)
   ∨ last_visited_page_txt (files (final_world o)) = Some page)
  ∧ ∀ r w', o = Ret r w' → last_visited_page_txt (files w') = Some page.
Proof.
  split; [|intros r w'; apply page_body_ret_page_file].
  unfold page_body. rewrite mbind_unfold.
  pose proof (fetch_listing_same_page_file E page max_retries w) as H1.
  destruct (fetch_listing E page max_retries w) as [soup w1|h w1|w1]; [|by left..].
  rewrite mbind_unfold.
  pose proof (apply_sampling_same_page_file E (sampling_strategy smp)
                (sampling_percentage smp) (li_works soup) (sampling_n smp)
                (kudos_bins smp) w1) as H2.
  unfold same_page_file in *. simpl in H1.
  destruct (apply_sampling _ _ _ _ _ _ w1) as [sampled w2|h w2|w2]; simpl in H2;
    [|left; simpl; congruence..].
  rewrite mbind_unfold. cbn [modify]. right.
  apply (item_loop_same_page_file E sampled page (kudos_bins smp) mwc c (save_page page w2)).
Qed.

Lemma page_loop_position E end_page mwc smp : ∀ fuel page c w,
  let w' := final_world (page_loop E fuel end_page mwc smp page c w) in
  last_visited_page_txt (files w') = last_visited_page_txt (files w)
  ∨ ∃ q, page ≤ q
         ∧ (truthy end_page = true → q ≤ default 0 end_page)
         ∧ last_visited_page_txt (files w') = Some q.
Proof.
  induction fuel as [|fuel IH]; intros page c w; [by left|].
  rewrite page_loop_unfold.
  destruct (truthy end_page && (page >? default 0 end_page)) eqn:Hend; [by left|].
  assert (truthy end_page = true → page ≤ default 0 end_page) as Hle.
  { intros Ht. rewrite Ht in Hend. simpl in Hend. lia. }
  pose proof (page_body_position E mwc smp page c w) as [Hpos Hret].
  destruct (page_body E mwc smp page c w) as [[c' b] w1|h w1|w1]; simpl in Hpos.
  - specialize (Hret _ _ eq_refl). destruct b.
    + simpl. right. exists page. split; [lia|done].
    + destruct (IH (page + 1) c' w1) as [Heq|(q & Hq & Hqe & Hlvp)].
      * right. exists page. split; [lia|]. split; [done|]. simpl in *. congruence.
      * right. exists q. split; [lia|done].
  - destruct Hpos as [?|?]; [by left|]. right. exists page. split; [lia|done].
  - destruct Hpos as [?|?]; [by left|]. right. exists page. split; [lia|done].
Qed.

(** X10.  When a run stops, [last_visited_page.txt] is either as the run
    found it or names a page from the first page of the run onwards, and
    never one beyond the configured end page.  A run resumed from a saved
    position therefore never moves the position backwards. *)
Theorem saved_position_never_moves_back E fuel cfg f h w' :
  main E fuel cfg (boot f) = Stop h w' →
  (last_visited_page_txt (files w') = last_visited_page_txt f
   ∨ ∃ q, first_page cfg (boot f) ≤ q
          ∧ (truthy (last_page cfg) = true → q ≤ default 0 (last_page cfg))
          ∧ last_visited_page_txt (files w') = Some q)
  ∧ ∀ p, last_visited_page_txt f = Some p → p ≠ 0 →
         ∃ q, p ≤ q ∧ last_visited_page_txt (files w') = Some q.
Proof.
  rewrite main_unfold. intros Hrun.
  pose proof (page_loop_position E (last_page cfg) (cfg_max_work_count cfg)
                (cfg_sampling cfg) fuel (first_page cfg (boot f)) 0 (startup cfg (boot f)))
    as Hpos.
  destruct (page_loop _ _ _ _ _ _ _ _) as [[] wl|hl wl|wl]; [done| |done].
  injection Hrun as -> ->. rewrite startup_files in Hpos.
  cbn [final_world] in Hpos.
  assert (last_visited_page_txt (open_csv (cfg_file_mode cfg) f) = last_visited_page_txt f)
    as Hopen by (unfold open_csv; by destruct (cfg_file_mode cfg), (csv_file f)).
  rewrite Hopen in Hpos. split; [done|].
  intros p Hp Hp0.
  assert (first_page cfg (boot f) = p) as Hfirst.
  { unfold first_page. simpl. rewrite Hp. simpl.
    by replace (p =? 0) with false by lia. }
  destruct Hpos as [Heq|(q & Hq & _ & Hlvp)].
  - exists p. split; [lia|congruence].
  - exists q. split; [lia|done].
Qed.

Lemma saved_position_never_moves_back_witness :
  ∃ q, 1 ≤ q ∧ last_visited_page_txt (files (final_world
         (main limited_on_page_2 5 appending (boot first_halt)))) = Some q.
Proof.
  assert (∃ h w', main limited_on_page_2 5 appending (boot first_halt) = Stop h w'
                  ∧ w' = final_world (main limited_on_page_2 5 appending (boot first_halt)))
    as (h & w' & Hrun & ->) by (vm_compute; eauto).
  apply (proj2 (saved_position_never_moves_back _ _ _ _ _ _ Hrun) 1);
    [reflexivity|lia].
Defined.

(** ** The seen file after a stop *)

(** X11.  When a run stops, [seen_work_ids.txt] is what the run found
    followed by one line for every record the run wrote that carries an
    identifier, in the order of the records. *)
Theorem seen_file_lists_new_records E fuel cfg f h w' :
  main E fuel cfg (boot f) = Stop h w' →
  ∃ new,
    sink_ids (files w') = sink_ids (open_csv (cfg_file_mode cfg) f) ++ new
    ∧ seen_lines (files w') = seen_lines f ++ omap id new.
Proof.
  rewrite main_unfold. intros Hrun.
  destruct (page_loop_emits E (last_page cfg) (cfg_max_work_count cfg) (cfg_sampling cfg)
              fuel (first_page cfg (boot f)) 0 (startup cfg (boot f)))
    as (new & Hsink & _ & Hlines & _).
  destruct (page_loop _ _ _ _ _ _ _ _) as [[] wl|hl wl|wl]; [done| |done].
  injection Hrun as -> ->.
  rewrite startup_files in Hsink, Hlines. rewrite open_csv_seen_lines in Hlines.
  cbn [final_world] in Hsink, Hlines.
  by exists new.
Qed.

Lemma seen_file_lists_new_records_witness :
  ∃ new,
    sink_ids (files (final_world (main second_visit 5 appending (boot first_halt))))
    = sink_ids (open_csv ModeA first_halt) ++ new
    ∧ seen_lines (files (final_world (main second_visit 5 appending (boot first_halt))))
      = seen_lines first_halt ++ omap id new.
Proof.
  assert (∃ h w', main second_visit 5 appending (boot first_halt) = Stop h w'
                  ∧ w' = final_world (main second_visit 5 appending (boot first_halt)))
    as (h & w' & Hrun & ->) by (vm_compute; eauto).
  exact (seen_file_lists_new_records _ _ _ _ _ _ Hrun).
Defined.

(** ** A run with an end page comes to an end *)








(** ** Runs that do not end with an exception *)

Section UnlessCrashed.
Context (R : relation World) `{!PreOrder R}.

Lemma unless_crashed_run_rel {A} (m : M A) : run_rel R m → holds_unless_crashed R m.
Proof.
  intros Hm w. specialize (Hm w).
  destruct (m w) as [a w'|[| |e] w'|w']; done.
Qed.

Lemma unless_crashed_bind {A B} (m : M A) (f : A → M B) :
  holds_unless_crashed R m → (∀ a, holds_unless_crashed R (f a)) →
  holds_unless_crashed R (m ≫= f).
Proof.
  intros Hm Hf w. rewrite mbind_unfold. specialize (Hm w).
  destruct (m w) as [a w1|h w1|w1]; [|done..].
  specialize (Hf a w1). simpl in Hm.
  destruct (f a w1) as [b w2|[| |e] w2|w2]; simpl in *; try done; by etrans.
Qed.

Context (E : Env) (smp : Sampling).
Hypothesis R_fetch_listing : ∀ page, run_rel R (fetch_listing E page max_retries).
Hypothesis R_sampling : ∀ works,
  holds_unless_crashed R
    (apply_sampling E (sampling_strategy smp) (sampling_percentage smp) works
                    (sampling_n smp) (kudos_bins smp)).
Hypothesis R_save_page : ∀ p w, R w (save_page p w).
Hypothesis R_single : ∀ work page,
  holds_unless_crashed R (scrape_single_work E work page (kudos_bins smp)).

Lemma unless_crashed_item_loop page mwc : ∀ sampled c,
  holds_unless_crashed R (item_loop E sampled page (kudos_bins smp) mwc c).
Proof.
  induction sampled as [|work rest IH]; intros c; cbn [item_loop].
  - intros w. simpl. reflexivity.
  - intros w. rewrite mbind_unfold. cbn [get_world].
    case_decide; [apply IH|].
    apply (unless_crashed_bind (scrape_single_work E work page (kudos_bins smp)));
      [apply R_single|].
    intros _. case_match; [|apply IH]. intros w'. simpl. reflexivity.
Qed.

Lemma unless_crashed_page_body mwc page c :
  holds_unless_crashed R (page_body E mwc smp page c).
Proof.
  unfold page_body.
  apply unless_crashed_bind; [apply unless_crashed_run_rel, R_fetch_listing|].
  intros soup. apply unless_crashed_bind; [apply R_sampling|].
  intros sampled. apply unless_crashed_bind.
  - apply unless_crashed_run_rel. intros w. apply R_save_page.
  - intros _. apply unless_crashed_item_loop.
Qed.

Lemma unless_crashed_page_loop end_page mwc : ∀ fuel page c,
  holds_unless_crashed R (page_loop E fuel end_page mwc smp page c).
Proof.
  induction fuel as [|fuel IH]; intros page c; cbn [page_loop].
  - intros w. simpl. reflexivity.
  - case_match; [intros w; simpl; reflexivity|].
    apply unless_crashed_bind; [apply unless_crashed_page_body|].
    intros [c' []]; [intros w; simpl; reflexivity|apply IH].
Qed.
End UnlessCrashed.

(** ** The counters when sampling does not count *)

Lemma written_in_nil bins s : written_in bins s [] = 0.
Proof. reflexivity. Qed.

Lemma written_in_app bins s rows1 rows2 :
  written_in bins s (rows1 ++ rows2) = written_in bins s rows1 + written_in bins s rows2.
Proof. unfold written_in. rewrite filter_app, length_app. lia. Qed.

Lemma written_in_row bins s id url title d k :
  written_in bins s [WorkRow id url title d k]
  = if decide (fst <$> find_bin bins k = Some s) then 1 else 0.
Proof.
  unfold written_in. case_decide.
  - by rewrite filter_cons_True.
  - by rewrite filter_cons_False.
Qed.

Lemma fmap_add_0 (x : option Z) : (λ c, c + 0) <$> x = x.
Proof. destruct x; simpl; [f_equal; lia|done]. Qed.

#[local] Instance counted_preorder bins : PreOrder (counted bins).
Proof.
  split.
  - intros w. exists []. rewrite app_nil_r. split; [done|].
    split; [|by rewrite decide_True].
    intros s. by rewrite written_in_nil, fmap_add_0.
  - intros w1 w2 w3 (r1 & E1 & C1 & J1) (r2 & E2 & C2 & J2).
    exists (r1 ++ r2). split_and!.
    + by rewrite E2, E1, app_assoc.
    + intros s. rewrite C2, C1, <-option_fmap_compose, written_in_app.
      destruct (strata_counts w1 !! s); simpl; [f_equal; lia|done].
    + rewrite J2. destruct r2 as [|x r2].
      * rewrite app_nil_r, decide_True by done. rewrite J1.
        destruct (decide (r1 = [])); [done|]. f_equal. apply map_eq. intros s.
        by rewrite C2, written_in_nil, fmap_add_0.
      * rewrite !decide_False; [done| |done].
        intros Heq. by apply app_eq_nil in Heq as [_ ?].
Qed.

Lemma counted_quiet bins (w w' : World) :
  csv_file (files w') = csv_file (files w) →
  strata_counts_json (files w') = strata_counts_json (files w) →
  strata_counts w' = strata_counts w →
  counted bins w w'.
Proof.
  intros Hcsv Hjson Hc. exists []. unfold records. rewrite Hcsv, Hjson, Hc, app_nil_r.
  split; [done|]. split; [|by rewrite decide_True].
  intros s. by rewrite written_in_nil, fmap_add_0.
Qed.

Lemma scrape_single_work_counted E work page bins :
  holds_unless_crashed (counted bins) (scrape_single_work E work page bins).
Proof.
  intros w.
  destruct (scrape_single_work_cases E work page bins w)
    as [[-> _]|(title & href & _ & _ & Hcases)]; [simpl; reflexivity|].
  simpl in Hcases. destruct Hcases as [[-> _]|(d & _ & Hcases)];
    [by apply counted_quiet|].
  destruct (w_id work) as [i|]; [|by rewrite Hcases].
  destruct (find_bin bins (w_kudos work)) as [b|] eqn:Hbin.
  - destruct (strata_counts w !! b.1) as [c|] eqn:Hc; rewrite Hcases; [|done].
    simpl. eexists [_]. split; [done|]. split; [|done].
    intros s. simpl.
    match goal with
    | |- context [written_in ?a ?b ?c] => set (k := written_in a b c)
    end.
    assert (k = if decide (b.1 = s) then 1 else 0) as ->.
    { unfold k. rewrite written_in_row, Hbin. simpl.
      destruct (decide (b.1 = s)) as [->|Hne];
        [by rewrite decide_True|by rewrite decide_False by congruence]. }
    destruct (decide (b.1 = s)) as [<-|Hne].
    + by rewrite lookup_insert_eq, Hc.
    + rewrite lookup_insert_ne by done. by rewrite fmap_add_0.
  - rewrite Hcases. simpl. eexists [_]. split; [done|]. split; [|done].
    intros s. simpl.
    match goal with
    | |- context [written_in ?a ?b ?c] => set (k := written_in a b c)
    end.
    assert (k = 0) as ->.
    { unfold k. by rewrite written_in_row, Hbin. }
    by rewrite fmap_add_0.
Qed.

Lemma page_loop_counted E end_page mwc smp fuel page c :
  sampling_strategy smp ≠ Strata →
  holds_unless_crashed (counted (kudos_bins smp))
    (page_loop E fuel end_page mwc smp page c).
Proof.
  intros Hstrategy. apply unless_crashed_page_loop; first [apply _ | idtac].
  - intros p. apply run_rel_fetch_listing; first [apply _ | idtac].
    intros u w. by apply counted_quiet.
  - intros works. apply unless_crashed_run_rel. intros w.
    pose proof (apply_sampling_frame E (sampling_strategy smp) (sampling_percentage smp)
                  works (sampling_n smp) (kudos_bins smp) w) as (Hf & _ & _ & _ & _ & Hc).
    apply counted_quiet; [by rewrite Hf|by rewrite Hf|].
    by destruct (sampling_strategy smp).
  - intros p w. by apply counted_quiet.
  - intros work p. apply scrape_single_work_counted.
Qed.

Lemma startup_strata_counts cfg f :
  strata_counts (startup cfg (boot f)) = zero_counts (kudos_bins (cfg_sampling cfg)).
Proof.
  unfold startup, load_seen_work_ids. simpl.
  by destruct (seen_work_ids_txt f).
Qed.

(** X13.  Under the random, the systematic and the absent strategy the
    counters count the records: whenever the run ends otherwise than by an
    uncaught exception, the counter of each bin is the number of records
    this run wrote whose score falls into the bin (the first bin that
    holds it), and once a record is written [strata_counts.json] holds
    these counters until the run returns and removes the file.  The
    counters found in [strata_counts.json] at the start do not enter. *)
Theorem counters_count_records E fuel cfg f :
  sampling_strategy (cfg_sampling cfg) ≠ Strata →
  let bins := kudos_bins (cfg_sampling cfg) in
  let counts_rows (w' : World) (rows : list CsvRow) : Prop :=
    records (files w') = records (open_csv (cfg_file_mode cfg) f) ++ rows
    ∧ ∀ s, s ∈ removelast bins →
           strata_counts w' !! s = Some (written_in bins s rows) in
  let persisted (w' : World) (rows : list CsvRow) : Prop :=
    strata_counts_json (files w')
    = if decide (rows = []) then strata_counts_json f else Some (strata_counts w') in
  match main E fuel cfg (boot f) with
  | Ret _ w' => ∃ rows, counts_rows w' rows
  | Stop (Crashed _) _ => True
  | Stop _ w' => ∃ rows, counts_rows w' rows ∧ persisted w' rows
  | Diverge w' => ∃ rows, counts_rows w' rows ∧ persisted w' rows
  end.
Proof.
  intros Hstrategy bins counts_rows persisted. rewrite main_unfold.
  pose proof (page_loop_counted E (last_page cfg) (cfg_max_work_count cfg)
                (cfg_sampling cfg) fuel (first_page cfg (boot f)) 0 Hstrategy
                (startup cfg (boot f))) as Hloop.
  assert (∀ w', counted bins (startup cfg (boot f)) w' →
                ∃ rows, counts_rows w' rows ∧ persisted w' rows) as Hcounted.
  { intros w' (rows & Hrec & Hcount & Hjson). exists rows.
    rewrite startup_files in Hrec, Hjson. split; [split; [done|]|].
    - intros s Hs. rewrite Hcount, startup_strata_counts, zero_counts_lookup.
      rewrite decide_True by done. done.
    - unfold persisted. rewrite Hjson. case_decide; [|done].
      unfold open_csv. by destruct (cfg_file_mode cfg), (csv_file f). }
  destruct (page_loop _ _ _ _ _ _ _ _) as [[] wl|[| |e] wl|wl]; [|by apply Hcounted..|done|by apply Hcounted].
  destruct (Hcounted wl Hloop) as (rows & [Hrec Hcount] & _).
  exists rows. split; [|done]. by unfold records in *.
Qed.

Lemma counters_count_records_witness :
  ∃ rows,
    records (files (final_world (main limited_on_page_2 5 (settings None NoSampling)
                                   (boot no_files))))
    = [Header] ++ rows
    ∧ strata_counts (final_world (main limited_on_page_2 5 (settings None NoSampling)
                                    (boot no_files))) !! 0
      = Some (written_in demo_bins 0 rows).
Proof.
  assert (sampling_strategy (cfg_sampling (settings None NoSampling)) ≠ Strata) as Hne
    by discriminate.
  pose proof (counters_count_records limited_on_page_2 5 (settings None NoSampling)
                no_files Hne) as H.
  cbv zeta in H.
  destruct (main limited_on_page_2 5 (settings None NoSampling) (boot no_files))
    as [[] w'|[| |e] w'|w'] eqn:Hrun.
  - destruct H as (rows & Hrec & Hcount). exists rows. split; [exact Hrec|].
    apply Hcount. vm_compute. left.
  - destruct H as (rows & [Hrec Hcount] & _). exists rows. split; [exact Hrec|].
    apply Hcount. vm_compute. left.
  - destruct H as (rows & [Hrec Hcount] & _). exists rows. split; [exact Hrec|].
    apply Hcount. vm_compute. left.
  - vm_compute in Hrun. discriminate Hrun.
  - destruct H as (rows & [Hrec Hcount] & _). exists rows. split; [exact Hrec|].
    apply Hcount. vm_compute. left.
Defined.

(** ** The order of the listing requests *)

Lemma listing_requests_trace w :
  listing_requests w = omap page_of_event (rev (trace w)).
Proof.
  unfold listing_requests, fetches.
  induction (rev (trace w)) as [|e l IH]; [done|].
  destruct e as [[p|href]| | | | |]; simpl; first [exact IH|f_equal; exact IH].
Qed.

Lemma listing_requests_app w w' evs :
  trace w' = evs ++ trace w →
  listing_requests w' = listing_requests w ++ omap page_of_event (rev evs).
Proof.
  intros Ht. by rewrite !listing_requests_trace, Ht, rev_app_distr, omap_app.
Qed.

Lemma omap_rev_nil {A B} (f : A → option B) (l : list A) :
  omap f l = [] → omap f (rev l) = [].
Proof.
  induction l as [|x l IH]; [done|]. simpl.
  destruct (f x) eqn:Hx; [done|]. intros Hl.
  by rewrite omap_app, IH; [simpl; rewrite Hx|].
Qed.

#[local] Instance no_listing_request_preorder : PreOrder no_listing_request.
Proof.
  split.
  - intros w. by exists [].
  - intros w1 w2 w3 (e1 & T1 & N1) (e2 & T2 & N2). exists (e2 ++ e1).
    split; [by rewrite T2, T1, app_assoc|]. by rewrite omap_app, N1, N2.
Qed.

Lemma no_listing_request_log (evs : list Event) (w w' : World) :
  trace w' = evs ++ trace w → omap page_of_event evs = [] → no_listing_request w w'.
Proof. intros. by exists evs. Qed.

Lemma scrape_single_work_no_listing E work page bins :
  run_rel no_listing_request (scrape_single_work E work page bins).
Proof.
  intros w.
  destruct (scrape_single_work_cases E work page bins w)
    as [[-> _]|(title & href & _ & _ & Hcases)]; [simpl; reflexivity|].
  simpl in Hcases. destruct Hcases as [[-> _]|(d & _ & Hcases)].
  { by exists [EvFetch (WorkUrl (site +:+ href))]. }
  destruct (w_id work) as [i|].
  - destruct (find_bin bins (w_kudos work)) as [b|];
      [destruct (strata_counts w !! b.1)|]; rewrite Hcases.
    + by exists [EvStrataSaved; EvSeenAppend i; EvSeenAdd (Some i);
                 EvRow (Some i) (w_kudos work); EvFetch (WorkUrl (site +:+ href))].
    + by exists [EvSeenAppend i; EvSeenAdd (Some i);
                 EvRow (Some i) (w_kudos work); EvFetch (WorkUrl (site +:+ href))].
    + by exists [EvStrataSaved; EvSeenAppend i; EvSeenAdd (Some i);
                 EvRow (Some i) (w_kudos work); EvFetch (WorkUrl (site +:+ href))].
  - rewrite Hcases.
    by exists [EvSeenAdd None; EvRow None (w_kudos work); EvFetch (WorkUrl (site +:+ href))].
Qed.

Lemma item_loop_no_listing E page bins mwc : ∀ sampled c,
  run_rel no_listing_request (item_loop E sampled page bins mwc c).
Proof.
  induction sampled as [|work rest IH]; intros c; cbn [item_loop].
  - apply run_rel_ret, _.
  - apply run_rel_get. intros w. case_decide; [done|].
    apply run_rel_bind; [apply _|apply scrape_single_work_no_listing|]. intros _.
    case_match; [apply run_rel_ret, _|done].
Qed.

Lemma visits_cons page k reps :
  visits page (k :: reps) = replicate k page ++ visits (page + 1) reps.
Proof.
  unfold visits. rewrite imap_cons. simpl. rewrite Z.add_0_r. f_equal. f_equal.
  apply imap_ext. intros i r _. simpl. f_equal. lia.
Qed.

Lemma omap_replicate_fetch (k : nat) page :
  omap page_of_event (rev (replicate k (EvFetch (PageUrl page)))) = replicate k page.
Proof.
  assert (rev (replicate k (EvFetch (PageUrl page))) = replicate k (EvFetch (PageUrl page)))
    as -> by (induction k as [|k IH]; [done|]; simpl; by rewrite IH, <-replicate_S_end).
  induction k as [|k IH]; [done|]. simpl. f_equal. exact IH.
Qed.

(** What one turn of the page loop asks the listing for. *)
Lemma page_body_requests E mwc smp page c w :
  ∃ k : nat, (1 ≤ k ≤ 3)%nat
    ∧ listing_requests (final_world (page_body E mwc smp page c w))
      = listing_requests w ++ replicate k page.
Proof.
  unfold page_body. rewrite mbind_unfold.
  pose proof (fetch_listing_frame E page w) as (_ & _ & _ & _ & k & Hk & _ & Ht1).
  exists k. split; [done|].
  assert (listing_requests (final_world (fetch_listing E page max_retries w))
          = listing_requests w ++ replicate k page) as H1
    by (by rewrite (listing_requests_app _ _ _ Ht1), omap_replicate_fetch).
  destruct (fetch_listing E page max_retries w) as [soup w1|h w1|w1]; [|done..].
  simpl in H1. rewrite mbind_unfold.
  pose proof (apply_sampling_frame E (sampling_strategy smp) (sampling_percentage smp)
                (li_works soup) (sampling_n smp) (kudos_bins smp) w1)
    as (_ & _ & _ & Ht2 & _).
  assert (listing_requests (final_world (apply_sampling E (sampling_strategy smp)
            (sampling_percentage smp) (li_works soup) (sampling_n smp) (kudos_bins smp) w1))
          = listing_requests w ++ replicate k page) as H2
    by (by rewrite listing_requests_trace, Ht2, <-listing_requests_trace).
  destruct (apply_sampling _ _ _ _ _ _ w1) as [sampled w2|h w2|w2]; [|done..].
  simpl in H2. rewrite mbind_unfold. cbn [modify].
  destruct (item_loop_no_listing E page (kudos_bins smp) mwc sampled c (save_page page w2))
    as (evs & Ht3 & Hnone).
  rewrite (listing_requests_app _ _ _ Ht3), (omap_rev_nil _ _ Hnone), app_nil_r.
  rewrite (listing_requests_app w2 (save_page page w2) [EvPageSaved page]) by done.
  simpl. by rewrite app_nil_r.
Qed.

Lemma page_loop_requests E end_page mwc smp : ∀ fuel page c w,
  ∃ reps : list nat,
    Forall (λ r, 1 ≤ r ≤ 3)%nat reps
    ∧ (length reps ≤ fuel)%nat
    ∧ listing_requests (final_world (page_loop E fuel end_page mwc smp page c w))
      = listing_requests w ++ visits page reps
    ∧ (truthy end_page = true →
       Forall (λ p, p ≤ default 0 end_page) (visits page reps)).
Proof.
  induction fuel as [|fuel IH]; intros page c w.
  { exists []. simpl. rewrite app_nil_r. split_and!; first [done|lia]. }
  rewrite page_loop_unfold.
  destruct (truthy end_page && (page >? default 0 end_page)) eqn:Hend.
  { exists []. simpl. rewrite app_nil_r. split_and!; first [done|lia]. }
  assert (truthy end_page = true → page ≤ default 0 end_page) as Hle.
  { intros Ht. rewrite Ht in Hend. simpl in Hend. lia. }
  destruct (page_body_requests E mwc smp page c w) as (k & Hk & Hreq).
  assert (∃ reps : list nat,
            Forall (λ r, 1 ≤ r ≤ 3)%nat reps ∧ (length reps ≤ S fuel)%nat
            ∧ listing_requests w ++ replicate k page
              = listing_requests w ++ visits page reps
            ∧ (truthy end_page = true →
               Forall (λ p, p ≤ default 0 end_page) (visits page reps))) as Hone.
  { exists [k]. rewrite visits_cons. unfold visits. simpl. rewrite app_nil_r.
    split_and!; [by apply Forall_singleton|lia|done|].
    intros Ht. apply Forall_replicate. auto. }
  destruct (page_body E mwc smp page c w) as [[c' b] w1|h w1|w1];
    simpl in Hreq; [|simpl; rewrite Hreq; exact Hone..].
  destruct b; [simpl; rewrite Hreq; exact Hone|].
  destruct (IH (page + 1) c' w1) as (reps & Hall & Hlen & Hreps & Hbound).
  exists (k :: reps). rewrite visits_cons. split_and!.
  - by constructor.
  - simpl. lia.
  - by rewrite Hreps, Hreq, app_assoc.
  - intros Ht. apply Forall_app. split; [|by apply Hbound].
    apply Forall_replicate. auto.
Qed.

(** X14.  The listing pages are requested in order and without gaps: the
    run asks for its first page, then for the next one, and so on, each
    page at least once and at most three times in a row, one page for each
    turn of the loop; no page beyond the configured end page is asked
    for. *)
Theorem pages_are_requested_in_order E fuel cfg f :
  ∃ reps : list nat,
    Forall (λ r, 1 ≤ r ≤ 3)%nat reps
    ∧ (length reps ≤ fuel)%nat
    ∧ listing_requests (final_world (main E fuel cfg (boot f)))
      = visits (first_page cfg (boot f)) reps
    ∧ (truthy (last_page cfg) = true →
       Forall (λ p, p ≤ default 0 (last_page cfg)) (visits (first_page cfg (boot f)) reps)).
Proof.
  rewrite main_unfold.
  destruct (page_loop_requests E (last_page cfg) (cfg_max_work_count cfg) (cfg_sampling cfg)
              fuel (first_page cfg (boot f)) 0 (startup cfg (boot f)))
    as (reps & Hall & Hlen & Hreq & Hbound).
  exists reps. split_and!; try done.
  assert (listing_requests (startup cfg (boot f)) = []) as Hstart
    by (by rewrite listing_requests_trace, startup_trace).
  rewrite Hstart in Hreq. simpl in Hreq.
  by destruct (page_loop _ _ _ _ _ _ _ _) as [[] wl|hl wl|wl].
Qed.

(** ** The page number in the URL *)

Section DictKeys.
Context {K V : Type} `{EqDecision K}.
Implicit Types d : list (K * V).

Lemma dict_update_keys (f : V → V) k d : (dict_update f k d).*1 = d.*1.
Proof.
  induction d as [|[k' v'] d IH]; [done|].
  cbn [dict_update]. case_decide; rewrite !fmap_cons; [done|]. by rewrite IH.
Qed.

Lemma dict_set_keys k v d :
  (dict_set k v d).*1 = if decide (k ∈ d.*1) then d.*1 else d.*1 ++ [k].
Proof.
  induction d as [|[k' v'] d IH]; [done|].
  cbn [dict_set]. rewrite !fmap_cons. cbn [fst].
  destruct (decide (k = k')) as [->|Hne].
  - rewrite decide_True by left. done.
  - rewrite fmap_cons, IH. cbn [fst].
    destruct (decide (k ∈ d.*1)) as [Hin|Hout].
    + rewrite decide_True by (by right). done.
    + rewrite decide_False; [done|]. by intros [?|?]%elem_of_cons.
Qed.

Lemma dict_set_NoDup k v d : NoDup d.*1 → NoDup (dict_set k v d).*1.
Proof.
  intros Hnd. rewrite dict_set_keys. case_decide; [done|].
  apply NoDup_app. split_and!; [done| |apply NoDup_singleton].
  by intros x Hx ->%list_elem_of_singleton.
Qed.

Lemma dict_set_twice k v v' d : dict_set k v (dict_set k v' d) = dict_set k v d.
Proof.
  induction d as [|[k' u] d IH]; simpl.
  - by rewrite decide_True.
  - case_decide; simpl.
    + by rewrite decide_True.
    + rewrite decide_False by done. by rewrite IH.
Qed.

Lemma dict_update_app_fresh (f : V → V) k v d :
  k ∉ d.*1 → dict_update f k (d ++ [(k, v)]) = d ++ [(k, f v)].
Proof.
  induction d as [|[k' v'] d IH]; intros Hk; simpl.
  - by rewrite decide_True.
  - rewrite fmap_cons, not_elem_of_cons in Hk. destruct Hk as [Hne Hk].
    rewrite decide_False by done. by rewrite IH.
Qed.
End DictKeys.

Lemma collected_notin name d : name ∉ d.*1 → collected name d = [].
Proof.
  intros Hn. unfold collected. rewrite filter_none; [done|].
  intros kv Hkv <-. apply Hn. by apply list_elem_of_fmap_2.
Qed.

Lemma collected_cons name k vs d :
  collected name ((k, vs) :: d)
  = (if decide (k = name) then vs else []) ++ collected name d.
Proof.
  unfold collected. case_decide.
  - by rewrite filter_cons_True.
  - by rewrite filter_cons_False.
Qed.

Lemma collected_app name d1 d2 :
  collected name (d1 ++ d2) = collected name d1 ++ collected name d2.
Proof. unfold collected. by rewrite filter_app, fmap_app, concat_app. Qed.

Lemma values_of_app name f1 f2 :
  values_of name (f1 ++ f2) = values_of name f1 ++ values_of name f2.
Proof. unfold values_of. by rewrite filter_app, fmap_app. Qed.

Lemma values_of_same name k (vs : list string) :
  values_of name ((λ v, (k, v)) <$> vs) = if decide (k = name) then vs else [].
Proof.
  unfold values_of. induction vs as [|v vs IH]; [by case_decide|].
  rewrite fmap_cons. destruct (decide (k = name)) as [Heq|Hne].
  - rewrite filter_cons_True by done. rewrite fmap_cons, IH. done.
  - rewrite filter_cons_False by done. done.
Qed.

Lemma urlencode_cons kv d :
  urlencode (kv :: d) = ((λ v, (kv.1, v)) <$> kv.2) ++ urlencode d.
Proof. reflexivity. Qed.

Lemma urlencode_values name d : values_of name (urlencode d) = collected name d.
Proof.
  induction d as [|[k vs] d IH]; [done|].
  by rewrite urlencode_cons, values_of_app, values_of_same, collected_cons, IH.
Qed.

Lemma dict_update_collected name k v d : NoDup d.*1 → k ∈ d.*1 →
  collected name (dict_update (λ l, l ++ [v]) k d)
  = collected name d ++ if decide (k = name) then [v] else [].
Proof.
  induction d as [|[k' vs] d IH]; intros Hnd Hk; [by apply elem_of_nil in Hk|].
  rewrite fmap_cons in Hnd, Hk. cbn [fst] in Hnd, Hk.
  apply NoDup_cons in Hnd as [Hk' Hnd]. cbn [dict_update].
  destruct (decide (k = k')) as [->|Hne].
  - rewrite !collected_cons.
    destruct (decide (k' = name)) as [<-|?].
    + rewrite (collected_notin k' d) by done. by rewrite !app_nil_r.
    + simpl. by rewrite app_nil_r.
  - apply elem_of_cons in Hk as [?|Hk]; [done|].
    rewrite !collected_cons, IH by done. by rewrite app_assoc.
Qed.

Lemma dict_set_collected name k vs (d : list (string * list string)) : NoDup d.*1 →
  collected name (dict_set k vs d) = if decide (k = name) then vs else collected name d.
Proof.
  induction d as [|[k' us] d IH]; intros Hnd.
  - simpl. rewrite collected_cons. case_decide; by rewrite ?app_nil_r.
  - rewrite fmap_cons in Hnd. cbn [fst] in Hnd. apply NoDup_cons in Hnd as [Hk' Hnd].
    cbn [dict_set]. destruct (decide (k = k')) as [->|Hne].
    + rewrite !collected_cons. destruct (decide (k' = name)) as [<-|?]; [|done].
      by rewrite collected_notin, app_nil_r.
    + rewrite !collected_cons, IH by done.
      destruct (decide (k = name)) as [<-|?]; [|done].
      by rewrite decide_False by done.
Qed.

Lemma parse_qs_snoc fields field :
  parse_qs (fields ++ [field]) = parse_qs_add (parse_qs fields) field.
Proof. unfold parse_qs. by rewrite foldl_snoc. Qed.

Lemma parse_qs_add_NoDup d field : NoDup d.*1 → NoDup (parse_qs_add d field).*1.
Proof.
  intros Hnd. unfold parse_qs_add. case_decide.
  - by rewrite dict_update_keys.
  - by apply dict_set_NoDup.
Qed.

Lemma parse_qs_NoDup fields : NoDup (parse_qs fields).*1.
Proof.
  induction fields as [|field fields IH] using rev_ind; [constructor|].
  rewrite parse_qs_snoc. by apply parse_qs_add_NoDup.
Qed.

Lemma parse_qs_collected name fields :
  collected name (parse_qs fields) = values_of name fields.
Proof.
  induction fields as [|[k v] fields IH] using rev_ind; [done|].
  rewrite parse_qs_snoc, values_of_app, <-IH. unfold parse_qs_add. simpl.
  pose proof (parse_qs_NoDup fields) as Hnd.
  assert (values_of name [(k, v)] = if decide (k = name) then [v] else []) as ->
    by apply (values_of_same name k [v]).
  case_decide as Hin.
  - by apply dict_update_collected.
  - rewrite dict_set_fresh, collected_app, collected_cons by done.
    unfold collected at 3. simpl. by rewrite app_nil_r.
Qed.

(** X15.  [update_url_page_number] changes the query and nothing else of
    the URL.  In the new query the name [page] has exactly one value, the
    decimal numeral of the page number, whatever the old query held under
    that name, and every other name has the values it had, in the same
    order.  URLs made for different page numbers differ. *)
Theorem page_number_is_the_only_change url page_number :
  (∀ name,
     values_of name (query (update_url_page_number url page_number))
     = if decide (name = "page"%string) then [pretty page_number]
       else values_of name (query url))
  ∧ (scheme (update_url_page_number url page_number) = scheme url
     ∧ netloc (update_url_page_number url page_number) = netloc url
     ∧ path (update_url_page_number url page_number) = path url
     ∧ params (update_url_page_number url page_number) = params url
     ∧ fragment (update_url_page_number url page_number) = fragment url)
  ∧ ∀ other, update_url_page_number url other = update_url_page_number url page_number →
             other = page_number.
Proof.
  assert (∀ n name,
            values_of name (query (update_url_page_number url n))
            = if decide (name = "page"%string) then [pretty n]
              else values_of name (query url)) as Hvalues.
  { intros n name. unfold update_url_page_number. cbn [query].
    rewrite urlencode_values, dict_set_collected by apply parse_qs_NoDup.
    rewrite parse_qs_collected.
    destruct (decide (name = "page"%string)) as [->|Hne].
    - by rewrite decide_True.
    - by rewrite decide_False. }
  split; [apply Hvalues|]. split; [done|].
  intros other Heq.
  pose proof (Hvalues other "page"%string) as H1.
  pose proof (Hvalues page_number "page"%string) as H2.
  rewrite Heq, H2 in H1. rewrite decide_True in H1 by done.
  injection H1 as H1. by apply (inj pretty) in H1.
Qed.

(** *** Queries without repeated names *)

Lemma parse_qs_add_fresh acc (fields : list (string * string)) :
  NoDup (acc.*1 ++ fields.*1) →
  foldl parse_qs_add acc fields = acc ++ ((λ f, (f.1, [f.2])) <$> fields).
Proof.
  revert acc. induction fields as [|[k v] fields IH]; intros acc Hnd; simpl.
  - by rewrite app_nil_r.
  - assert (k ∉ acc.*1) as Hk.
    { apply NoDup_app in Hnd as (_ & Hd & _). intros Hin. apply (Hd _ Hin). left. }
    assert (parse_qs_add acc (k, v) = acc ++ [(k, [v])]) as ->.
    { unfold parse_qs_add. simpl. rewrite decide_False by done.
      by rewrite dict_set_fresh. }
    rewrite IH.
    + by rewrite <-app_assoc.
    + rewrite fmap_app. simpl. by rewrite <-app_assoc.
Qed.

Lemma dict_set_singletons k (v : string) (fields : list (string * string)) :
  dict_set k [v] ((λ f, (f.1, [f.2])) <$> fields)
  = (λ f, (f.1, [f.2])) <$> dict_set k v fields.
Proof.
  induction fields as [|[k' v'] fields IH]; [done|].
  rewrite fmap_cons. simpl. case_decide; [done|]. by rewrite fmap_cons, IH.
Qed.

Lemma urlencode_singletons (fields : list (string * string)) :
  urlencode ((λ f, (f.1, [f.2])) <$> fields) = fields.
Proof.
  induction fields as [|[k v] fields IH]; [done|].
  rewrite fmap_cons, urlencode_cons, IH. done.
Qed.

(** X16.  When no name occurs twice in the query, the fields keep their
    order: the value of [page] is replaced where it stands, and a query
    without [page] gets the field at its end. *)
Theorem query_order_is_kept url page_number :
  NoDup (query url).*1 →
  query (update_url_page_number url page_number)
  = dict_set "page"%string (pretty page_number) (query url).
Proof.
  intros Hnd. unfold update_url_page_number, parse_qs. cbn [query].
  rewrite parse_qs_add_fresh by done. simpl.
  by rewrite dict_set_singletons, urlencode_singletons.
Qed.

Lemma query_order_is_kept_witness :
  query (update_url_page_number tag_listing 12)
  = [("commit", "Sort and Filter"); ("page", "12");
     ("work_search[sort_column]", "kudos_count")]%string.
Proof.
  assert (NoDup (query tag_listing).*1) as Hnd.
  { apply (bool_decide_unpack _). vm_compute. exact I. }
  rewrite (query_order_is_kept tag_listing 12 Hnd). reflexivity.
Defined.

(** *** Updating twice *)

Lemma parse_qs_add_values acc k : k ∉ acc.*1 → ∀ (vs l : list string),
  foldl parse_qs_add (acc ++ [(k, l)]) ((λ v, (k, v)) <$> vs) = acc ++ [(k, l ++ vs)].
Proof.
  intros Hk. induction vs as [|v vs IH]; intros l; simpl.
  - by rewrite app_nil_r.
  - assert (parse_qs_add (acc ++ [(k, l)]) (k, v) = acc ++ [(k, l ++ [v])]) as ->.
    { unfold parse_qs_add. simpl.
      rewrite decide_True by (rewrite fmap_app; apply elem_of_app; right; left).
      by rewrite dict_update_app_fresh. }
    rewrite IH. by rewrite <-app_assoc.
Qed.

Lemma parse_qs_urlencode (d : list (string * list string)) : ∀ acc,
  NoDup (acc.*1 ++ d.*1) → Forall (λ kv, kv.2 ≠ []) d →
  foldl parse_qs_add acc (urlencode d) = acc ++ d.
Proof.
  induction d as [|[k vs] d IH]; intros acc Hnd Hne.
  - by rewrite app_nil_r.
  - apply Forall_cons in Hne as [Hvs Hne]. simpl in Hvs.
    destruct vs as [|v vs]; [done|].
    assert (k ∉ acc.*1) as Hk.
    { apply NoDup_app in Hnd as (_ & Hd & _). intros Hin. apply (Hd _ Hin). left. }
    assert (parse_qs_add acc (k, v) = acc ++ [(k, [v])]) as Hadd.
    { unfold parse_qs_add. simpl. rewrite decide_False by done.
      by rewrite dict_set_fresh. }
    rewrite urlencode_cons, foldl_app. cbn [fst snd]. rewrite fmap_cons. cbn [foldl].
    rewrite Hadd, (parse_qs_add_values acc k Hk vs [v]). simpl.
    rewrite IH; [by rewrite <-app_assoc| |done].
    rewrite fmap_app. simpl. by rewrite <-app_assoc.
Qed.

Lemma dict_update_nonempty (k : string) (v : string) (d : list (string * list string)) :
  Forall (λ kv, kv.2 ≠ []) d →
  Forall (λ kv, kv.2 ≠ []) (dict_update (λ l, l ++ [v]) k d).
Proof.
  induction 1 as [|[k' vs] d Hvs Hd IH]; [constructor|].
  cbn [dict_update]. case_decide; constructor; try done.
  simpl. intros Heq. by apply app_eq_nil in Heq as [_ ?].
Qed.

Lemma dict_set_nonempty (k : string) (vs : list string) (d : list (string * list string)) :
  vs ≠ [] → Forall (λ kv, kv.2 ≠ []) d → Forall (λ kv, kv.2 ≠ []) (dict_set k vs d).
Proof.
  intros Hvs. induction 1 as [|[k' us] d Hus Hd IH]; simpl.
  - by repeat constructor.
  - case_decide; constructor; done.
Qed.

Lemma parse_qs_nonempty fields : Forall (λ kv, kv.2 ≠ []) (parse_qs fields).
Proof.
  induction fields as [|field fields IH] using rev_ind; [constructor|].
  rewrite parse_qs_snoc. unfold parse_qs_add. case_decide.
  - by apply dict_update_nonempty.
  - by apply dict_set_nonempty.
Qed.

(** X17.  Updating the page number of an updated URL gives the URL made
    for the second number from the original: the loop can derive each
    page's URL from the configured one or from the previous page's
    alike. *)
Theorem last_page_number_wins url first second :
  update_url_page_number (update_url_page_number url first) second
  = update_url_page_number url second.
Proof.
  unfold update_url_page_number at 1 3. cbn [scheme netloc path params fragment].
  f_equal. f_equal.
  unfold update_url_page_number. cbn [query]. unfold parse_qs at 1.
  rewrite (parse_qs_urlencode _ []).
  - simpl. apply dict_set_twice.
  - simpl. apply dict_set_NoDup, parse_qs_NoDup.
  - apply dict_set_nonempty; [done|apply parse_qs_nonempty].
Qed.

(** ** A stride that is not positive *)

(** X18.  With the systematic strategy and a stride [sampling_n <= 0] the
    draw of the start raises [ValueError] before anything is drawn: the
    turn for a page ends with that exception as soon as the listing is
    fetched, before the page number is saved and before any work is looked
    at, and no file has changed. *)
Theorem nonpositive_stride_stops_the_run E mwc smp page c w :
  sampling_strategy smp = Systematic →
  sampling_n smp ≤ 0 →
  (∀ works,
     apply_sampling E Systematic (sampling_percentage smp) works (sampling_n smp)
                    (kudos_bins smp) w
     = Stop (Crashed ValueError) w)
  ∧ match fetch_listing E page max_retries w with
    | Ret _ w1 =>
        page_body E mwc smp page c w = Stop (Crashed ValueError) w1
        ∧ files w1 = files w
    | Stop h w1 => page_body E mwc smp page c w = Stop h w1
    | Diverge _ => False
    end.
Proof.
  intros Hstrategy Hn.
  assert (∀ works w0,
            apply_sampling E Systematic (sampling_percentage smp) works (sampling_n smp)
                           (kudos_bins smp) w0
            = Stop (Crashed ValueError) w0) as Hcrash.
  { intros works w0. cbn [apply_sampling]. unfold randint.
    replace (sampling_n smp - 1 <? 0) with true by lia. done. }
  split; [intros works; apply Hcrash|].
  unfold page_body. rewrite mbind_unfold.
  pose proof (fetch_listing_frame E page w) as (Hf & _).
  pose proof (settles_fetch_listing E page max_retries w) as Hsettles.
  destruct (fetch_listing E page max_retries w) as [soup w1|h w1|w1];
    [|done|by destruct (Hsettles w1)].
  rewrite mbind_unfold, Hstrategy, Hcrash. done.
Qed.

Lemma nonpositive_stride_stops_the_run_witness :
  page_body two_works None (mkSampling Systematic 50 0 demo_bins) 1 0 (boot no_files)
  = Stop (Crashed ValueError) (fetched (PageUrl 1) (boot no_files)).
Proof.
  pose proof (nonpositive_stride_stops_the_run two_works None
                (mkSampling Systematic 50 0 demo_bins) 1 0 (boot no_files)
                eq_refl ltac:(simpl; lia)) as [_ H].
  exact (proj1 H).
Defined.

(** ** Identifiers recorded as seen *)

(** X19.  A run writes no record for an identifier that it loaded from
    [seen_work_ids.txt] when it started, and none twice: whatever the
    earlier runs left in the CSV output, the identifiers of the new
    records are distinct and none of them is among those read back from
    the file.  Every line of the file that is a token (non-empty, of
    printable ASCII characters other than the blank) is read back, so no
    record is written for it. *)
Theorem seen_file_entries_are_not_scraped_again E fuel cfg f :
  ∃ new,
    sink_ids (files (final_world (main E fuel cfg (boot f))))
    = sink_ids (open_csv (cfg_file_mode cfg) f) ++ new
    ∧ NoDup new
    ∧ (∀ i, i ∈ loaded_ids f → i ∉ new)
    ∧ ∀ s, s ∈ seen_lines f → token s = true →
           Some s ∈ loaded_ids f ∧ Some s ∉ new.
Proof.
  rewrite main_unfold.
  destruct (page_loop_emits E (last_page cfg) (cfg_max_work_count cfg) (cfg_sampling cfg)
              fuel (first_page cfg (boot f)) 0 (startup cfg (boot f)))
    as (new & Hsink & _ & _ & Hnd & Hfresh & _).
  rewrite startup_files in Hsink. rewrite startup_seen in Hfresh.
  exists new. split_and!.
  - by destruct (page_loop _ _ _ _ _ _ _ _) as [[] wl|hl wl|wl].
  - done.
  - intros i Hi Hin. by apply (Hfresh _ Hin).
  - intros s Hs Htok. pose proof (seen_line_loaded f s Hs Htok) as Hl.
    split; [done|]. intros Hin. by apply (Hfresh _ Hin).
Qed.

(** ** Canonical tags *)

Lemma string_app_cons x (a b : string) : String x a +:+ b = String x (a +:+ b).
Proof. reflexivity. Qed.

Lemma string_app_assoc (a b c : string) : (a +:+ b) +:+ c = a +:+ b +:+ c.
Proof. induction a as [|x a IH]; [done|]. by rewrite !string_app_cons, IH. Qed.

Lemma replace_char_app old new (a b : string) :
  replace_char old new (a +:+ b) = replace_char old new a +:+ replace_char old new b.
Proof.
  induction a as [|x a IH]; [done|].
  rewrite string_app_cons. cbn [replace_char].
  destruct (Ascii.eqb x old); rewrite IH.
  - by rewrite string_app_assoc.
  - done.
Qed.

Lemma canonicalize_tag_cons c tag :
  canonicalize_tag (String c tag) = tag_code c +:+ canonicalize_tag tag.
Proof.
  unfold canonicalize_tag, tag_code. cbn [replace_char].
  destruct (Ascii.eqb c "#") eqn:E1.
  { by rewrite !replace_char_app. }
  cbn [replace_char]. destruct (Ascii.eqb c "/") eqn:E2.
  { by rewrite !replace_char_app. }
  cbn [replace_char]. destruct (Ascii.eqb c "&") eqn:E3.
  { by rewrite !replace_char_app. }
  cbn [replace_char]. destruct (Ascii.eqb c ".") eqn:E4.
  { by rewrite !replace_char_app. }
  cbn [replace_char]. destruct (Ascii.eqb c "?") eqn:E5; done.
Qed.

(** X20.  The five replacements of [canonicalize_tag] do not interfere:
    the result is the tag with each character replaced on its own, [#] by
    nothing, [/], [&], [.] and [?] by their codes, and any other character
    by itself. *)
Theorem canonicalize_tag_is_one_substitution tag :
  canonicalize_tag tag = substitute tag_code tag.
Proof.
  induction tag as [|c tag IH]; [done|].
  by rewrite canonicalize_tag_cons, IH.
Qed.

Lemma string_forall_app P (a b : string) :
  string_forall P (a +:+ b) = string_forall P a && string_forall P b.
Proof.
  induction a as [|x a IH]; [done|].
  rewrite string_app_cons. cbn [string_forall]. rewrite IH. by rewrite andb_assoc.
Qed.

Lemma tag_code_clean c : string_forall (λ x, negb (special x)) (tag_code c) = true.
Proof.
  unfold tag_code.
  destruct (Ascii.eqb c "#") eqn:E1; [done|].
  destruct (Ascii.eqb c "/") eqn:E2; [done|].
  destruct (Ascii.eqb c "&") eqn:E3; [done|].
  destruct (Ascii.eqb c ".") eqn:E4; [done|].
  destruct (Ascii.eqb c "?") eqn:E5; [done|].
  simpl. unfold special. by rewrite E1, E2, E3, E4, E5.
Qed.

Lemma tag_code_plain c : special c = false → tag_code c = String c "".
Proof.
  unfold special, tag_code. intros H.
  repeat (apply orb_false_iff in H as [H ?]). by repeat case_match.
Qed.

Lemma canonicalize_tag_clean tag :
  string_forall (λ x, negb (special x)) (canonicalize_tag tag) = true.
Proof.
  induction tag as [|c tag IH]; [done|].
  by rewrite canonicalize_tag_cons, string_forall_app, tag_code_clean, IH.
Qed.

Lemma canonicalize_tag_plain tag :
  string_forall (λ x, negb (special x)) tag = true → canonicalize_tag tag = tag.
Proof.
  induction tag as [|c tag IH]; [done|]. simpl.
  intros [Hc Htag]%andb_true_iff. apply negb_true_iff in Hc.
  by rewrite canonicalize_tag_cons, tag_code_plain, IH.
Qed.

(** X21.  A canonical tag holds none of the characters [#], [/], [&],
    [.] and [?].  The tags that [canonicalize_tag] leaves as they are are
    exactly the tags without these characters, and canonicalizing a
    canonical tag changes nothing. *)
Theorem canonical_tags_are_plain tag :
  string_forall (λ x, negb (special x)) (canonicalize_tag tag) = true
  ∧ (canonicalize_tag tag = tag ↔ string_forall (λ x, negb (special x)) tag = true)
  ∧ canonicalize_tag (canonicalize_tag tag) = canonicalize_tag tag.
Proof.
  split; [apply canonicalize_tag_clean|]. split.
  - split; [|apply canonicalize_tag_plain].
    intros Heq. rewrite <-Heq. apply canonicalize_tag_clean.
  - apply canonicalize_tag_plain, canonicalize_tag_clean.
Qed.

(** ** The URL of a tag *)

Lemma hex_round_trip c :
  ascii_of_nat (16 * hex_value (hex_digit (nat_of_ascii c / 16))
                + hex_value (hex_digit (nat_of_ascii c mod 16))) = c.
Proof. destruct c as [[] [] [] [] [] [] [] []]; reflexivity. Qed.

Lemma unquote_quote s : unquote (quote s) = s.
Proof.
  induction s as [|c s IH]; [done|]. cbn [quote].
  destruct (always_safe c) eqn:Hsafe.
  - cbn [unquote]. destruct (Ascii.eqb c "%") eqn:Hc.
    + apply Ascii.eqb_eq in Hc. subst c. discriminate Hsafe.
    + by rewrite IH.
  - cbn [unquote]. rewrite Ascii.eqb_refl, hex_round_trip. by rewrite IH.
Qed.

Lemma quote_safe s :
  string_forall (λ c, always_safe c || Ascii.eqb c "%") (quote s) = true.
Proof.
  induction s as [|c s IH]; [done|]. cbn [quote].
  destruct (always_safe c) eqn:Hsafe; cbn [string_forall].
  - by rewrite Hsafe, IH.
  - rewrite IH, andb_true_r.
    assert (∀ n, (n < 16)%nat → always_safe (hex_digit n) = true) as Hhex.
    { intros n Hn. do 16 (destruct n as [|n]; [reflexivity|]). lia. }
    rewrite !Hhex; [done|apply Nat.mod_upper_bound; lia|].
    apply Nat.Div0.div_lt_upper_bound.
    pose proof (nat_ascii_bounded c). lia.
Qed.

(** X22.  The URL of a tag is the prefix of the tags of the site
    followed by the percent-encoded canonical tag: it consists of that
    prefix and of letters, digits, [_.-~] and [%XX] escapes, the canonical
    tag can be read back from it, and two tags get the same URL exactly
    when their canonical forms agree. *)
Theorem tag_url_determines_canonical_tag tag :
  (∃ encoded, get_tag_url tag = "https://archiveofourown.org/tags/" +:+ encoded
              ∧ string_forall (λ c, always_safe c || Ascii.eqb c "%") encoded = true
              ∧ unquote encoded = canonicalize_tag tag)
  ∧ ∀ other, get_tag_url other = get_tag_url tag
             ↔ canonicalize_tag other = canonicalize_tag tag.
Proof.
  split.
  - exists (quote (canonicalize_tag tag)). split; [done|].
    split; [apply quote_safe|apply unquote_quote].
  - intros other. unfold get_tag_url. split; [|by intros ->].
    intros Heq%(inj (String.append _)).
    by rewrite <-(unquote_quote (canonicalize_tag other)), Heq, unquote_quote.
Qed.

(** ** The retry loop for a tag page *)

Lemma replies_cons server tag k n :
  replies server tag k (S n) = server k (get_tag_url tag) :: replies server tag (S k) n.
Proof. reflexivity. Qed.

Lemma counted_retries_cons r rs :
  counted_retries (r :: rs)
  = ((if counts_as_retry r then 1 else 0) + counted_retries rs)%nat.
Proof.
  unfold counted_retries. destruct (counts_as_retry r) eqn:Hr.
  - by rewrite filter_cons_True.
  - rewrite filter_cons_False; [done|]. by rewrite Hr.
Qed.

(** The replies before the one that ends the loop all ask for another
    attempt; the loop ends either because three of them counted or on a
    reply that does not ask again. *)
Lemma tag_page_loop_spec server tag : ∀ fuel retry_count k,
  (retry_count ≤ max_retries)%nat →
  ∃ pre : list Reply,
    replies server tag k (length pre) = pre
    ∧ Forall (λ r, asks_again r = true) pre
    ∧ match tag_page_loop server tag fuel retry_count k with
      | Running k' =>
          k' = (k + length pre)%nat ∧ length pre = fuel
          ∧ (retry_count + counted_retries pre ≤ max_retries)%nat
      | Done r k' =>
          (r = None ∧ k' = (k + length pre)%nat
           ∧ (retry_count + counted_retries pre)%nat = max_retries)
          ∨ (k' = (k + length pre + 1)%nat
             ∧ (retry_count + counted_retries pre < max_retries)%nat
             ∧ asks_again (server (k + length pre)%nat (get_tag_url tag)) = false
             ∧ r = result_of tag (server (k + length pre)%nat (get_tag_url tag)))
      end.
Proof.
  induction fuel as [|fuel IH]; intros retry_count k Hretry.
  { exists []. simpl. split; [done|]. split; [done|]. split; [lia|]. split; [done|].
    unfold counted_retries. simpl. lia. }
  cbn [tag_page_loop].
  destruct (max_retries <=? retry_count)%nat eqn:Hmax.
  { apply Nat.leb_le in Hmax. exists []. simpl. split; [done|]. split; [done|].
    left. split; [done|]. split; [lia|]. unfold counted_retries. simpl. lia. }
  apply Nat.leb_gt in Hmax.
  assert (∀ retry',
            (retry' ≤ max_retries)%nat →
            asks_again (server k (get_tag_url tag)) = true →
            (retry' = retry_count + if counts_as_retry (server k (get_tag_url tag))
                                    then 1 else 0)%nat →
            ∃ pre : list Reply,
              replies server tag k (length pre) = pre
              ∧ Forall (λ r, asks_again r = true) pre
              ∧ match tag_page_loop server tag fuel retry' (S k) with
                | Running k' =>
                    k' = (k + length pre)%nat ∧ length pre = S fuel
                    ∧ (retry_count + counted_retries pre ≤ max_retries)%nat
                | Done r k' =>
                    (r = None ∧ k' = (k + length pre)%nat
                     ∧ (retry_count + counted_retries pre)%nat = max_retries)
                    ∨ (k' = (k + length pre + 1)%nat
                       ∧ (retry_count + counted_retries pre < max_retries)%nat
                       ∧ asks_again (server (k + length pre)%nat (get_tag_url tag)) = false
                       ∧ r = result_of tag (server (k + length pre)%nat (get_tag_url tag)))
                end) as Hagain.
  { intros retry' Hle Hasks Hcount.
    destruct (IH retry' (S k) Hle) as (pre & Hpre & Hall & Hout).
    exists (server k (get_tag_url tag) :: pre).
    cbn [length]. rewrite replies_cons, Hpre, counted_retries_cons.
    split; [done|]. split; [by constructor|].
    replace (k + S (length pre))%nat with (S k + length pre)%nat by lia.
    destruct (tag_page_loop server tag fuel retry' (S k)) as [r k'|k'].
    - destruct Hout as [(-> & -> & Hc)|(-> & Hc & Hlast & ->)].
      + left. split_and!; try done. lia.
      + right. split_and!; try done; lia.
    - destruct Hout as (-> & Hlen & Hc). split_and!; lia. }
  assert (asks_again (server k (get_tag_url tag)) = false →
          ∃ pre : list Reply,
            replies server tag k (length pre) = pre
            ∧ Forall (λ r, asks_again r = true) pre
            ∧ (S k = (k + length pre + 1)%nat
               ∧ (retry_count + counted_retries pre < max_retries)%nat
               ∧ asks_again (server (k + length pre)%nat (get_tag_url tag)) = false
               ∧ result_of tag (server k (get_tag_url tag))
                 = result_of tag (server (k + length pre)%nat (get_tag_url tag))))
    as Hfinal.
  { intros Hno. exists []. cbn [length]. rewrite Nat.add_0_r.
    split; [done|]. split; [done|].
    split; [lia|]. split; [unfold counted_retries; simpl; lia|]. done. }
  destruct (server k (get_tag_url tag)) as [| | |status_code content] eqn:Hreply.
  - apply (Hagain (S retry_count)); [lia|done|simpl; lia].
  - apply (Hagain (S retry_count)); [lia|done|simpl; lia].
  - destruct Hfinal as (pre & ? & ? & Hout); [done|].
    exists pre. split; [done|]. split; [done|]. by right.
  - destruct (status_code =? 429) eqn:H429.
    { assert ((status_code =? 522) = false) as H522
        by (apply Z.eqb_eq in H429 as ->; reflexivity).
      apply (Hagain retry_count); [lia|simpl; by rewrite H429|].
      simpl. rewrite H522. lia. }
    destruct (status_code =? 522) eqn:H522.
    { apply (Hagain (S retry_count)); [lia|simpl; by rewrite H429, H522|].
      simpl. rewrite H522. lia. }
    destruct Hfinal as (pre & ? & ? & Hout); [simpl; by rewrite H429, H522|].
    exists pre. split; [done|]. split; [done|].
    simpl in Hout. destruct (status_code =? 200); by right.
Qed.

(** X23.  [scrape_tag_page] asks for the page of a tag until a reply
    does not ask for another attempt or three replies have counted as
    retries.  The replies before the last one are timeouts, connection
    errors or responses with status 429 or 522, and 429 does not count.
    It returns a row only for a response with status 200, made of the tag,
    its URL and the three lists of the page joined by ["; "]; it returns
    nothing after the third counted retry, on any other exception and on
    any other status. *)
Theorem tag_page_result server tag fuel k :
  ∃ pre : list Reply,
    replies server tag k (length pre) = pre
    ∧ Forall (λ r, asks_again r = true) pre
    ∧ match scrape_tag_page server tag fuel k with
      | Running k' =>
          k' = (k + length pre)%nat ∧ length pre = fuel
          ∧ (counted_retries pre ≤ 3)%nat
      | Done r k' =>
          (r = None ∧ k' = (k + length pre)%nat ∧ counted_retries pre = 3%nat)
          ∨ (k' = (k + length pre + 1)%nat
             ∧ (counted_retries pre < 3)%nat
             ∧ asks_again (server (k + length pre)%nat (get_tag_url tag)) = false
             ∧ r = result_of tag (server (k + length pre)%nat (get_tag_url tag))
             ∧ ∀ row, r = Some row →
                 ∃ content, server (k + length pre)%nat (get_tag_url tag)
                            = Replied 200 content
                            ∧ row = mkTagRow tag (get_tag_url tag)
                                      (String.concat "; " (parent_tags content))
                                      (String.concat "; " (synonym_tags content))
                                      (String.concat "; " (sub_tags content)))
      end.
Proof.
  destruct (tag_page_loop_spec server tag fuel 0 k) as (pre & Hpre & Hall & Hout);
    [unfold max_retries; lia|].
  exists pre. split; [done|]. split; [done|]. unfold scrape_tag_page.
  destruct (tag_page_loop server tag fuel 0 k) as [r k'|k']; unfold max_retries in Hout.
  - destruct Hout as [(-> & -> & Hc)|(-> & Hc & Hlast & ->)]; [left; by split_and!|].
    right. split_and!; try done.
    intros row Hrow.
    destruct (server (k + length pre)%nat (get_tag_url tag)) as [| | |code content];
      try done.
    simpl in Hrow. destruct (code =? 200) eqn:Hcode; [|done].
    apply Z.eqb_eq in Hcode as ->. injection Hrow as <-. by exists content.
  - destruct Hout as (-> & Hlen & Hc). by split_and!.
Qed.

Lemma counted_retries_no_429 server tag k (pre : list Reply) :
  (∀ j content, server j (get_tag_url tag) ≠ Replied 429 content) →
  replies server tag k (length pre) = pre →
  Forall (λ r, asks_again r = true) pre →
  counted_retries pre = length pre.
Proof.
  intros Hno. revert k. induction pre as [|r pre IH]; intros k Hpre Hall; [done|].
  cbn [length] in Hpre. rewrite replies_cons in Hpre. injection Hpre as Hr Hpre.
  apply Forall_cons in Hall as [Hasks Hall].
  rewrite counted_retries_cons, (IH (S k)) by done.
  assert (counts_as_retry r = true) as ->; [|done].
  destruct r as [| | |code content]; try done. simpl in *.
  destruct (code =? 429) eqn:H429; [|done].
  apply Z.eqb_eq in H429 as ->. by destruct (Hno k content).
Qed.

Lemma tag_page_loop_done server tag fuel retry_count k :
  (∀ j content, server j (get_tag_url tag) ≠ Replied 429 content) →
  (retry_count ≤ max_retries)%nat →
  (max_retries < fuel + retry_count)%nat →
  ∃ r k', tag_page_loop server tag fuel retry_count k = Done r k'
          ∧ (k' + retry_count ≤ k + max_retries)%nat.
Proof.
  intros Hno Hretry Hfuel.
  destruct (tag_page_loop_spec server tag fuel retry_count k Hretry)
    as (pre & Hpre & Hall & Hout).
  pose proof (counted_retries_no_429 server tag k pre Hno Hpre Hall) as Hc.
  destruct (tag_page_loop server tag fuel retry_count k) as [r k'|k'].
  - exists r, k'. split; [done|]. destruct Hout as [(_ & -> & ?)|(-> & ? & _)]; lia.
  - destruct Hout as (_ & ? & ?). lia.
Qed.

(** X24.  A site that never answers 429 is asked at most three times for
    a tag: with four turns of the loop [scrape_tag_page] is done. *)
Theorem tag_page_is_done_without_429 server tag fuel k :
  (∀ j content, server j (get_tag_url tag) ≠ Replied 429 content) →
  (4 ≤ fuel)%nat →
  ∃ r k', scrape_tag_page server tag fuel k = Done r k' ∧ (k' ≤ k + 3)%nat.
Proof.
  intros Hno Hfuel.
  destruct (tag_page_loop_done server tag fuel 0 k Hno) as (r & k' & Hrun & Hk);
    [unfold max_retries; lia..|].
  exists r, k'. split; [done|]. unfold max_retries in Hk. lia.
Qed.

Lemma tag_page_is_done_without_429_witness :
  ∃ r k', scrape_tag_page slow_server "Fluff" 4 0 = Done r k' ∧ (k' ≤ 0 + 3)%nat.
Proof.
  apply tag_page_is_done_without_429; [|lia].
  intros j content. unfold slow_server. by destruct (j =? 0)%nat.
Defined.

Lemma tag_page_loop_429 server tag :
  (∀ j, ∃ content, server j (get_tag_url tag) = Replied 429 content) →
  ∀ fuel retry_count k,
    (retry_count < max_retries)%nat →
    tag_page_loop server tag fuel retry_count k = Running (k + fuel).
Proof.
  intros Hbusy. induction fuel as [|fuel IH]; intros retry_count k Hretry.
  - simpl. by rewrite Nat.add_0_r.
  - cbn [tag_page_loop].
    replace (max_retries <=? retry_count)%nat with false
      by (symmetry; by apply Nat.leb_gt).
    destruct (Hbusy k) as [content ->]. simpl. rewrite IH by done. f_equal. lia.
Qed.

(** X25.  Status 429 is retried without bound: against a site that
    answers every request for the page of a tag with 429,
    [scrape_tag_page] makes one request in each turn of its loop and is
    never done, however many turns it is given. *)
Theorem status_429_is_retried_without_bound server tag :
  (∀ j, ∃ content, server j (get_tag_url tag) = Replied 429 content) →
  ∀ fuel k, scrape_tag_page server tag fuel k = Running (k + fuel).
Proof.
  intros Hbusy fuel k. apply tag_page_loop_429; [done|]. unfold max_retries. lia.
Qed.

Lemma status_429_is_retried_without_bound_witness :
  scrape_tag_page busy_server "Fluff" 1000 0 = Running 1000.
Proof.
  apply (status_429_is_retried_without_bound busy_server "Fluff").
  intros j. by eexists.
Defined.

(** ** The loop over the tags *)

Lemma scrape_tag_page_tag_name server tag fuel k data k' :
  scrape_tag_page server tag fuel k = Done (Some data) k' → tag_name data = tag.
Proof.
  intros Hrun.
  destruct (tag_page_loop_spec server tag fuel 0 k) as (pre & _ & _ & Hout);
    [unfold max_retries; lia|].
  unfold scrape_tag_page in Hrun. rewrite Hrun in Hout.
  destruct Hout as [(? & _)|(_ & _ & _ & Hr)]; [done|].
  destruct (server (k + length pre)%nat (get_tag_url tag)) as [| | |code content];
    try done.
  simpl in Hr. destruct (code =? 200); [|done]. by injection Hr as ->.
Qed.

Lemma process_tags_spec server fuel : ∀ tags rows failed k,
  match process_tags server fuel tags rows failed k with
  | Done (rows', failed') _ =>
      ∃ new_rows new_failed,
        rows' = rows ++ new_rows
        ∧ failed' = failed ++ new_failed
        ∧ tags ≡ₚ (tag_name <$> new_rows) ++ new_failed
        ∧ (tag_name <$> new_rows) `sublist_of` tags
        ∧ new_failed `sublist_of` tags
  | Running _ => True
  end.
Proof.
  induction tags as [|tag tags IH]; intros rows failed k.
  - simpl. exists [], []. by rewrite !app_nil_r.
  - cbn [process_tags].
    destruct (scrape_tag_page server tag fuel k) as [[data|] k'|k'] eqn:Hpage; [| |done].
    + apply scrape_tag_page_tag_name in Hpage.
      specialize (IH (rows ++ [data]) failed k').
      destruct (process_tags server fuel tags (rows ++ [data]) failed k')
        as [[rows' failed'] k''|k'']; [|done].
      destruct IH as (new_rows & new_failed & -> & -> & Hperm & Hs1 & Hs2).
      exists (data :: new_rows), new_failed. rewrite <-app_assoc, fmap_cons, Hpage.
      split_and!; try done.
      * simpl. by rewrite <-Hperm.
      * by apply sublist_skip.
      * by apply sublist_cons.
    + specialize (IH rows (failed ++ [tag]) k').
      destruct (process_tags server fuel tags rows (failed ++ [tag]) k')
        as [[rows' failed'] k''|k'']; [|done].
      destruct IH as (new_rows & new_failed & -> & -> & Hperm & Hs1 & Hs2).
      exists new_rows, (tag :: new_failed). rewrite <-app_assoc.
      split_and!; try done.
      * by rewrite <-Permutation_middle, <-Hperm.
      * by apply sublist_cons.
      * by apply sublist_skip.
Qed.

Lemma process_tags_done server fuel :
  (∀ j url content, server j url ≠ Replied 429 content) →
  (4 ≤ fuel)%nat →
  ∀ tags rows failed k,
    ∃ r k', process_tags server fuel tags rows failed k = Done r k'
            ∧ (k' ≤ k + 3 * length tags)%nat.
Proof.
  intros Hno Hfuel. induction tags as [|tag tags IH]; intros rows failed k.
  - exists (rows, failed), k. split; [done|]. simpl. lia.
  - cbn [process_tags]. unfold scrape_tag_page.
    destruct (tag_page_loop_done server tag fuel 0 k) as (r & k1 & -> & Hk1);
      [intros j content; apply Hno|unfold max_retries; lia..|].
    unfold max_retries in Hk1.
    destruct r as [data|].
    + destruct (IH (rows ++ [data]) failed k1) as (r & k' & -> & Hk').
      exists r, k'. split; [done|]. simpl. lia.
    + destruct (IH rows (failed ++ [tag]) k1) as (r & k' & -> & Hk').
      exists r, k'. split; [done|]. simpl. lia.
Qed.

(** X26.  When the tag scraper is done, the rows that the CSV file held
    are still there, and every tag of the input that was not the name of
    one of them has either got a row after them or a line in
    [scrape_tags_failed.txt], once for each time the input lists it and in
    the order of the input; no other row or line was written.  A tag that
    the input lists twice is therefore fetched twice.  Against a site that
    never answers 429 the scraper is done when it is given four turns of
    the retry loop for each tag, after at most three requests for each tag
    of the input. *)
Theorem every_new_tag_is_scraped_or_reported server fuel tags_to_scrape f :
  match scrape_tags_main server fuel tags_to_scrape f with
  | Done f' _ =>
      ∃ new_rows new_failed,
        scraped_tags_csv f' = Some (default [] (scraped_tags_csv f) ++ new_rows)
        ∧ scrape_tags_failed_txt f' = scrape_tags_failed_txt f ++ new_failed
        ∧ filter (λ t, t ∉ tag_name <$> default [] (scraped_tags_csv f)) tags_to_scrape
          ≡ₚ (tag_name <$> new_rows) ++ new_failed
        ∧ (tag_name <$> new_rows) `sublist_of` tags_to_scrape
        ∧ new_failed `sublist_of` tags_to_scrape
        ∧ ∀ row, row ∈ new_rows →
                 tag_name row ∉ tag_name <$> default [] (scraped_tags_csv f)
  | Running _ => True
  end
  ∧ ((∀ j url content, server j url ≠ Replied 429 content) →
     (4 ≤ fuel)%nat →
     ∃ f' k, scrape_tags_main server fuel tags_to_scrape f = Done f' k
             ∧ (k ≤ 3 * length tags_to_scrape)%nat).
Proof.
  unfold scrape_tags_main.
  set (old_rows := default [] (scraped_tags_csv f)).
  set (seen_tags := if bool_decide (is_Some (scraped_tags_csv f))
                    then list_to_set (tag_name <$> old_rows) else ∅ : gset string).
  assert (∀ t, t ∉ seen_tags ↔ t ∉ tag_name <$> old_rows) as Hseen.
  { intros t. unfold seen_tags, old_rows.
    destruct (scraped_tags_csv f) as [rows|]; simpl.
    - by rewrite elem_of_list_to_set.
    - split; [intros _ ?%elem_of_nil|intros _ ?%elem_of_empty]; done. }
  assert (filter (λ t, t ∉ seen_tags) tags_to_scrape
          = filter (λ t, t ∉ tag_name <$> old_rows) tags_to_scrape) as Hfilter
    by (by apply list_filter_iff).
  split.
  - pose proof (process_tags_spec server fuel (filter (λ t, t ∉ seen_tags) tags_to_scrape)
                  old_rows (scrape_tags_failed_txt f) 0) as Hspec.
    destruct (process_tags _ _ _ _ _ _) as [[rows' failed'] k'|k']; [|done].
    destruct Hspec as (new_rows & new_failed & -> & -> & Hperm & Hs1 & Hs2).
    exists new_rows, new_failed. simpl. rewrite <-Hfilter.
    split_and!; try done.
    + etrans; [done|]. apply sublist_filter.
    + etrans; [done|]. apply sublist_filter.
    + intros row Hrow. apply Hseen.
      assert (tag_name row ∈ filter (λ t, t ∉ seen_tags) tags_to_scrape) as Hin.
      { rewrite Hperm. apply elem_of_app. left. by apply list_elem_of_fmap_2. }
      by apply list_elem_of_filter in Hin as [? _].
  - intros Hno Hfuel.
    destruct (process_tags_done server fuel Hno Hfuel
                (filter (λ t, t ∉ seen_tags) tags_to_scrape) old_rows
                (scrape_tags_failed_txt f) 0) as ([rows' failed'] & k & -> & Hk).
    pose proof (length_filter (λ t, t ∉ seen_tags) tags_to_scrape) as Hlen.
    eexists _, k. split; [done|]. simpl in *. lia.
Qed.

Lemma every_new_tag_is_scraped_or_reported_witness :
  ∃ f' k, scrape_tags_main slow_server 4 ["Fluff"; "Angst"]%string (mkTagFiles None [])
          = Done f' k
          ∧ (k ≤ 3 * length ["Fluff"; "Angst"]%string)%nat.
Proof.
  apply (proj2 (every_new_tag_is_scraped_or_reported slow_server 4
                  ["Fluff"; "Angst"]%string (mkTagFiles None []))); [|lia].
  intros j url content. unfold slow_server. by destruct (j =? 0)%nat.
Defined.
